(** * inFlow inventory client: cache discipline and serial index

    A shallow embedding of the caching and indexing core of
    [scripts/mcp-client.ts] and of the read-modify-write commands of
    [scripts/cli.ts].

    Conventions.
    - An [async] method is a computation in the monad [M]: it threads the
      process state [World] (connection flag, the client's [cacheDisabled]
      flag, the module-level cache, the clock, the remote service) and ends
      in a value, in a thrown [Error] or, for the one unbounded loop of the
      client, in exhaustion of the iteration budget.
    - A JavaScript string is the [string] of the bytes of its UTF-8 form;
      [trim] and [toUpperCase] work on its code points: [trim] removes the
      WhiteSpace and LineTerminator code points of ECMAScript from both
      ends, [toUpperCase] replaces each code point by its upper-case mapping
      of the Unicode character database, which may be several code points.
    - Sales-order documents are read at the schema the client relies on; the
      guards of the code ([lines || []], [line.quantity?.serialNumbers],
      [Array.isArray], [!serial]) are kept as options, and a [null] in the
      place of an order is kept as such. *)

From Stdlib Require Import ZArith NArith Ascii String DecimalString List Bool Lia.
From stdpp Require Import base option list strings gmap fin_maps.

Open Scope string_scope.
Open Scope Z_scope.

(** ** JavaScript strings *)

Module JsString.

(** [trim] and [toUpperCase] of ECMAScript work on code points. A string is
    held as the bytes of its UTF-8 form (a lone surrogate as the three bytes
    of its generalized form), so the two are defined on the byte sequences
    of the code points. *)

(** The bytes of the UTF-8 form of a code point open with a byte that tells
    how many they are. *)
Definition width (b : ascii) : nat :=
  let n := N_of_ascii b in
  if (n <? 192)%N then 1 else if (n <? 224)%N then 2 else if (n <? 240)%N then 3 else 4.

(** The code points of a string, each as its bytes; bytes that end the
    string before a code point is complete stay together. *)
Fixpoint codePoints (s : string) : list string :=
  match s with
  | EmptyString => []
  | String a rest =>
      match width a, rest with
      | 1%nat, _ => String a EmptyString :: codePoints rest
      | 2%nat, String b r => String a (String b EmptyString) :: codePoints r
      | 3%nat, String b (String c r) =>
          String a (String b (String c EmptyString)) :: codePoints r
      | 4%nat, String b (String c (String d r)) =>
          String a (String b (String c (String d EmptyString))) :: codePoints r
      | _, _ => [s]
      end
  end.

(** The string made of a list of code points. *)
Definition join (l : list string) : string := fold_right String.append EmptyString l.

Definition byte (n : N) : ascii := ascii_of_N (n mod 256).

(** The UTF-8 form of a code point. *)
Definition utf8 (n : N) : string :=
  (if n <? 128 then String (byte n) EmptyString
   else if n <? 2048 then
     String (byte (192 + n / 64)) (String (byte (128 + n mod 64)) EmptyString)
   else if n <? 65536 then
     String (byte (224 + n / 4096))
       (String (byte (128 + (n / 64) mod 64)) (String (byte (128 + n mod 64)) EmptyString))
   else
     String (byte (240 + n / 262144))
       (String (byte (128 + (n / 4096) mod 64))
          (String (byte (128 + (n / 64) mod 64))
             (String (byte (128 + n mod 64)) EmptyString))))%N.

(** The code point a sequence of one to four bytes stands for. *)
Definition codePoint (t : string) : N :=
  match t with
  | String a EmptyString => N_of_ascii a
  | String a (String b EmptyString) =>
      (N_of_ascii a mod 32) * 64 + N_of_ascii b mod 64
  | String a (String b (String c EmptyString)) =>
      (N_of_ascii a mod 16) * 4096 + (N_of_ascii b mod 64) * 64 + N_of_ascii c mod 64
  | String a (String b (String c (String d EmptyString))) =>
      (N_of_ascii a mod 8) * 262144 + (N_of_ascii b mod 64) * 4096
      + (N_of_ascii c mod 64) * 64 + N_of_ascii d mod 64
  | _ => 0
  end%N.

(** Whether the bytes are the UTF-8 form of a code point. *)
Definition wellFormed (t : string) : bool := String.eqb (utf8 (codePoint t)) t.

(** WhiteSpace and LineTerminator of ECMAScript beyond the ASCII range:
    U+00A0, U+1680, U+2000 to U+200A, U+2028, U+2029, U+202F, U+205F,
    U+3000 and U+FEFF. *)
Definition whiteSpace : list N :=
  [160; 5760; 8192; 8193; 8194; 8195; 8196; 8197; 8198; 8199; 8200; 8201; 8202;
   8232; 8233; 8239; 8287; 12288; 65279]%N.

(** Whether a code point is white space for [trim]: U+0009 to U+000D and
    U+0020 among those of one byte, and the ones above. *)
Definition isWhiteSpace (t : string) : bool :=
  match t with
  | String a EmptyString =>
      let n := N_of_ascii a in ((9 <=? n)%N && (n <=? 13)%N) || (n =? 32)%N
  | _ => wellFormed t && existsb (N.eqb (codePoint t)) whiteSpace
  end.

(** The code points beyond the ASCII range that [toUpperCase] changes, each
    with the code points that replace it: the upper-case mappings of the
    Unicode character database, version 14, the unconditional mappings of
    its special casing included (U+00DF to [SS], U+FB01 to [FI], ...).
    [toUpperCase] uses no mapping that depends on the locale or on the
    neighbouring code points. *)
Definition upperCase : list (N * list N) :=
 [
  (181, [924]); (223, [83; 83]); (224, [192]); (225, [193]); (226, [194]);
   (227, [195]); (228, [196]); (229, [197]); (230, [198]); (231, [199]);
   (232, [200]); (233, [201]); (234, [202]); (235, [203]); (236, [204]);
   (237, [205]); (238, [206]); (239, [207]); (240, [208]); (241, [209]);
   (242, [210]); (243, [211]); (244, [212]); (245, [213]); (246, [214]);
   (248, [216]); (249, [217]); (250, [218]); (251, [219]); (252, [220]);
   (253, [221]); (254, [222]); (255, [376]); (257, [256]); (259, [258]);
   (261, [260]); (263, [262]); (265, [264]); (267, [266]); (269, [268]);
   (271, [270]); (273, [272]); (275, [274]); (277, [276]); (279, [278]);
   (281, [280]); (283, [282]); (285, [284]); (287, [286]); (289, [288]);
   (291, [290]); (293, [292]); (295, [294]); (297, [296]); (299, [298]);
   (301, [300]); (303, [302]); (305, [73]); (307, [306]); (309, [308]);
   (311, [310]); (314, [313]); (316, [315]); (318, [317]); (320, [319]);
   (322, [321]); (324, [323]); (326, [325]); (328, [327]); (329, [700; 78]);
   (331, [330]); (333, [332]); (335, [334]); (337, [336]); (339, [338]);
   (341, [340]); (343, [342]); (345, [344]); (347, [346]); (349, [348]);
   (351, [350]); (353, [352]); (355, [354]); (357, [356]); (359, [358]);
   (361, [360]); (363, [362]); (365, [364]); (367, [366]); (369, [368]);
   (371, [370]); (373, [372]); (375, [374]); (378, [377]); (380, [379]);
   (382, [381]); (383, [83]); (384, [579]); (387, [386]); (389, [388]);
   (392, [391]); (396, [395]); (402, [401]); (405, [502]); (409, [408]);
   (410, [573]); (414, [544]); (417, [416]); (419, [418]); (421, [420]);
   (424, [423]); (429, [428]); (432, [431]); (436, [435]); (438, [437]);
   (441, [440]); (445, [444]); (447, [503]); (453, [452]); (454, [452]);
   (456, [455]); (457, [455]); (459, [458]); (460, [458]); (462, [461]);
   (464, [463]); (466, [465]); (468, [467]); (470, [469]); (472, [471]);
   (474, [473]); (476, [475]); (477, [398]); (479, [478]); (481, [480]);
   (483, [482]); (485, [484]); (487, [486]); (489, [488]); (491, [490]);
   (493, [492]); (495, [494]); (496, [74; 780]); (498, [497]); (499, [497]);
   (501, [500]); (505, [504]); (507, [506]); (509, [508]); (511, [510]);
   (513, [512]); (515, [514]); (517, [516]); (519, [518]); (521, [520]);
   (523, [522]); (525, [524]); (527, [526]); (529, [528]); (531, [530]);
   (533, [532]); (535, [534]); (537, [536]); (539, [538]); (541, [540]);
   (543, [542]); (547, [546]); (549, [548]); (551, [550]); (553, [552]);
   (555, [554]); (557, [556]); (559, [558]); (561, [560]); (563, [562]);
   (572, [571]); (575, [11390]); (576, [11391]); (578, [577]); (583, [582]);
   (585, [584]); (587, [586]); (589, [588]); (591, [590]); (592, [11375]);
   (593, [11373]); (594, [11376]); (595, [385]); (596, [390]); (598, [393]);
   (599, [394]); (601, [399]); (603, [400]); (604, [42923]); (608, [403]);
   (609, [42924]); (611, [404]); (613, [42893]); (614, [42922]);
   (616, [407]); (617, [406]); (618, [42926]); (619, [11362]);
   (620, [42925]); (623, [412]); (625, [11374]); (626, [413]); (629, [415]);
   (637, [11364]); (640, [422]); (642, [42949]); (643, [425]);
   (647, [42929]); (648, [430]); (649, [580]); (650, [433]); (651, [434]);
   (652, [581]); (658, [439]); (669, [42930]); (670, [42928]); (837, [921]);
   (881, [880]); (883, [882]); (887, [886]); (891, [1021]); (892, [1022]);
   (893, [1023]); (912, [921; 776; 769]); (940, [902]); (941, [904]);
   (942, [905]); (943, [906]); (944, [933; 776; 769]); (945, [913]);
   (946, [914]); (947, [915]); (948, [916]); (949, [917]); (950, [918]);
   (951, [919]); (952, [920]); (953, [921]); (954, [922]); (955, [923]);
   (956, [924]); (957, [925]); (958, [926]); (959, [927]); (960, [928]);
   (961, [929]); (962, [931]); (963, [931]); (964, [932]); (965, [933]);
   (966, [934]); (967, [935]); (968, [936]); (969, [937]); (970, [938]);
   (971, [939]); (972, [908]); (973, [910]); (974, [911]); (976, [914]);
   (977, [920]); (981, [934]); (982, [928]); (983, [975]); (985, [984]);
   (987, [986]); (989, [988]); (991, [990]); (993, [992]); (995, [994]);
   (997, [996]); (999, [998]); (1001, [1000]); (1003, [1002]);
   (1005, [1004]); (1007, [1006]); (1008, [922]); (1009, [929]);
   (1010, [1017]); (1011, [895]); (1013, [917]); (1016, [1015]);
   (1019, [1018]); (1072, [1040]); (1073, [1041]); (1074, [1042]);
   (1075, [1043]); (1076, [1044]); (1077, [1045]); (1078, [1046]);
   (1079, [1047]); (1080, [1048]); (1081, [1049]); (1082, [1050]);
   (1083, [1051]); (1084, [1052]); (1085, [1053]); (1086, [1054]);
   (1087, [1055]); (1088, [1056]); (1089, [1057]); (1090, [1058]);
   (1091, [1059]); (1092, [1060]); (1093, [1061]); (1094, [1062]);
   (1095, [1063]); (1096, [1064]); (1097, [1065]); (1098, [1066]);
   (1099, [1067]); (1100, [1068]); (1101, [1069]); (1102, [1070]);
   (1103, [1071]); (1104, [1024]); (1105, [1025]); (1106, [1026]);
   (1107, [1027]); (1108, [1028]); (1109, [1029]); (1110, [1030]);
   (1111, [1031]); (1112, [1032]); (1113, [1033]); (1114, [1034]);
   (1115, [1035]); (1116, [1036]); (1117, [1037]); (1118, [1038]);
   (1119, [1039]); (1121, [1120]); (1123, [1122]); (1125, [1124]);
   (1127, [1126]); (1129, [1128]); (1131, [1130]); (1133, [1132]);
   (1135, [1134]); (1137, [1136]); (1139, [1138]); (1141, [1140]);
   (1143, [1142]); (1145, [1144]); (1147, [1146]); (1149, [1148]);
   (1151, [1150]); (1153, [1152]); (1163, [1162]); (1165, [1164]);
   (1167, [1166]); (1169, [1168]); (1171, [1170]); (1173, [1172]);
   (1175, [1174]); (1177, [1176]); (1179, [1178]); (1181, [1180]);
   (1183, [1182]); (1185, [1184]); (1187, [1186]); (1189, [1188]);
   (1191, [1190]); (1193, [1192]); (1195, [1194]); (1197, [1196]);
   (1199, [1198]); (1201, [1200]); (1203, [1202]); (1205, [1204]);
   (1207, [1206]); (1209, [1208]); (1211, [1210]); (1213, [1212]);
   (1215, [1214]); (1218, [1217]); (1220, [1219]); (1222, [1221]);
   (1224, [1223]); (1226, [1225]); (1228, [1227]); (1230, [1229]);
   (1231, [1216]); (1233, [1232]); (1235, [1234]); (1237, [1236]);
   (1239, [1238]); (1241, [1240]); (1243, [1242]); (1245, [1244]);
   (1247, [1246]); (1249, [1248]); (1251, [1250]); (1253, [1252]);
   (1255, [1254]); (1257, [1256]); (1259, [1258]); (1261, [1260]);
   (1263, [1262]); (1265, [1264]); (1267, [1266]); (1269, [1268]);
   (1271, [1270]); (1273, [1272]); (1275, [1274]); (1277, [1276]);
   (1279, [1278]); (1281, [1280]); (1283, [1282]); (1285, [1284]);
   (1287, [1286]); (1289, [1288]); (1291, [1290]); (1293, [1292]);
   (1295, [1294]); (1297, [1296]); (1299, [1298]); (1301, [1300]);
   (1303, [1302]); (1305, [1304]); (1307, [1306]); (1309, [1308]);
   (1311, [1310]); (1313, [1312]); (1315, [1314]); (1317, [1316]);
   (1319, [1318]); (1321, [1320]); (1323, [1322]); (1325, [1324]);
   (1327, [1326]); (1377, [1329]); (1378, [1330]); (1379, [1331]);
   (1380, [1332]); (1381, [1333]); (1382, [1334]); (1383, [1335]);
   (1384, [1336]); (1385, [1337]); (1386, [1338]); (1387, [1339]);
   (1388, [1340]); (1389, [1341]); (1390, [1342]); (1391, [1343]);
   (1392, [1344]); (1393, [1345]); (1394, [1346]); (1395, [1347]);
   (1396, [1348]); (1397, [1349]); (1398, [1350]); (1399, [1351]);
   (1400, [1352]); (1401, [1353]); (1402, [1354]); (1403, [1355]);
   (1404, [1356]); (1405, [1357]); (1406, [1358]); (1407, [1359]);
   (1408, [1360]); (1409, [1361]); (1410, [1362]); (1411, [1363]);
   (1412, [1364]); (1413, [1365]); (1414, [1366]); (1415, [1333; 1362]);
   (4304, [7312]); (4305, [7313]); (4306, [7314]); (4307, [7315]);
   (4308, [7316]); (4309, [7317]); (4310, [7318]); (4311, [7319]);
   (4312, [7320]); (4313, [7321]); (4314, [7322]); (4315, [7323]);
   (4316, [7324]); (4317, [7325]); (4318, [7326]); (4319, [7327]);
   (4320, [7328]); (4321, [7329]); (4322, [7330]); (4323, [7331]);
   (4324, [7332]); (4325, [7333]); (4326, [7334]); (4327, [7335]);
   (4328, [7336]); (4329, [7337]); (4330, [7338]); (4331, [7339]);
   (4332, [7340]); (4333, [7341]); (4334, [7342]); (4335, [7343]);
   (4336, [7344]); (4337, [7345]); (4338, [7346]); (4339, [7347]);
   (4340, [7348]); (4341, [7349]); (4342, [7350]); (4343, [7351]);
   (4344, [7352]); (4345, [7353]); (4346, [7354]); (4349, [7357]);
   (4350, [7358]); (4351, [7359]); (5112, [5104]); (5113, [5105]);
   (5114, [5106]); (5115, [5107]); (5116, [5108]); (5117, [5109]);
   (7296, [1042]); (7297, [1044]); (7298, [1054]); (7299, [1057]);
   (7300, [1058]); (7301, [1058]); (7302, [1066]); (7303, [1122]);
   (7304, [42570]); (7545, [42877]); (7549, [11363]); (7566, [42950]);
   (7681, [7680]); (7683, [7682]); (7685, [7684]); (7687, [7686]);
   (7689, [7688]); (7691, [7690]); (7693, [7692]); (7695, [7694]);
   (7697, [7696]); (7699, [7698]); (7701, [7700]); (7703, [7702]);
   (7705, [7704]); (7707, [7706]); (7709, [7708]); (7711, [7710]);
   (7713, [7712]); (7715, [7714]); (7717, [7716]); (7719, [7718]);
   (7721, [7720]); (7723, [7722]); (7725, [7724]); (7727, [7726]);
   (7729, [7728]); (7731, [7730]); (7733, [7732]); (7735, [7734]);
   (7737, [7736]); (7739, [7738]); (7741, [7740]); (7743, [7742]);
   (7745, [7744]); (7747, [7746]); (7749, [7748]); (7751, [7750]);
   (7753, [7752]); (7755, [7754]); (7757, [7756]); (7759, [7758]);
   (7761, [7760]); (7763, [7762]); (7765, [7764]); (7767, [7766]);
   (7769, [7768]); (7771, [7770]); (7773, [7772]); (7775, [7774]);
   (7777, [7776]); (7779, [7778]); (7781, [7780]); (7783, [7782]);
   (7785, [7784]); (7787, [7786]); (7789, [7788]); (7791, [7790]);
   (7793, [7792]); (7795, [7794]); (7797, [7796]); (7799, [7798]);
   (7801, [7800]); (7803, [7802]); (7805, [7804]); (7807, [7806]);
   (7809, [7808]); (7811, [7810]); (7813, [7812]); (7815, [7814]);
   (7817, [7816]); (7819, [7818]); (7821, [7820]); (7823, [7822]);
   (7825, [7824]); (7827, [7826]); (7829, [7828]); (7830, [72; 817]);
   (7831, [84; 776]); (7832, [87; 778]); (7833, [89; 778]);
   (7834, [65; 702]); (7835, [7776]); (7841, [7840]); (7843, [7842]);
   (7845, [7844]); (7847, [7846]); (7849, [7848]); (7851, [7850]);
   (7853, [7852]); (7855, [7854]); (7857, [7856]); (7859, [7858]);
   (7861, [7860]); (7863, [7862]); (7865, [7864]); (7867, [7866]);
   (7869, [7868]); (7871, [7870]); (7873, [7872]); (7875, [7874]);
   (7877, [7876]); (7879, [7878]); (7881, [7880]); (7883, [7882]);
   (7885, [7884]); (7887, [7886]); (7889, [7888]); (7891, [7890]);
   (7893, [7892]); (7895, [7894]); (7897, [7896]); (7899, [7898]);
   (7901, [7900]); (7903, [7902]); (7905, [7904]); (7907, [7906]);
   (7909, [7908]); (7911, [7910]); (7913, [7912]); (7915, [7914]);
   (7917, [7916]); (7919, [7918]); (7921, [7920]); (7923, [7922]);
   (7925, [7924]); (7927, [7926]); (7929, [7928]); (7931, [7930]);
   (7933, [7932]); (7935, [7934]); (7936, [7944]); (7937, [7945]);
   (7938, [7946]); (7939, [7947]); (7940, [7948]); (7941, [7949]);
   (7942, [7950]); (7943, [7951]); (7952, [7960]); (7953, [7961]);
   (7954, [7962]); (7955, [7963]); (7956, [7964]); (7957, [7965]);
   (7968, [7976]); (7969, [7977]); (7970, [7978]); (7971, [7979]);
   (7972, [7980]); (7973, [7981]); (7974, [7982]); (7975, [7983]);
   (7984, [7992]); (7985, [7993]); (7986, [7994]); (7987, [7995]);
   (7988, [7996]); (7989, [7997]); (7990, [7998]); (7991, [7999]);
   (8000, [8008]); (8001, [8009]); (8002, [8010]); (8003, [8011]);
   (8004, [8012]); (8005, [8013]); (8016, [933; 787]); (8017, [8025]);
   (8018, [933; 787; 768]); (8019, [8027]); (8020, [933; 787; 769]);
   (8021, [8029]); (8022, [933; 787; 834]); (8023, [8031]); (8032, [8040]);
   (8033, [8041]); (8034, [8042]); (8035, [8043]); (8036, [8044]);
   (8037, [8045]); (8038, [8046]); (8039, [8047]); (8048, [8122]);
   (8049, [8123]); (8050, [8136]); (8051, [8137]); (8052, [8138]);
   (8053, [8139]); (8054, [8154]); (8055, [8155]); (8056, [8184]);
   (8057, [8185]); (8058, [8170]); (8059, [8171]); (8060, [8186]);
   (8061, [8187]); (8064, [7944; 921]); (8065, [7945; 921]);
   (8066, [7946; 921]); (8067, [7947; 921]); (8068, [7948; 921]);
   (8069, [7949; 921]); (8070, [7950; 921]); (8071, [7951; 921]);
   (8072, [7944; 921]); (8073, [7945; 921]); (8074, [7946; 921]);
   (8075, [7947; 921]); (8076, [7948; 921]); (8077, [7949; 921]);
   (8078, [7950; 921]); (8079, [7951; 921]); (8080, [7976; 921]);
   (8081, [7977; 921]); (8082, [7978; 921]); (8083, [7979; 921]);
   (8084, [7980; 921]); (8085, [7981; 921]); (8086, [7982; 921]);
   (8087, [7983; 921]); (8088, [7976; 921]); (8089, [7977; 921]);
   (8090, [7978; 921]); (8091, [7979; 921]); (8092, [7980; 921]);
   (8093, [7981; 921]); (8094, [7982; 921]); (8095, [7983; 921]);
   (8096, [8040; 921]); (8097, [8041; 921]); (8098, [8042; 921]);
   (8099, [8043; 921]); (8100, [8044; 921]); (8101, [8045; 921]);
   (8102, [8046; 921]); (8103, [8047; 921]); (8104, [8040; 921]);
   (8105, [8041; 921]); (8106, [8042; 921]); (8107, [8043; 921]);
   (8108, [8044; 921]); (8109, [8045; 921]); (8110, [8046; 921]);
   (8111, [8047; 921]); (8112, [8120]); (8113, [8121]); (8114, [8122; 921]);
   (8115, [913; 921]); (8116, [902; 921]); (8118, [913; 834]);
   (8119, [913; 834; 921]); (8124, [913; 921]); (8126, [921]);
   (8130, [8138; 921]); (8131, [919; 921]); (8132, [905; 921]);
   (8134, [919; 834]); (8135, [919; 834; 921]); (8140, [919; 921]);
   (8144, [8152]); (8145, [8153]); (8146, [921; 776; 768]);
   (8147, [921; 776; 769]); (8150, [921; 834]); (8151, [921; 776; 834]);
   (8160, [8168]); (8161, [8169]); (8162, [933; 776; 768]);
   (8163, [933; 776; 769]); (8164, [929; 787]); (8165, [8172]);
   (8166, [933; 834]); (8167, [933; 776; 834]); (8178, [8186; 921]);
   (8179, [937; 921]); (8180, [911; 921]); (8182, [937; 834]);
   (8183, [937; 834; 921]); (8188, [937; 921]); (8526, [8498]);
   (8560, [8544]); (8561, [8545]); (8562, [8546]); (8563, [8547]);
   (8564, [8548]); (8565, [8549]); (8566, [8550]); (8567, [8551]);
   (8568, [8552]); (8569, [8553]); (8570, [8554]); (8571, [8555]);
   (8572, [8556]); (8573, [8557]); (8574, [8558]); (8575, [8559]);
   (8580, [8579]); (9424, [9398]); (9425, [9399]); (9426, [9400]);
   (9427, [9401]); (9428, [9402]); (9429, [9403]); (9430, [9404]);
   (9431, [9405]); (9432, [9406]); (9433, [9407]); (9434, [9408]);
   (9435, [9409]); (9436, [9410]); (9437, [9411]); (9438, [9412]);
   (9439, [9413]); (9440, [9414]); (9441, [9415]); (9442, [9416]);
   (9443, [9417]); (9444, [9418]); (9445, [9419]); (9446, [9420]);
   (9447, [9421]); (9448, [9422]); (9449, [9423]); (11312, [11264]);
   (11313, [11265]); (11314, [11266]); (11315, [11267]); (11316, [11268]);
   (11317, [11269]); (11318, [11270]); (11319, [11271]); (11320, [11272]);
   (11321, [11273]); (11322, [11274]); (11323, [11275]); (11324, [11276]);
   (11325, [11277]); (11326, [11278]); (11327, [11279]); (11328, [11280]);
   (11329, [11281]); (11330, [11282]); (11331, [11283]); (11332, [11284]);
   (11333, [11285]); (11334, [11286]); (11335, [11287]); (11336, [11288]);
   (11337, [11289]); (11338, [11290]); (11339, [11291]); (11340, [11292]);
   (11341, [11293]); (11342, [11294]); (11343, [11295]); (11344, [11296]);
   (11345, [11297]); (11346, [11298]); (11347, [11299]); (11348, [11300]);
   (11349, [11301]); (11350, [11302]); (11351, [11303]); (11352, [11304]);
   (11353, [11305]); (11354, [11306]); (11355, [11307]); (11356, [11308]);
   (11357, [11309]); (11358, [11310]); (11359, [11311]); (11361, [11360]);
   (11365, [570]); (11366, [574]); (11368, [11367]); (11370, [11369]);
   (11372, [11371]); (11379, [11378]); (11382, [11381]); (11393, [11392]);
   (11395, [11394]); (11397, [11396]); (11399, [11398]); (11401, [11400]);
   (11403, [11402]); (11405, [11404]); (11407, [11406]); (11409, [11408]);
   (11411, [11410]); (11413, [11412]); (11415, [11414]); (11417, [11416]);
   (11419, [11418]); (11421, [11420]); (11423, [11422]); (11425, [11424]);
   (11427, [11426]); (11429, [11428]); (11431, [11430]); (11433, [11432]);
   (11435, [11434]); (11437, [11436]); (11439, [11438]); (11441, [11440]);
   (11443, [11442]); (11445, [11444]); (11447, [11446]); (11449, [11448]);
   (11451, [11450]); (11453, [11452]); (11455, [11454]); (11457, [11456]);
   (11459, [11458]); (11461, [11460]); (11463, [11462]); (11465, [11464]);
   (11467, [11466]); (11469, [11468]); (11471, [11470]); (11473, [11472]);
   (11475, [11474]); (11477, [11476]); (11479, [11478]); (11481, [11480]);
   (11483, [11482]); (11485, [11484]); (11487, [11486]); (11489, [11488]);
   (11491, [11490]); (11500, [11499]); (11502, [11501]); (11507, [11506]);
   (11520, [4256]); (11521, [4257]); (11522, [4258]); (11523, [4259]);
   (11524, [4260]); (11525, [4261]); (11526, [4262]); (11527, [4263]);
   (11528, [4264]); (11529, [4265]); (11530, [4266]); (11531, [4267]);
   (11532, [4268]); (11533, [4269]); (11534, [4270]); (11535, [4271]);
   (11536, [4272]); (11537, [4273]); (11538, [4274]); (11539, [4275]);
   (11540, [4276]); (11541, [4277]); (11542, [4278]); (11543, [4279]);
   (11544, [4280]); (11545, [4281]); (11546, [4282]); (11547, [4283]);
   (11548, [4284]); (11549, [4285]); (11550, [4286]); (11551, [4287]);
   (11552, [4288]); (11553, [4289]); (11554, [4290]); (11555, [4291]);
   (11556, [4292]); (11557, [4293]); (11559, [4295]); (11565, [4301]);
   (42561, [42560]); (42563, [42562]); (42565, [42564]); (42567, [42566]);
   (42569, [42568]); (42571, [42570]); (42573, [42572]); (42575, [42574]);
   (42577, [42576]); (42579, [42578]); (42581, [42580]); (42583, [42582]);
   (42585, [42584]); (42587, [42586]); (42589, [42588]); (42591, [42590]);
   (42593, [42592]); (42595, [42594]); (42597, [42596]); (42599, [42598]);
   (42601, [42600]); (42603, [42602]); (42605, [42604]); (42625, [42624]);
   (42627, [42626]); (42629, [42628]); (42631, [42630]); (42633, [42632]);
   (42635, [42634]); (42637, [42636]); (42639, [42638]); (42641, [42640]);
   (42643, [42642]); (42645, [42644]); (42647, [42646]); (42649, [42648]);
   (42651, [42650]); (42787, [42786]); (42789, [42788]); (42791, [42790]);
   (42793, [42792]); (42795, [42794]); (42797, [42796]); (42799, [42798]);
   (42803, [42802]); (42805, [42804]); (42807, [42806]); (42809, [42808]);
   (42811, [42810]); (42813, [42812]); (42815, [42814]); (42817, [42816]);
   (42819, [42818]); (42821, [42820]); (42823, [42822]); (42825, [42824]);
   (42827, [42826]); (42829, [42828]); (42831, [42830]); (42833, [42832]);
   (42835, [42834]); (42837, [42836]); (42839, [42838]); (42841, [42840]);
   (42843, [42842]); (42845, [42844]); (42847, [42846]); (42849, [42848]);
   (42851, [42850]); (42853, [42852]); (42855, [42854]); (42857, [42856]);
   (42859, [42858]); (42861, [42860]); (42863, [42862]); (42874, [42873]);
   (42876, [42875]); (42879, [42878]); (42881, [42880]); (42883, [42882]);
   (42885, [42884]); (42887, [42886]); (42892, [42891]); (42897, [42896]);
   (42899, [42898]); (42900, [42948]); (42903, [42902]); (42905, [42904]);
   (42907, [42906]); (42909, [42908]); (42911, [42910]); (42913, [42912]);
   (42915, [42914]); (42917, [42916]); (42919, [42918]); (42921, [42920]);
   (42933, [42932]); (42935, [42934]); (42937, [42936]); (42939, [42938]);
   (42941, [42940]); (42943, [42942]); (42945, [42944]); (42947, [42946]);
   (42952, [42951]); (42954, [42953]); (42961, [42960]); (42967, [42966]);
   (42969, [42968]); (42998, [42997]); (43859, [42931]); (43888, [5024]);
   (43889, [5025]); (43890, [5026]); (43891, [5027]); (43892, [5028]);
   (43893, [5029]); (43894, [5030]); (43895, [5031]); (43896, [5032]);
   (43897, [5033]); (43898, [5034]); (43899, [5035]); (43900, [5036]);
   (43901, [5037]); (43902, [5038]); (43903, [5039]); (43904, [5040]);
   (43905, [5041]); (43906, [5042]); (43907, [5043]); (43908, [5044]);
   (43909, [5045]); (43910, [5046]); (43911, [5047]); (43912, [5048]);
   (43913, [5049]); (43914, [5050]); (43915, [5051]); (43916, [5052]);
   (43917, [5053]); (43918, [5054]); (43919, [5055]); (43920, [5056]);
   (43921, [5057]); (43922, [5058]); (43923, [5059]); (43924, [5060]);
   (43925, [5061]); (43926, [5062]); (43927, [5063]); (43928, [5064]);
   (43929, [5065]); (43930, [5066]); (43931, [5067]); (43932, [5068]);
   (43933, [5069]); (43934, [5070]); (43935, [5071]); (43936, [5072]);
   (43937, [5073]); (43938, [5074]); (43939, [5075]); (43940, [5076]);
   (43941, [5077]); (43942, [5078]); (43943, [5079]); (43944, [5080]);
   (43945, [5081]); (43946, [5082]); (43947, [5083]); (43948, [5084]);
   (43949, [5085]); (43950, [5086]); (43951, [5087]); (43952, [5088]);
   (43953, [5089]); (43954, [5090]); (43955, [5091]); (43956, [5092]);
   (43957, [5093]); (43958, [5094]); (43959, [5095]); (43960, [5096]);
   (43961, [5097]); (43962, [5098]); (43963, [5099]); (43964, [5100]);
   (43965, [5101]); (43966, [5102]); (43967, [5103]); (64256, [70; 70]);
   (64257, [70; 73]); (64258, [70; 76]); (64259, [70; 70; 73]);
   (64260, [70; 70; 76]); (64261, [83; 84]); (64262, [83; 84]);
   (64275, [1348; 1350]); (64276, [1348; 1333]); (64277, [1348; 1339]);
   (64278, [1358; 1350]); (64279, [1348; 1341]); (65345, [65313]);
   (65346, [65314]); (65347, [65315]); (65348, [65316]); (65349, [65317]);
   (65350, [65318]); (65351, [65319]); (65352, [65320]); (65353, [65321]);
   (65354, [65322]); (65355, [65323]); (65356, [65324]); (65357, [65325]);
   (65358, [65326]); (65359, [65327]); (65360, [65328]); (65361, [65329]);
   (65362, [65330]); (65363, [65331]); (65364, [65332]); (65365, [65333]);
   (65366, [65334]); (65367, [65335]); (65368, [65336]); (65369, [65337]);
   (65370, [65338]); (66600, [66560]); (66601, [66561]); (66602, [66562]);
   (66603, [66563]); (66604, [66564]); (66605, [66565]); (66606, [66566]);
   (66607, [66567]); (66608, [66568]); (66609, [66569]); (66610, [66570]);
   (66611, [66571]); (66612, [66572]); (66613, [66573]); (66614, [66574]);
   (66615, [66575]); (66616, [66576]); (66617, [66577]); (66618, [66578]);
   (66619, [66579]); (66620, [66580]); (66621, [66581]); (66622, [66582]);
   (66623, [66583]); (66624, [66584]); (66625, [66585]); (66626, [66586]);
   (66627, [66587]); (66628, [66588]); (66629, [66589]); (66630, [66590]);
   (66631, [66591]); (66632, [66592]); (66633, [66593]); (66634, [66594]);
   (66635, [66595]); (66636, [66596]); (66637, [66597]); (66638, [66598]);
   (66639, [66599]); (66776, [66736]); (66777, [66737]); (66778, [66738]);
   (66779, [66739]); (66780, [66740]); (66781, [66741]); (66782, [66742]);
   (66783, [66743]); (66784, [66744]); (66785, [66745]); (66786, [66746]);
   (66787, [66747]); (66788, [66748]); (66789, [66749]); (66790, [66750]);
   (66791, [66751]); (66792, [66752]); (66793, [66753]); (66794, [66754]);
   (66795, [66755]); (66796, [66756]); (66797, [66757]); (66798, [66758]);
   (66799, [66759]); (66800, [66760]); (66801, [66761]); (66802, [66762]);
   (66803, [66763]); (66804, [66764]); (66805, [66765]); (66806, [66766]);
   (66807, [66767]); (66808, [66768]); (66809, [66769]); (66810, [66770]);
   (66811, [66771]); (66967, [66928]); (66968, [66929]); (66969, [66930]);
   (66970, [66931]); (66971, [66932]); (66972, [66933]); (66973, [66934]);
   (66974, [66935]); (66975, [66936]); (66976, [66937]); (66977, [66938]);
   (66979, [66940]); (66980, [66941]); (66981, [66942]); (66982, [66943]);
   (66983, [66944]); (66984, [66945]); (66985, [66946]); (66986, [66947]);
   (66987, [66948]); (66988, [66949]); (66989, [66950]); (66990, [66951]);
   (66991, [66952]); (66992, [66953]); (66993, [66954]); (66995, [66956]);
   (66996, [66957]); (66997, [66958]); (66998, [66959]); (66999, [66960]);
   (67000, [66961]); (67001, [66962]); (67003, [66964]); (67004, [66965]);
   (68800, [68736]); (68801, [68737]); (68802, [68738]); (68803, [68739]);
   (68804, [68740]); (68805, [68741]); (68806, [68742]); (68807, [68743]);
   (68808, [68744]); (68809, [68745]); (68810, [68746]); (68811, [68747]);
   (68812, [68748]); (68813, [68749]); (68814, [68750]); (68815, [68751]);
   (68816, [68752]); (68817, [68753]); (68818, [68754]); (68819, [68755]);
   (68820, [68756]); (68821, [68757]); (68822, [68758]); (68823, [68759]);
   (68824, [68760]); (68825, [68761]); (68826, [68762]); (68827, [68763]);
   (68828, [68764]); (68829, [68765]); (68830, [68766]); (68831, [68767]);
   (68832, [68768]); (68833, [68769]); (68834, [68770]); (68835, [68771]);
   (68836, [68772]); (68837, [68773]); (68838, [68774]); (68839, [68775]);
   (68840, [68776]); (68841, [68777]); (68842, [68778]); (68843, [68779]);
   (68844, [68780]); (68845, [68781]); (68846, [68782]); (68847, [68783]);
   (68848, [68784]); (68849, [68785]); (68850, [68786]); (71872, [71840]);
   (71873, [71841]); (71874, [71842]); (71875, [71843]); (71876, [71844]);
   (71877, [71845]); (71878, [71846]); (71879, [71847]); (71880, [71848]);
   (71881, [71849]); (71882, [71850]); (71883, [71851]); (71884, [71852]);
   (71885, [71853]); (71886, [71854]); (71887, [71855]); (71888, [71856]);
   (71889, [71857]); (71890, [71858]); (71891, [71859]); (71892, [71860]);
   (71893, [71861]); (71894, [71862]); (71895, [71863]); (71896, [71864]);
   (71897, [71865]); (71898, [71866]); (71899, [71867]); (71900, [71868]);
   (71901, [71869]); (71902, [71870]); (71903, [71871]); (93792, [93760]);
   (93793, [93761]); (93794, [93762]); (93795, [93763]); (93796, [93764]);
   (93797, [93765]); (93798, [93766]); (93799, [93767]); (93800, [93768]);
   (93801, [93769]); (93802, [93770]); (93803, [93771]); (93804, [93772]);
   (93805, [93773]); (93806, [93774]); (93807, [93775]); (93808, [93776]);
   (93809, [93777]); (93810, [93778]); (93811, [93779]); (93812, [93780]);
   (93813, [93781]); (93814, [93782]); (93815, [93783]); (93816, [93784]);
   (93817, [93785]); (93818, [93786]); (93819, [93787]); (93820, [93788]);
   (93821, [93789]); (93822, [93790]); (93823, [93791]); (125218, [125184]);
   (125219, [125185]); (125220, [125186]); (125221, [125187]);
   (125222, [125188]); (125223, [125189]); (125224, [125190]);
   (125225, [125191]); (125226, [125192]); (125227, [125193]);
   (125228, [125194]); (125229, [125195]); (125230, [125196]);
   (125231, [125197]); (125232, [125198]); (125233, [125199]);
   (125234, [125200]); (125235, [125201]); (125236, [125202]);
   (125237, [125203]); (125238, [125204]); (125239, [125205]);
   (125240, [125206]); (125241, [125207]); (125242, [125208]);
   (125243, [125209]); (125244, [125210]); (125245, [125211]);
   (125246, [125212]); (125247, [125213]); (125248, [125214]);
   (125249, [125215]); (125250, [125216]); (125251, [125217])
 ]%N.

(** The upper-case form of a code point of one byte: [a-z] go to [A-Z]. *)
Definition upperChar (c : ascii) : ascii :=
  let n := N_of_ascii c in
  if ((97 <=? n)%N && (n <=? 122)%N)%bool then ascii_of_N (n - 32) else c.

(** The entry of a code point in the table. *)
Fixpoint mapped (n : N) (table : list (N * list N)) : option (list N) :=
  match table with
  | [] => None
  | (k, v) :: rest => if (k =? n)%N then Some v else mapped n rest
  end.

(** The upper-case form of one code point. *)
Definition upper (t : string) : string :=
  match t with
  | String a EmptyString => String (upperChar a) EmptyString
  | _ =>
      if wellFormed t then
        match mapped (codePoint t) upperCase with
        | Some replacement => join (map utf8 replacement)
        | None => t
        end
      else t
  end.

(** Leading, and trailing, white space removed from a list of code
    points. *)
Fixpoint trimStart (l : list string) : list string :=
  match l with
  | [] => []
  | t :: rest => if isWhiteSpace t then trimStart rest else l
  end.

Fixpoint trimEnd (l : list string) : list string :=
  match l with
  | [] => []
  | t :: rest =>
      match trimEnd rest with
      | [] => if isWhiteSpace t then [] else [t]
      | kept => t :: kept
      end
  end.

(** [String.prototype.trim] *)
Definition trim (s : string) : string := join (trimEnd (trimStart (codePoints s))).

(** [String.prototype.toUpperCase] *)
Definition toUpperCase (s : string) : string := join (map upper (codePoints s)).

(** A string is falsy exactly when it is empty. *)
Definition truthy (s : string) : bool :=
  match s with EmptyString => false | _ => true end.

(** [re.test(key)] for the anchored literals [/^prefix/] of the client. *)
Definition startsWith (pre key : string) : bool := String.prefix pre key.

End JsString.

(** ** JSON-like values *)

#[local] Set Warnings "-register-all".

Inductive Json : Type :=
| JNull
| JBool (b : bool)
| JNum (n : Z)
| JStr (s : string)
| JArr (items : list Json)
| JObj (fields : list (string * Json)).

Module Js.

(** [undefined] and [null] are both read as [JNull]. *)
Definition truthy (j : Json) : bool :=
  match j with
  | JNull => false
  | JBool b => b
  | JNum n => negb (n =? 0)
  | JStr s => JsString.truthy s
  | JArr _ | JObj _ => true
  end.

Fixpoint assoc (name : string) (fields : list (string * Json)) : Json :=
  match fields with
  | [] => JNull
  | (k, v) :: rest => if String.eqb k name then v else assoc name rest
  end.

(** [j.name] on a value that is not [null]. *)
Definition prop (name : string) (j : Json) : Json :=
  match j with
  | JObj fields => assoc name fields
  | _ => JNull
  end.

(** [a || b] *)
Definition or (a b : Json) : Json := if truthy a then a else b.

(** [opt?.join(",")] of a string array, as the accessors pass it to the key
    builder. *)
Definition joinComma (l : list string) : string := String.concat "," l.

End Js.

(** ** Outcomes and the client monad *)

Inductive Outcome (A : Type) : Type :=
| Return (a : A)
| Throw (message : string)
| Diverge.

Arguments Return {A} a.
Arguments Throw {A} message.
Arguments Diverge {A}.

(** ** Documents of the remote service *)

(** One element of [result.content] of an MCP tool result. *)
Record ContentItem : Type := { type : string; text : option string }.

(** What [client.callTool] of the MCP SDK resolves to. *)
Record ToolResult : Type := { isError : bool; content : list ContentItem }.

(** [line.quantity]; [serialNumbers] is [None] when it is not an array, and
    an element is [None] when it is [null]. *)
Record Quantity : Type := { serialNumbers : option (list (option string)) }.

Record Line : Type := { productId : Json; quantity : option Quantity }.

(** An element of a page of sales orders, or the lone order of a reply;
    [custom4] stands for [order.customFields?.custom4]. [isNull] tells the
    element [null], of which no field can be read, from an object. *)
Record Order : Type := {
  isNull : bool;
  salesOrderId : Json;
  orderNumber : Json;
  orderDate : Json;
  inventoryStatus : Json;
  custom4 : Json;
  packLines : option (list Line);
  pickLines : option (list Line);
  lines : option (list Line) }.

(** The two shapes of a page of [list_sales_orders]: [{ data: [...] }] and
    a bare array. *)
Inductive Page : Type :=
| PageData (data : list Order)
| PageArray (orders : list Order).

(** An entry of the order-based serial index. *)
Record SerialRecord : Type := {
  serial : string;
  sr_salesOrderId : Json;
  sr_orderNumber : Json;
  sr_orderDate : Json;
  sr_productId : Json;
  shopifyOrderUrl : Json }.

(** The values the client handles: parsed JSON (opaque documents, raw text
    being [JStr]), the content array, the sales-order documents (a page, a
    lone order), and the serial index the client builds itself. Documents
    with order fields are [VPage] and [VOrder]; the other values carry
    none, so that reading [packLines] and the like from them is reading
    [undefined]. *)
Inductive Value : Type :=
| VJson (j : Json)
| VContent (c : list ContentItem)
| VPage (p : Page)
| VOrder (o : Order)
| VIndex (index : gmap string SerialRecord).

(** ** The cache store *)

(** The regular expressions the client passes to [invalidatePattern] are all
    anchored literals, [/^stock/] and the like. *)
Inductive RegExp : Type := Anchored (literal : string).

Definition test (re : RegExp) (key : string) : bool :=
  match re with Anchored literal => JsString.startsWith literal key end.

(** Modelled from the spec: the cache entry of [@local/plugin-cache], a
    stored value with the instant at which it stops being visible. *)
Record CacheEntry : Type := { value : Value; expiresAt : Z }.

(** Modelled from the spec: the state of a [PluginCache] of
    [@local/plugin-cache]: the global switch, the entries of its namespace
    and the two counters. *)
Record PluginCache : Type := {
  enabled : bool;
  entries : gmap string CacheEntry;
  hits : nat;
  misses : nat }.

(** Modelled from the spec: the three TTL tiers of [@local/plugin-cache], in
    seconds. *)
Module TTL.
Definition FIVE_MINUTES : Z := 300.
Definition FIFTEEN_MINUTES : Z := 900.
Definition HOUR : Z := 3600.
End TTL.

Module Cache.

Definition withEntries (es : gmap string CacheEntry) (c : PluginCache) : PluginCache :=
  {| enabled := enabled c; entries := es; hits := hits c; misses := misses c |}.

Definition countHit (c : PluginCache) : PluginCache :=
  {| enabled := enabled c; entries := entries c; hits := S (hits c); misses := misses c |}.

Definition countMiss (c : PluginCache) : PluginCache :=
  {| enabled := enabled c; entries := entries c; hits := hits c; misses := S (misses c) |}.

(** Modelled from the spec: [enable()] of [PluginCache]. *)
Definition enable (c : PluginCache) : PluginCache :=
  {| enabled := true; entries := entries c; hits := hits c; misses := misses c |}.

(** Modelled from the spec: [disable()] of [PluginCache]. *)
Definition disable (c : PluginCache) : PluginCache :=
  {| enabled := false; entries := entries c; hits := hits c; misses := misses c |}.

(** Modelled from the spec: [getStats()] of [PluginCache], as hits, misses
    and size. *)
Definition getStats (c : PluginCache) : nat * nat * nat :=
  (hits c, misses c, size (entries c)).

(** Modelled from the spec: [clear()] of [PluginCache]; the counters are
    kept. *)
Definition clear (c : PluginCache) : nat * PluginCache :=
  (size (entries c), withEntries ∅ c).

(** Modelled from the spec: [invalidate(key)] of [PluginCache]. *)
Definition invalidate (key : string) (c : PluginCache) : bool * PluginCache :=
  match entries c !! key with
  | Some _ => (true, withEntries (delete key (entries c)) c)
  | None => (false, c)
  end.

(** Modelled from the spec: [invalidatePattern(regex)] of [PluginCache]. *)
Definition invalidatePattern (re : RegExp) (c : PluginCache) : nat * PluginCache :=
  let kept := filter (λ kv : string * CacheEntry, test re kv.1 = false) (entries c) in
  (size (entries c) - size kept, withEntries kept c)%nat.

(** Modelled from the spec: the read half of [getOrFetch]: the entry under
    [key] when it is present and [now < expiresAt]. *)
Definition fresh (now : Z) (key : string) (c : PluginCache) : option Value :=
  match entries c !! key with
  | Some e => if now <? expiresAt e then Some (value e) else None
  | None => None
  end.

(** Modelled from the spec: what a miss does before the producer runs: the
    miss is counted and a stale entry found by the expiry check is evicted. *)
Definition miss (key : string) (c : PluginCache) : PluginCache :=
  countMiss (withEntries (delete key (entries c)) c).

(** Modelled from the spec: populating [key] at instant [now]. *)
Definition put (now ttl : Z) (key : string) (v : Value) (c : PluginCache) : PluginCache :=
  withEntries (<[key := {| value := v; expiresAt := now + ttl |}]> (entries c)) c.

End Cache.

(** ** The process *)

(** What the client takes from its surroundings: the environment variables,
    the MCP transport and client ([spawn] is [client.connect(transport)],
    [invoke] is [client.callTool]), [JSON.parse] ([None] when it throws), and
    the key builder. *)
Class Env : Type := {
  Remote : Type;
  INFLOW_API_KEY : string;
  INFLOW_COMPANY_ID : string;
  spawn : Remote → Outcome unit * Remote;
  invoke : string → Json → Remote → Outcome ToolResult * Remote;
  JSON_parse : string → option Value;
  (** The callback of [update-purchase-order] that rewrites one line of a
      purchase order, reading its numbers with [parseFloat]. *)
  poLineToItem : Json → Outcome Json;
  (** Modelled from the spec: [createCacheKey] of [@local/plugin-cache], a
      deterministic key from an operation name and its parameters. *)
  createCacheKey : string → list (string * Json) → string }.

(** The state of the process: the fields of the [InFlowMCPClient], the
    module-level [cache], the clock in seconds, the remote service. *)
Record World `{Env} : Type := {
  connected : bool;
  cacheDisabled : bool;
  cache : PluginCache;
  now : Z;
  remote : Remote }.

Section Monad.
Context `{Env}.

Definition M (A : Type) : Type := World → Outcome A * World.

Definition ret {A} (a : A) : M A := λ w, (Return a, w).

Definition throw {A} (message : string) : M A := λ w, (Throw message, w).

Definition bind {A B} (m : M A) (k : A → M B) : M B :=
  λ w, match m w with
       | (Return a, w') => k a w'
       | (Throw message, w') => (Throw message, w')
       | (Diverge, w') => (Diverge, w')
       end.

(** A computation that cannot touch the process state. *)
Definition lift {A} (o : Outcome A) : M A := λ w, (o, w).

Definition setConnected (b : bool) (w : World) : World :=
  {| connected := b; cacheDisabled := cacheDisabled w; cache := cache w;
     now := now w; remote := remote w |}.

Definition setCacheDisabled (b : bool) (w : World) : World :=
  {| connected := connected w; cacheDisabled := b; cache := cache w;
     now := now w; remote := remote w |}.

Definition setCache (c : PluginCache) (w : World) : World :=
  {| connected := connected w; cacheDisabled := cacheDisabled w; cache := c;
     now := now w; remote := remote w |}.

Definition setRemote (r : Remote) (w : World) : World :=
  {| connected := connected w; cacheDisabled := cacheDisabled w; cache := cache w;
     now := now w; remote := r |}.

(** [dt] seconds pass. *)
Definition elapse (dt : Z) (w : World) : World :=
  {| connected := connected w; cacheDisabled := cacheDisabled w; cache := cache w;
     now := now w + dt; remote := remote w |}.

(** A synchronous call on the module-level cache. *)
Definition onCache {A} (f : PluginCache → A * PluginCache) : M A :=
  λ w, let (a, c) := f (cache w) in (Return a, setCache c w).

End Monad.

Notation "'let*' x ':=' m 'in' k" := (bind m (λ x, k))
  (at level 10, x name, m at level 100, k at level 200, only parsing).
Notation "m ';;;' k" := (bind m (λ _, k))
  (at level 100, k at level 200, right associativity, only parsing).

(** ** The cache in the process *)

Section CacheInProcess.
Context `{Env}.

(** Modelled from the spec: [getOrFetch(key, producer, {ttl, bypassCache})]
    of [PluginCache]. With caching enabled and no bypass, a present and
    unexpired entry is a hit: it is counted and returned and the producer is
    not invoked. Otherwise the miss is counted, the producer runs, and its
    result is stored with expiry [now + ttl]; a producer that throws
    propagates and nothing is stored. With caching disabled or on bypass the
    producer always runs and the store is neither read nor written. *)
Definition getOrFetch (key : string) (producer : M Value) (ttl : Z)
    (bypassCache : bool) : M Value :=
  λ w,
    if enabled (cache w) && negb bypassCache then
      match Cache.fresh (now w) key (cache w) with
      | Some v => (Return v, setCache (Cache.countHit (cache w)) w)
      | None =>
          match producer (setCache (Cache.miss key (cache w)) w) with
          | (Return v, w') =>
              (Return v, setCache (Cache.put (now w') ttl key v (cache w')) w')
          | failed => failed
          end
      end
    else producer w.

End CacheInProcess.

(** ** The client, [InFlowMCPClient] of [scripts/mcp-client.ts] *)

Module Client.
Section Client.
Context `{Env}.

(** *** Cache control *)

Definition disableCache : M unit :=
  λ w, (Return tt, setCache (Cache.disable (cache w)) (setCacheDisabled true w)).

Definition enableCache : M unit :=
  λ w, (Return tt, setCache (Cache.enable (cache w)) (setCacheDisabled false w)).

Definition getCacheStats : M (nat * nat * nat) :=
  λ w, (Return (Cache.getStats (cache w)), w).

Definition clearCache : M nat := onCache Cache.clear.

Definition invalidateCacheKey (key : string) : M bool :=
  onCache (Cache.invalidate key).

(** [cache.invalidatePattern(re)], as the write accessors call it. *)
Definition invalidatePattern (re : RegExp) : M nat :=
  onCache (Cache.invalidatePattern re).

(** [this.cacheDisabled], read when an accessor builds its options. *)
Definition readCacheDisabled : M bool := λ w, (Return (cacheDisabled w), w).

(** *** Connection and gateway *)

Definition connect : M unit :=
  λ w,
    if connected w then (Return tt, w)
    else if negb (JsString.truthy INFLOW_API_KEY) then
      (Throw ("INFLOW_API_KEY environment variable is not set. " ++
              "Please export it in your shell or add it to ~/.bashrc"), w)
    else if negb (JsString.truthy INFLOW_COMPANY_ID) then
      (Throw ("INFLOW_COMPANY_ID environment variable is not set. " ++
              "Please export it in your shell or add it to ~/.bashrc"), w)
    else
      match spawn (remote w) with
      | (Return _, r) => (Return tt, setConnected true (setRemote r w))
      | (Throw message, r) => (Throw message, setRemote r w)
      | (Diverge, r) => (Diverge, setRemote r w)
      end.

(** [await this.client.callTool({ name, arguments: args })] *)
Definition transport (name : string) (args : Json) : M ToolResult :=
  λ w, let (o, r) := invoke name args (remote w) in (o, setRemote r w).

(** [content.find((c) => c.type === "text")] *)
Definition findText (content : list ContentItem) : option ContentItem :=
  List.find (λ c, String.eqb (type c) "text") content.

(** [item?.text] as a string, [None] when it is undefined or empty: the two
    cases in which [x?.text || d] is [d] and [if (x?.text)] fails. *)
Definition truthyText (item : option ContentItem) : option string :=
  match item with
  | Some c =>
      match text c with
      | Some t => if JsString.truthy t then Some t else None
      | None => None
      end
  | None => None
  end.

(** The part of [callTool] after the transport has answered. *)
Definition readResult (result : ToolResult) : Outcome Value :=
  let content := content result in
  if isError result then
    let errorContent := findText content in
    Throw (match truthyText errorContent with
           | Some t => t
           | None => "Tool call failed"
           end)
  else
    let textContent := findText content in
    match truthyText textContent with
    | Some t =>
        match JSON_parse t with
        | Some parsed => Return parsed
        | None => Return (VJson (JStr t))
        end
    | None => Return (VContent content)
    end.

Definition callTool (name : string) (args : Json) : M Value :=
  connect ;;;
  let* result := transport name args in
  lift (readResult result).

(** *** Cached accessors *)

Definition strings (l : list string) : Json := JArr (map JStr l).

(** [options?.include?.join(",")] *)
Definition joined (include : option (list string)) : Json :=
  match include with
  | Some l => JStr (Js.joinComma l)
  | None => JNull
  end.

(** [args] extended by [if (options?.include) args.include = options.include] *)
Definition withInclude (include : option (list string))
    (args : list (string * Json)) : Json :=
  match include with
  | Some l => JObj (args ++ [("include", strings l)])
  | None => JObj args
  end.

Definition getProduct (productId : string) (include : option (list string)) : M Value :=
  let cacheKey := createCacheKey "product"
                    [("id", JStr productId); ("include", joined include)] in
  let* bypassCache := readCacheDisabled in
  getOrFetch cacheKey
    (callTool "get_product" (withInclude include [("productId", JStr productId)]))
    TTL.FIFTEEN_MINUTES bypassCache.

Definition getStockLevels (productId : option string) : M Value :=
  match productId with
  | Some id =>
      if JsString.truthy id then
        let cacheKey := createCacheKey "stock" [("productId", JStr id)] in
        let* bypassCache := readCacheDisabled in
        getOrFetch cacheKey
          (callTool "get_inventory_summary" (JObj [("productId", JStr id)]))
          TTL.FIVE_MINUTES bypassCache
      else
        throw ("productId is required for get_inventory_summary. " ++
               "Use list-products first to get product IDs.")
  | None =>
      throw ("productId is required for get_inventory_summary. " ++
             "Use list-products first to get product IDs.")
  end.

Definition getSalesOrder (orderId : string) (include : option (list string)) : M Value :=
  let cacheKey := createCacheKey "sales_order"
                    [("id", JStr orderId); ("include", joined include)] in
  let* bypassCache := readCacheDisabled in
  getOrFetch cacheKey
    (callTool "get_sales_order" (withInclude include [("salesOrderId", JStr orderId)]))
    TTL.FIVE_MINUTES bypassCache.

Definition getPurchaseOrder (orderId : string) (include : option (list string)) : M Value :=
  let cacheKey := createCacheKey "purchase_order"
                    [("id", JStr orderId); ("include", joined include)] in
  let* bypassCache := readCacheDisabled in
  getOrFetch cacheKey
    (callTool "get_purchase_order" (withInclude include [("purchaseOrderId", JStr orderId)]))
    TTL.FIVE_MINUTES bypassCache.

(** *** Write accessors *)

Definition createStockAdjustment (data : Json) : M Value :=
  let* result := callTool "upsert_stock_adjustment" data in
  invalidatePattern (Anchored "stock") ;;;
  ret result.

Definition createStockTransfer (data : Json) : M Value :=
  let* result := callTool "upsert_stock_transfer" data in
  invalidatePattern (Anchored "stock") ;;;
  ret result.

Definition createStockCount (data : Json) : M Value :=
  let* result := callTool "upsert_stock_count" data in
  invalidatePattern (Anchored "stock") ;;;
  ret result.

Definition upsertProduct (data : Json) : M Value :=
  let* result := callTool "upsert_product" data in
  invalidatePattern (Anchored "products") ;;;
  invalidatePattern (Anchored "product:") ;;;
  invalidatePattern (Anchored "products_search") ;;;
  invalidatePattern (Anchored "product_bom") ;;;
  invalidatePattern (Anchored "bom") ;;;
  ret result.

Definition upsertVendor (data : Json) : M Value :=
  let* result := callTool "upsert_vendor" data in
  invalidatePattern (Anchored "vendors") ;;;
  ret result.

Definition upsertPurchaseOrder (data : Json) : M Value :=
  let* result := callTool "upsert_purchase_order" data in
  invalidatePattern (Anchored "purchase_orders") ;;;
  invalidatePattern (Anchored "purchase_order:") ;;;
  ret result.

Definition receivePurchaseOrder (data : Json) : M Value :=
  let* result := callTool "receive_purchase_order" data in
  invalidatePattern (Anchored "purchase_orders") ;;;
  invalidatePattern (Anchored "purchase_order:") ;;;
  invalidatePattern (Anchored "stock") ;;;
  ret result.

Definition unreceivePurchaseOrder (data : Json) : M Value :=
  let* result := callTool "unreceive_purchase_order" data in
  (if negb (Js.truthy (Js.prop "dryRun" data)) then
     invalidatePattern (Anchored "purchase_orders") ;;;
     invalidatePattern (Anchored "purchase_order:") ;;;
     invalidatePattern (Anchored "stock") ;;;
     ret tt
   else ret tt) ;;;
  ret result.

(** *** Serial numbers of one sales order *)

(** A document without order fields: every field read is [undefined]. *)
Definition noOrder : Order :=
  {| isNull := false;
     salesOrderId := JNull; orderNumber := JNull; orderDate := JNull;
     inventoryStatus := JNull; custom4 := JNull;
     packLines := None; pickLines := None; lines := None |}.

(** The element [null]. *)
Definition nullOrder : Order :=
  {| isNull := true;
     salesOrderId := JNull; orderNumber := JNull; orderDate := JNull;
     inventoryStatus := JNull; custom4 := JNull;
     packLines := None; pickLines := None; lines := None |}.

(** The object whose order fields a method reads; reading a field of
    [null] throws. *)
Definition asOrder (v : Value) : Outcome Order :=
  match v with
  | VOrder o => if isNull o then Throw "Cannot read properties of null" else Return o
  | VJson JNull => Throw "Cannot read properties of null"
  | _ => Return noOrder
  end.

(** [line.quantity?.serialNumbers], [None] when [Array.isArray] fails. *)
Definition serialNumbersOf (line : Line) : option (list (option string)) :=
  match quantity line with
  | Some q => serialNumbers q
  | None => None
  end.

(** An element of [serialNumbers] that passes [if (!serial) continue]. *)
Definition truthySerial (s : option string) : option string :=
  match s with
  | Some s => if JsString.truthy s then Some s else None
  | None => None
  end.

(** A value of the [serialMap] of [getSalesOrderSerials]. *)
Record OrderSerial : Type := {
  os_serial : string;
  os_productId : Json;
  sources : list string }.

(** The [Map] of [getSalesOrderSerials] in insertion order: [get] followed
    by [existing.sources.push(source)] when the key is present, by [set] of a
    new entry when it is not. *)
Fixpoint record (serial : string) (line : Line) (source : string)
    (serialMap : list OrderSerial) : list OrderSerial :=
  match serialMap with
  | [] => [{| os_serial := serial; os_productId := productId line;
              sources := [source] |}]
  | existing :: rest =>
      if String.eqb (os_serial existing) serial then
        {| os_serial := os_serial existing; os_productId := os_productId existing;
           sources := sources existing ++ [source] |} :: rest
      else existing :: record serial line source rest
  end.

Definition extractSerials (lines : option (list Line)) (source : string)
    (serialMap : list OrderSerial) : list OrderSerial :=
  fold_left
    (λ serialMap line,
       match serialNumbersOf line with
       | Some serialNumbers =>
           fold_left
             (λ serialMap serial,
                match truthySerial serial with
                | Some serial => record serial line source serialMap
                | None => serialMap
                end)
             serialNumbers serialMap
       | None => serialMap
       end)
    (default [] lines) serialMap.

Record SalesOrderSerials : Type := {
  sos_salesOrderId : Json;
  sos_orderNumber : Json;
  sos_orderDate : Json;
  status : Json;
  serialCount : nat;
  serials : list OrderSerial }.

(** The body of [getSalesOrderSerials] once the order is fetched. *)
Definition serialsOfOrder (order : Order) : SalesOrderSerials :=
  let serialMap := extractSerials (packLines order) "pack" [] in
  let serialMap := extractSerials (pickLines order) "pick" serialMap in
  let serialMap := extractSerials (lines order) "order" serialMap in
  {| sos_salesOrderId := salesOrderId order;
     sos_orderNumber := orderNumber order;
     sos_orderDate := orderDate order;
     status := inventoryStatus order;
     serialCount := List.length serialMap;
     serials := serialMap |}.

Definition getSalesOrderSerials (orderId : string) : M SalesOrderSerials :=
  let* fetched := getSalesOrder orderId (Some ["lines"; "pickLines"; "packLines"]) in
  let* order := lift (asOrder fetched) in
  ret (serialsOfOrder order).

(** *** The order-based serial index *)

(** [serial.trim().toUpperCase()] *)
Definition normalize (serial : string) : string :=
  JsString.toUpperCase (JsString.trim serial).

Definition pageSize : nat := 100.

(** An element of a page that came as an opaque document: [null], or a
    value without order fields. *)
Definition elementOf (j : Json) : Order :=
  match j with
  | JNull => nullOrder
  | _ => noOrder
  end.

(** [result.data || result || []] followed by the [Array.isArray] wrap. *)
Definition orderListOf (result : Value) : Outcome (list Order) :=
  match result with
  | VPage (PageData data) => Return data
  | VPage (PageArray orders) => Return orders
  | VOrder order =>
      if isNull order then Throw "Cannot read properties of null (reading 'data')"
      else Return [order]
  | VJson JNull => Throw "Cannot read properties of null (reading 'data')"
  | VJson j =>
      match Js.or (Js.or (Js.prop "data" j) j) (JArr []) with
      | JArr items => Return (map elementOf items)
      | other => Return [elementOf other]
      end
  | VContent c => Return (map (λ _, noOrder) c)
  | VIndex _ => Return [noOrder]
  end.

(** [maxOrders && allOrders.length >= maxOrders] *)
Definition capReached (maxOrders : option nat) (allOrders : list Order) : bool :=
  match maxOrders with
  | Some (S n) => (S n <=? List.length allOrders)%nat
  | _ => false
  end.

(** [allOrders.length = maxOrders] *)
Definition truncate (maxOrders : option nat) (allOrders : list Order) : list Order :=
  match maxOrders with
  | Some n => firstn n allOrders
  | None => allOrders
  end.

(** The [while (true)] loop of [buildSerialIndex]; [fuel] bounds the number
    of pages requested. *)
Fixpoint fetchOrders (fuel : nat) (status : string) (maxOrders : option nat)
    (skip : nat) (allOrders : list Order) : M (list Order) :=
  match fuel with
  | O => lift Diverge
  | S fuel =>
      let* result :=
        callTool "list_sales_orders"
          (JObj [("status", JStr status);
                 ("include", strings ["lines"; "pickLines"; "packLines"]);
                 ("count", JNum (Z.of_nat pageSize));
                 ("skip", JNum (Z.of_nat skip))]) in
      let* orderList := lift (orderListOf result) in
      let allOrders := (allOrders ++ orderList)%list in
      if (List.length orderList <? pageSize)%nat then ret allOrders
      else if capReached maxOrders allOrders then ret (truncate maxOrders allOrders)
      else fetchOrders fuel status maxOrders (skip + pageSize)%nat allOrders
  end.

Definition newRecord (normalizedSerial : string) (order : Order) (line : Line)
    : SerialRecord :=
  {| serial := normalizedSerial;
     sr_salesOrderId := salesOrderId order;
     sr_orderNumber := orderNumber order;
     sr_orderDate := orderDate order;
     sr_productId := productId line;
     shopifyOrderUrl := Js.or (custom4 order) JNull |}.

(** [if (!serialIndex[normalizedSerial]) serialIndex[normalizedSerial] = {...}];
    an entry is an object and so never falsy, and a normalized key has no
    lower-case letter and so names no property of [Object.prototype]. *)
Definition addIfAbsent (normalizedSerial : string) (order : Order) (line : Line)
    (serialIndex : gmap string SerialRecord) : gmap string SerialRecord :=
  match serialIndex !! normalizedSerial with
  | Some _ => serialIndex
  | None => <[normalizedSerial := newRecord normalizedSerial order line]> serialIndex
  end.

Definition extractFromLines (lines : option (list Line)) (order : Order)
    (serialIndex : gmap string SerialRecord) : gmap string SerialRecord :=
  fold_left
    (λ serialIndex line,
       match serialNumbersOf line with
       | Some serialNumbers =>
           fold_left
             (λ serialIndex serial,
                match truthySerial serial with
                | Some serial => addIfAbsent (normalize serial) order line serialIndex
                | None => serialIndex
                end)
             serialNumbers serialIndex
       | None => serialIndex
       end)
    (default [] lines) serialIndex.

Definition indexOrder (serialIndex : gmap string SerialRecord) (order : Order)
    : gmap string SerialRecord :=
  let serialIndex := extractFromLines (packLines order) order serialIndex in
  let serialIndex := extractFromLines (pickLines order) order serialIndex in
  extractFromLines (lines order) order serialIndex.

(** The index of orders that are all objects. *)
Definition indexOrders (allOrders : list Order) : gmap string SerialRecord :=
  fold_left indexOrder allOrders ∅.

(** The second half of [buildSerialIndex], [for (const order of allOrders)]:
    reading [order.packLines] of a [null] element throws. *)
Fixpoint indexEach (allOrders : list Order) (serialIndex : gmap string SerialRecord)
    : Outcome (gmap string SerialRecord) :=
  match allOrders with
  | [] => Return serialIndex
  | order :: rest =>
      if isNull order then
        Throw "Cannot read properties of null (reading 'packLines')"
      else indexEach rest (indexOrder serialIndex order)
  end.

(** [options?.status || 'Fulfilled'] *)
Definition statusOr (status : option string) : string :=
  match status with
  | Some s => if JsString.truthy s then s else "Fulfilled"
  | None => "Fulfilled"
  end.

Definition buildSerialIndex (fuel : nat) (status : option string)
    (limit : option nat) : M (gmap string SerialRecord) :=
  let status := statusOr status in
  let maxOrders := limit in
  let* allOrders := fetchOrders fuel status maxOrders 0%nat [] in
  lift (indexEach allOrders ∅).

Inductive SearchResult : Type :=
| Found (result : SerialRecord)
| NotFound (serial message : string).

(** The cached value read [as Record<string, any>]: a value that is not an
    index has no serial among its properties. *)
Definition asIndex (v : Value) : gmap string SerialRecord :=
  match v with
  | VIndex index => index
  | _ => ∅
  end.

(** The lookup of [searchSerial] in an index at hand. *)
Definition lookupSerial (serialIndex : gmap string SerialRecord) (serial : string)
    : SearchResult :=
  let normalizedSerial := normalize serial in
  match serialIndex !! normalizedSerial with
  | Some result => Found result
  | None =>
      NotFound normalizedSerial
        ("Serial number not found in fulfilled sales orders. " ++
         "Check Airtable for authoritative serial number data.")
  end.

Definition searchSerial (fuel : nat) (serial : string) : M SearchResult :=
  let cacheKey := "serial_index" in
  let* bypassCache := readCacheDisabled in
  let* cached :=
    getOrFetch cacheKey
      (let* index := buildSerialIndex fuel None None in ret (VIndex index))
      TTL.HOUR bypassCache in
  ret (lookupSerial (asIndex cached) serial).

End Client.
End Client.

(** ** The read-modify-write commands of [scripts/cli.ts] *)

Module Cli.
Section Cli.
Context `{Env}.

(** [v.name] for a fetched value [v]; reading a field of [null] throws. *)
Definition field (name : string) (v : Value) : Outcome Json :=
  match v with
  | VJson JNull => Throw "Cannot read properties of null"
  | VJson j => Return (Js.prop name j)
  | _ => Return JNull
  end.

(** An optional string option of a command, [undefined] when absent. *)
Definition optional (o : option string) : Json :=
  match o with
  | Some s => JStr s
  | None => JNull
  end.

(** [given || current.name]: the field is read only when [given] is falsy. *)
Definition orField (given : option string) (name : string) (current : Value)
    : Outcome Json :=
  match given with
  | Some s => if JsString.truthy s then Return (JStr s) else field name current
  | None => field name current
  end.

(** The handler of [update-product]. *)
Definition update_product (id : string) (name sku description : option string)
    (cost price : Json) : M Value :=
  Client.disableCache ;;;
  let* current := Client.getProduct id None in
  Client.enableCache ;;;
  let* name := lift (orField name "name" current) in
  let* timestamp := lift (field "timestamp" current) in
  Client.upsertProduct
    (JObj [("id", JStr id); ("name", name); ("sku", optional sku);
           ("description", optional description); ("cost", cost);
           ("defaultPrice", price); ("timestamp", timestamp)]).

(** [[...existingItems, item]] *)
Definition spreadWith (existingItems item : Json) : Outcome Json :=
  match existingItems with
  | JArr items => Return (JArr (items ++ [item]))
  | JStr s => Return (JArr (map JStr (JsString.codePoints s) ++ [item]))
  | _ => Throw "existingItems is not iterable"
  end.

(** The handler of [add-po-item]. *)
Definition add_po_item (purchaseOrderId productId : string) (quantity : Z)
    (unitCost : Json) : M Value :=
  Client.disableCache ;;;
  let* currentPO := Client.getPurchaseOrder purchaseOrderId (Some ["lines"]) in
  Client.enableCache ;;;
  let* lines := lift (field "lines" currentPO) in
  let existingItems := Js.or lines (JArr []) in
  let* vendorId := lift (field "vendorId" currentPO) in
  let* items :=
    lift (spreadWith existingItems
            (JObj [("productId", JStr productId); ("quantity", JNum quantity);
                   ("unitCost", unitCost)])) in
  let* timestamp := lift (field "timestamp" currentPO) in
  Client.upsertPurchaseOrder
    (JObj [("id", JStr purchaseOrderId); ("vendorId", vendorId);
           ("items", items); ("timestamp", timestamp)]).

(** [lines.map(callback)], the callback being [poLineToItem]. *)
Fixpoint mapLines (lines : list Json) : Outcome (list Json) :=
  match lines with
  | [] => Return []
  | line :: rest =>
      match poLineToItem line with
      | Return item =>
          match mapLines rest with
          | Return items => Return (item :: items)
          | failed => failed
          end
      | Throw message => Throw message
      | Diverge => Diverge
      end
  end.

(** [(currentPO.lines || []).map(...)] *)
Definition itemsOf (lines : Json) : Outcome Json :=
  match Js.or lines (JArr []) with
  | JArr items =>
      match mapLines items with
      | Return items => Return (JArr items)
      | Throw message => Throw message
      | Diverge => Diverge
      end
  | _ => Throw "(currentPO.lines || []).map is not a function"
  end.

(** [remarks !== undefined ? remarks : currentPO.orderRemarks] *)
Definition definedOrField (given : option string) (name : string) (current : Value)
    : Outcome Json :=
  match given with
  | Some s => Return (JStr s)
  | None => field name current
  end.

(** The handler of [update-purchase-order]. *)
Definition update_purchase_order (id : string)
    (remarks orderDate expectedDate carrier currency : option string) : M Value :=
  Client.disableCache ;;;
  let* currentPO := Client.getPurchaseOrder id (Some ["lines"]) in
  Client.enableCache ;;;
  let* lines := lift (field "lines" currentPO) in
  let* existingItems := lift (itemsOf lines) in
  let* vendorId := lift (field "vendorId" currentPO) in
  let* remarks := lift (definedOrField remarks "orderRemarks" currentPO) in
  let* orderDate := lift (orField orderDate "orderDate" currentPO) in
  let* expectedDate := lift (orField expectedDate "expectedDate" currentPO) in
  let* timestamp := lift (field "timestamp" currentPO) in
  Client.upsertPurchaseOrder
    (JObj [("id", JStr id); ("vendorId", vendorId); ("items", existingItems);
           ("remarks", remarks); ("orderDate", orderDate);
           ("expectedDate", expectedDate); ("currencyCode", optional currency);
           ("timestamp", timestamp)]).

End Cli.
End Cli.

(** ** More of the client: product-based serials, purchase-order serials,
    serial listing, vendors *)

(** JavaScript on JSON-like values, for the methods that read their documents
    field by field. *)
Module JsValue.

(** Sequencing of steps that may throw. *)
Definition andThen {A B} (o : Outcome A) (k : A → Outcome B) : Outcome B :=
  match o with
  | Return a => k a
  | Throw message => Throw message
  | Diverge => Diverge
  end.

(** [j.name]; reading a property of [null] or [undefined] throws. *)
Definition member (name : string) (j : Json) : Outcome Json :=
  match j with
  | JNull => Throw "Cannot read properties of null"
  | _ => Return (Js.prop name j)
  end.

(** [j?.name] *)
Definition optionalMember (name : string) (j : Json) : Json :=
  match j with
  | JNull => JNull
  | _ => Js.prop name j
  end.

(** The values [for (const x of j)] visits: the elements of an array, the
    characters of a string; anything else is not iterable. *)
Definition iterate (j : Json) : Outcome (list Json) :=
  match j with
  | JArr items => Return items
  | JStr s => Return (map JStr (JsString.codePoints s))
  | _ => Throw "value is not iterable"
  end.

(** [j.trim().toUpperCase()] *)
Definition trimUpper (j : Json) : Outcome string :=
  match j with
  | JStr s => Return (Client.normalize s)
  | JNull => Throw "Cannot read properties of undefined (reading 'trim')"
  | _ => Throw "trim is not a function"
  end.

(** [object[key] = v] on the own properties of an object: an existing
    property keeps its place, a new one goes last (array-index keys, which
    JavaScript enumerates first, aside: only lookups are stated). *)
Fixpoint assign (key : string) (v : Json) (fields : list (string * Json))
    : list (string * Json) :=
  match fields with
  | [] => [(key, v)]
  | (k, old) :: rest =>
      if String.eqb k key then (k, v) :: rest else (k, old) :: assign key v rest
  end.

(** [a === s] for a string [s] *)
Definition strictEqualString (a : Json) (s : string) : bool :=
  match a with
  | JStr t => String.eqb t s
  | _ => false
  end.

End JsValue.

Module ClientMore.
Section ClientMore.
Context `{Env}.

(** *** Product-based serial index *)

(** [options?.maxProducts || 100] *)
Definition maxProductsOr (maxProducts : option nat) : nat :=
  match maxProducts with
  | Some (S n) => S n
  | _ => 100
  end.

(** The entry [buildSerialIndexFromProducts] writes for one element of
    [result.serials]. *)
Definition productEntry (normalizedSerial : string) (serial : Json) : Json :=
  JObj [("serial", JStr normalizedSerial);
        ("productId", Js.prop "productId" serial);
        ("productName", Js.prop "productName" serial);
        ("locationId", Js.prop "locationId" serial);
        ("quantityOnHand", Js.prop "quantityOnHand" serial);
        ("sublocation", Js.prop "sublocation" serial);
        ("inStock", Js.prop "inStock" serial)].

(** The loop of [buildSerialIndexFromProducts] over the elements still to
    visit. *)
Fixpoint indexSerials (serials : list Json) (serialIndex : list (string * Json))
    : Outcome (list (string * Json)) :=
  match serials with
  | [] => Return serialIndex
  | serial :: rest =>
      JsValue.andThen (JsValue.member "serial" serial) (λ raw,
      JsValue.andThen (JsValue.trimUpper raw) (λ normalizedSerial,
      indexSerials rest
        (JsValue.assign normalizedSerial (productEntry normalizedSerial serial)
           serialIndex)))
  end.

(** The body of [buildSerialIndexFromProducts] once the service has
    answered; the index is a plain object, here its own properties. *)
Definition productIndexOf (result : Value) : Outcome (list (string * Json)) :=
  JsValue.andThen (Cli.field "serials" result) (λ serials,
  JsValue.andThen (JsValue.iterate (Js.or serials (JArr []))) (λ serials,
  indexSerials serials [])).

Definition buildSerialIndexFromProducts (maxProducts : option nat)
    : M (list (string * Json)) :=
  let* result :=
    Client.callTool "list_all_serials"
      (JObj [("maxProducts", JNum (Z.of_nat (maxProductsOr maxProducts)))]) in
  lift (productIndexOf result).

(** The cached value read [as Record<string, any>]: the object the builder
    returned; a value that is not an object has no serial among its
    properties. *)
Definition asProductIndex (v : Value) : list (string * Json) :=
  match v with
  | VJson (JObj fields) => fields
  | _ => []
  end.

(** [{ found: true, ...result }] for an entry of the index. *)
Definition foundWith (result : Json) : Json :=
  match result with
  | JObj fields =>
      JObj (fold_left (λ acc kv, JsValue.assign kv.1 kv.2 acc) fields
              [("found", JBool true)])
  | _ => JObj [("found", JBool true)]
  end.

(** The lookup of [searchSerialByProduct] in an index at hand. *)
Definition lookupProductSerial (serialIndex : list (string * Json)) (serial : string)
    : Json :=
  let normalizedSerial := Client.normalize serial in
  let result := Js.assoc normalizedSerial serialIndex in
  if Js.truthy result then foundWith result
  else
    JObj [("found", JBool false);
          ("serial", JStr normalizedSerial);
          ("message",
           JStr ("Serial number not found in product inventory. " ++
                 "May not exist or may be in a non-serialized product."))].

Definition searchSerialByProduct (serial : string) : M Json :=
  let cacheKey := "serial_index_products" in
  let* bypassCache := Client.readCacheDisabled in
  let* cached :=
    getOrFetch cacheKey
      (let* index := buildSerialIndexFromProducts None in ret (VJson (JObj index)))
      TTL.FIFTEEN_MINUTES bypassCache in
  ret (lookupProductSerial (asProductIndex cached) serial).

(** *** Serial numbers of one purchase order *)

(** An element of the [serials] array of [getPurchaseOrderSerials]. *)
Record PurchaseSerial : Type := {
  pos_serial : Json;
  pos_productId : Json;
  lineId : Json }.

Record PurchaseOrderSerials : Type := {
  purchaseOrderId : Json;
  po_orderNumber : Json;
  po_orderDate : Json;
  po_status : Json;
  po_serialCount : nat;
  po_serials : list PurchaseSerial }.

(** The inner loop: every element of [serialNumbers] is pushed as it is. *)
Definition serialsOfLine (line : Json) : Outcome (list PurchaseSerial) :=
  JsValue.andThen (JsValue.member "quantity" line) (λ quantity,
  let serialNumbers :=
    Js.or (JsValue.optionalMember "serialNumbers" quantity) (JArr []) in
  JsValue.andThen (JsValue.iterate serialNumbers) (λ serialNumbers,
  Return (map (λ serial, {| pos_serial := serial;
                            pos_productId := Js.prop "productId" line;
                            lineId := Js.prop "purchaseOrderLineId" line |})
              serialNumbers))).

(** The outer loop, over the lines still to visit. *)
Fixpoint serialsOfLines (lines : list Json) (serials : list PurchaseSerial)
    : Outcome (list PurchaseSerial) :=
  match lines with
  | [] => Return serials
  | line :: rest =>
      JsValue.andThen (serialsOfLine line) (λ pushed,
      serialsOfLines rest (serials ++ pushed)%list)
  end.

(** The body of [getPurchaseOrderSerials] once the order is fetched. *)
Definition purchaseSerialsOf (order : Value) : Outcome PurchaseOrderSerials :=
  JsValue.andThen (Cli.field "lines" order) (λ lines,
  JsValue.andThen (JsValue.iterate (Js.or lines (JArr []))) (λ lines,
  JsValue.andThen (serialsOfLines lines []) (λ serials,
  JsValue.andThen (Cli.field "purchaseOrderId" order) (λ id,
  JsValue.andThen (Cli.field "orderNumber" order) (λ number,
  JsValue.andThen (Cli.field "orderDate" order) (λ date,
  JsValue.andThen (Cli.field "inventoryStatus" order) (λ status,
  Return {| purchaseOrderId := id; po_orderNumber := number;
            po_orderDate := date; po_status := status;
            po_serialCount := List.length serials;
            po_serials := serials |}))))))).

Definition getPurchaseOrderSerials (orderId : string) : M PurchaseOrderSerials :=
  let* order := Client.getPurchaseOrder orderId (Some ["lines"]) in
  lift (purchaseSerialsOf order).

(** *** Vendors *)

Definition getVendor (vendorId : string) : M Value :=
  Client.callTool "get_vendor" (JObj [("vendorId", JStr vendorId)]).

End ClientMore.

(** *** Listing the order-based index *)

Section ListSerials.
Context `{Env}.

(** [Object.values(serialIndex)]: the entries in the order in which the
    object enumerates its properties, which the map of the index does not
    record. *)
Variable values : gmap string SerialRecord → list SerialRecord.

Record SerialListing : Type := {
  count : nat;
  totalInIndex : nat;
  listed : list SerialRecord }.

(** The body of [listSerials] once the index is at hand. *)
Definition listingOf (serialIndex : gmap string SerialRecord)
    (limit : option nat) (productId : option string) : SerialListing :=
  let serials := values serialIndex in
  let serials :=
    match productId with
    | Some id =>
        if JsString.truthy id
        then List.filter (λ v, JsValue.strictEqualString (sr_productId v) id) serials
        else serials
    | None => serials
    end in
  let serials :=
    match limit with
    | Some (S n) =>
        if (S n <? List.length serials)%nat then firstn (S n) serials else serials
    | _ => serials
    end in
  {| count := List.length serials;
     totalInIndex := size serialIndex;
     listed := serials |}.

Definition listSerials (fuel : nat) (limit : option nat) (productId : option string)
    : M SerialListing :=
  let cacheKey := "serial_index" in
  let* bypassCache := Client.readCacheDisabled in
  let* cached :=
    getOrFetch cacheKey
      (let* index := Client.buildSerialIndex fuel None None in ret (VIndex index))
      TTL.HOUR bypassCache in
  ret (listingOf (Client.asIndex cached) limit productId).

End ListSerials.
End ClientMore.

(** ** More commands of [scripts/cli.ts] *)

Module CliMore.
Section CliMore.
Context `{Env}.

(** [JSON.parse] on a command-line string: the plain JSON value, or the
    [SyntaxError] it throws. *)
Variable parseArgument : string → Outcome Json.

(** A boolean option of a command, [undefined] when absent. *)
Definition flag (o : option bool) : Json :=
  match o with
  | Some b => JBool b
  | None => JNull
  end.

(** Truthiness of an optional string and of an optional boolean. *)
Definition given (o : option string) : bool :=
  match o with
  | Some s => JsString.truthy s
  | None => false
  end.

Definition set (o : option bool) : bool :=
  match o with
  | Some b => b
  | None => false
  end.

(** [s ? JSON.parse(s) : undefined] *)
Definition parsedIfGiven (o : option string) : Outcome Json :=
  match o with
  | Some s => if JsString.truthy s then parseArgument s else Return JNull
  | None => Return JNull
  end.

(** [!vendor] is [false] for every value but the falsy JSON scalars. *)
Definition truthyValue (v : Value) : bool :=
  match v with
  | VJson j => Js.truthy j
  | _ => true
  end.

(** The handler of [update-vendor]. *)
Definition update_vendor (id : string) (name email phone website : option string)
    : M Value :=
  let* vendor := ClientMore.getVendor id in
  if negb (truthyValue vendor) then throw ("Vendor " ++ id ++ " not found")
  else
    let* name := lift (Cli.orField name "name" vendor) in
    let* timestamp := lift (Cli.field "timestamp" vendor) in
    Client.upsertVendor
      (JObj [("id", JStr id); ("name", name); ("email", Cli.optional email);
             ("phone", Cli.optional phone); ("website", Cli.optional website);
             ("timestamp", timestamp)]).

Definition quote : string := String "034"%char EmptyString.

Definition invalidItems : string :=
  "Invalid items JSON. Format: [{" ++ quote ++ "productId" ++ quote ++ ":" ++
  quote ++ "..." ++ quote ++ ", " ++ quote ++ "quantity" ++ quote ++ ":5}]".

(** The handler of [create-purchase-order]; any failure of [JSON.parse] is
    caught and replaced by the usage message. *)
Definition create_purchase_order (vendorId : string)
    (orderNumber orderDate expectedDate locationId : option string)
    (items : string) (currency remarks : option string) : M Value :=
  match parseArgument items with
  | Return parsedItems =>
      Client.upsertPurchaseOrder
        (JObj [("vendorId", JStr vendorId);
               ("orderNumber", Cli.optional orderNumber);
               ("orderDate", Cli.optional orderDate);
               ("expectedDate", Cli.optional expectedDate);
               ("locationId", Cli.optional locationId);
               ("items", parsedItems);
               ("currencyCode", Cli.optional currency);
               ("remarks", Cli.optional remarks)])
  | _ => throw invalidItems
  end.

(** The handler of [receive-po-items]. *)
Definition receive_po_items (purchaseOrderId : string) (receiveAll : option bool)
    (items : option string) (allowOverReceive : option bool) : M Value :=
  if negb (set receiveAll) && negb (given items) then
    throw "Provide --receiveAll=true or --items=[...]"
  else if set receiveAll && given items then
    throw "Cannot use both --receiveAll and --items"
  else
    let* parsedItems := lift (parsedIfGiven items) in
    Client.receivePurchaseOrder
      (JObj [("purchaseOrderId", JStr purchaseOrderId);
             ("receiveAll", flag receiveAll);
             ("items", parsedItems);
             ("allowOverReceive", flag allowOverReceive)]).

(** [[receiveLineIds, items, unreceiveAll].filter(Boolean).length] *)
Definition modes (receiveLineIds items : option string) (unreceiveAll : option bool)
    : nat :=
  List.length (List.filter (λ b : bool, b)
                 [given receiveLineIds; given items; set unreceiveAll]).

(** The handler of [unreceive-po-items]. *)
Definition unreceive_po_items (purchaseOrderId : string)
    (receiveLineIds items : option string) (unreceiveAll dryRun : option bool)
    : M Value :=
  let modes := modes receiveLineIds items unreceiveAll in
  if (modes =? 0)%nat then
    throw "Provide --receiveLineIds, --items, or --unreceiveAll"
  else if (1 <? modes)%nat then
    throw "Use only one of --receiveLineIds, --items, or --unreceiveAll"
  else
    let* parsedIds := lift (parsedIfGiven receiveLineIds) in
    let* parsedItems := lift (parsedIfGiven items) in
    Client.unreceivePurchaseOrder
      (JObj [("purchaseOrderId", JStr purchaseOrderId);
             ("receiveLineIds", parsedIds);
             ("items", parsedItems);
             ("unreceiveAll", flag unreceiveAll);
             ("dryRun", flag dryRun)]).

(** The handler of [build-serial-index]: the index is built and counted. *)
Definition build_serial_index (fuel : nat) (limit : option nat) : M nat :=
  let* serialIndex := Client.buildSerialIndex fuel None limit in
  ret (size serialIndex).

End CliMore.
End CliMore.

(** ** Vocabulary of the statements *)

(** A code point with all its bytes, and one the end of the string has
    clipped. *)
Definition complete (t : string) : bool :=
  match t with
  | String a _ => Nat.eqb (String.length t) (JsString.width a)
  | EmptyString => false
  end.

Definition clipped (t : string) : Prop :=
  match t with
  | String a _ => (String.length t < JsString.width a)%nat
  | EmptyString => False
  end.

(** The lists [JsString.codePoints] produces: complete code points, the
    last one possibly clipped. *)
Inductive tokens : list string → Prop :=
| tokens_nil : tokens []
| tokens_clipped t : clipped t → tokens [t]
| tokens_cons t l : complete t = true → tokens l → tokens (t :: l).

(** What is checked of every line of the table [JsString.upperCase]: the
    replacement is not empty, consists of complete code points that
    [JsString.upper] leaves alone and that are no white space, and the code
    point replaced is no white space. *)
Definition upperChecked (kv : N * list N) : bool :=
  let r := JsString.join (map JsString.utf8 kv.2) in
  JsString.truthy r
  && forallb (λ u, complete u && String.eqb (JsString.upper u) u
                   && negb (JsString.isWhiteSpace u)) (JsString.codePoints r)
  && negb (existsb (N.eqb kv.1) JsString.whiteSpace).

(** The code points of the upper-case form of a list of code points. *)
Definition spread (l : list string) : list string :=
  flat_map (λ t, JsString.codePoints (JsString.upper t)) l.

(** One serial number met while an order is scanned: the string as the
    document has it, the order and line it sits on, and the array it came
    from. *)
Record Occurrence : Type := {
  occ_serial : string;
  occ_order : Order;
  occ_line : Line;
  occ_source : string }.

Definition lineOccurrences (order : Order) (source : string) (line : Line)
    : list Occurrence :=
  match Client.serialNumbersOf line with
  | Some serialNumbers =>
      map (λ s, {| occ_serial := s; occ_order := order; occ_line := line;
                   occ_source := source |})
          (omap Client.truthySerial serialNumbers)
  | None => []
  end.

Definition sourceOccurrences (order : Order) (source : string)
    (lines : option (list Line)) : list Occurrence :=
  flat_map (lineOccurrences order source) (default [] lines).

(** Processing order within an order: pack lines, then pick lines, then the
    raw order lines. *)
Definition orderOccurrences (order : Order) : list Occurrence :=
  (sourceOccurrences order "pack" (packLines order) ++
   sourceOccurrences order "pick" (pickLines order) ++
   sourceOccurrences order "order" (lines order))%list.

(** Processing order across orders: the order of [allOrders]. *)
Definition occurrences (allOrders : list Order) : list Occurrence :=
  flat_map orderOccurrences allOrders.

(** The first occurrence whose normalized serial is [key]. *)
Definition firstNormalized (key : string) (occs : list Occurrence) : option Occurrence :=
  List.find (λ o, String.eqb (Client.normalize (occ_serial o)) key) occs.

(** The first occurrence of the very string [raw]. *)
Definition firstRaw (raw : string) (occs : list Occurrence) : option Occurrence :=
  List.find (λ o, String.eqb (occ_serial o) raw) occs.

(** All occurrences of the very string [raw]. *)
Definition allRaw (raw : string) (occs : list Occurrence) : list Occurrence :=
  List.filter (λ o, String.eqb (occ_serial o) raw) occs.

(** The index entry an occurrence gives rise to. *)
Definition recordOf (o : Occurrence) : SerialRecord :=
  Client.newRecord (Client.normalize (occ_serial o)) (occ_order o) (occ_line o).

(** Processing one occurrence, as the innermost loop body of
    [buildSerialIndex] does. *)
Definition addOccurrence (serialIndex : gmap string SerialRecord) (o : Occurrence)
    : gmap string SerialRecord :=
  Client.addIfAbsent (Client.normalize (occ_serial o)) (occ_order o) (occ_line o)
    serialIndex.

(** Processing one occurrence, as the innermost loop body of
    [getSalesOrderSerials] does. *)
Definition recordOccurrence (serialMap : list Client.OrderSerial) (o : Occurrence)
    : list Client.OrderSerial :=
  Client.record (occ_serial o) (occ_line o) (occ_source o) serialMap.

(** The record of [raw] in the array [getSalesOrderSerials] returns. *)
Definition entryOf (raw : string) (found : list Client.OrderSerial)
    : option Client.OrderSerial :=
  List.find (λ r, String.eqb (Client.os_serial r) raw) found.

(** What the occurrences of the very string [raw] amount to: the product of
    the first one, the sources of all of them in order. *)
Definition summary (raw : string) (occs : list Occurrence) : option Client.OrderSerial :=
  (λ o, {| Client.os_serial := raw;
           Client.os_productId := productId (occ_line o);
           Client.sources := map occ_source (allRaw raw occs) |})
  <$> firstRaw raw occs.

(** [e] after [sources.push] of each of [more]. *)
Definition pushed (more : list string) (e : Client.OrderSerial) : Client.OrderSerial :=
  {| Client.os_serial := Client.os_serial e;
     Client.os_productId := Client.os_productId e;
     Client.sources := (Client.sources e ++ more)%list |}.

(** Whether [s] is among [keys]. *)
Definition known (keys : list string) (s : string) : bool :=
  existsb (String.eqb s) keys.

(** The distinct strings of a list, in order of first appearance. *)
Fixpoint firstSeen (l : list string) : list string :=
  match l with
  | [] => []
  | s :: rest => s :: List.filter (λ t, negb (String.eqb t s)) (firstSeen rest)
  end.

(** One request of the loop of [buildSerialIndex]: the page at [skip]. *)
Definition requestPage `{Env} (status : string) (skip : nat) : M (list Order) :=
  let* result :=
    Client.callTool "list_sales_orders"
      (JObj [("status", JStr status);
             ("include", Client.strings ["lines"; "pickLines"; "packLines"]);
             ("count", JNum (Z.of_nat Client.pageSize));
             ("skip", JNum (Z.of_nat skip))]) in
  lift (Client.orderListOf result).

(** [paged status skip w pages w'] : from state [w], requesting the pages at
    [skip], [skip + 100], [skip + 200], ... one after the other answers
    [pages] and leaves state [w']; every page before the last is full. *)
Inductive paged `{Env} (status : string) : nat → World → list (list Order) → World → Prop :=
| paged_last skip w page w' :
    requestPage status skip w = (Return page, w') →
    paged status skip w [page] w'
| paged_next skip w page w1 pages w' :
    requestPage status skip w = (Return page, w1) →
    (Client.pageSize ≤ List.length page)%nat →
    paged status (skip + Client.pageSize) w1 pages w' →
    paged status skip w (page :: pages) w'.

(** *** What the documents show

    The serial numbers of sales-order documents, read off the documents
    themselves. *)

(** The serial strings a line shows: the non-empty strings among the
    elements of its [quantity.serialNumbers], when the line has a quantity
    and that is an array. *)
Definition shown (line : Line) : list string :=
  match quantity line with
  | Some {| serialNumbers := Some elements |} =>
      flat_map (λ element, match element with
                           | Some (String c rest) => [String c rest]
                           | _ => []
                           end) elements
  | _ => []
  end.

(** The serials standing in one array of lines of an order, line by line,
    each with where it stands. *)
Definition standing (order : Order) (source : string) (lines : option (list Line))
    : list Occurrence :=
  match lines with
  | Some ls =>
      flat_map (λ line, map (λ s, {| occ_serial := s; occ_order := order;
                                     occ_line := line; occ_source := source |})
                            (shown line)) ls
  | None => []
  end.

(** The serials standing on an order: those of its pack lines, then those of
    its pick lines, then those of its order lines. *)
Definition standingOn (order : Order) : list Occurrence :=
  (standing order "pack" (packLines order) ++
   standing order "pick" (pickLines order) ++
   standing order "order" (lines order))%list.

Definition standingOnAll (orders : list Order) : list Occurrence :=
  flat_map standingOn orders.

(** [carries order s]: the non-empty string [s] is an element of
    [quantity.serialNumbers] of a line among the pack, pick or order lines of
    [order]. *)
Definition carries (order : Order) (s : string) : Prop :=
  s ≠ EmptyString
  ∧ ∃ (ls : list Line) (line : Line) (q : Quantity) (elements : list (option string)),
      (packLines order = Some ls ∨ pickLines order = Some ls ∨ lines order = Some ls)
      ∧ In line ls
      ∧ quantity line = Some q
      ∧ serialNumbers q = Some elements
      ∧ In (Some s) elements.

(** The index entry under [key] for a serial standing where [o] says. *)
Definition entryAt (key : string) (o : Occurrence) : SerialRecord :=
  {| serial := key;
     sr_salesOrderId := salesOrderId (occ_order o);
     sr_orderNumber := orderNumber (occ_order o);
     sr_orderDate := orderDate (occ_order o);
     sr_productId := productId (occ_line o);
     shopifyOrderUrl := if Js.truthy (custom4 (occ_order o))
                        then custom4 (occ_order o) else JNull |}.

(** The entry of the first serial, in reading order, whose trimmed
    upper-cased form is [key]. *)
Definition firstWriter (key : string) (orders : list Order) : option SerialRecord :=
  entryAt key
  <$> List.find (λ o, String.eqb (JsString.toUpperCase (JsString.trim (occ_serial o))) key)
        (standingOnAll orders).

(** The request for the page of [status] orders at [skip]. *)
Definition listRequest (status : string) (skip : nat) : Json :=
  JObj [("status", JStr status);
        ("include", JArr [JStr "lines"; JStr "pickLines"; JStr "packLines"]);
        ("count", JNum 100);
        ("skip", JNum (Z.of_nat skip))].

(** The page the service answers that request with: the orders under [data],
    or the orders of a bare array. *)
Definition pageAt `{Env} (status : string) (skip : nat) : M (list Order) :=
  λ w, match Client.callTool "list_sales_orders" (listRequest status skip) w with
       | (Return (VPage (PageData page)), w') => (Return page, w')
       | (Return (VPage (PageArray page)), w') => (Return page, w')
       | (Return _, w') => (Throw "not a page of orders", w')
       | (Throw message, w') => (Throw message, w')
       | (Diverge, w') => (Diverge, w')
       end.

(** [served status limit pages skip seen w w'] : from state [w], with [seen]
    orders read so far, the service answers the requests at [skip],
    [skip + 100], ... with [pages], one after the other, and is left in
    state [w']. Every page before the last holds at least 100 orders and
    leaves the number of orders read below a positive [limit]; the last page
    holds fewer than 100 orders, or brings the number read up to the
    limit. *)
Fixpoint served `{Env} (status : string) (limit : option nat) (pages : list (list Order))
    (skip seen : nat) (w w' : World) : Prop :=
  match pages with
  | [] => False
  | page :: rest =>
      (pageAt status skip w).1 = Return page
      ∧ match rest with
        | [] =>
            (pageAt status skip w).2 = w'
            ∧ ((List.length page < 100)%nat
               ∨ ∃ cap, limit = Some cap ∧ (0 < cap ≤ seen + List.length page)%nat)
        | _ =>
            (100 ≤ List.length page)%nat
            ∧ (∀ cap, limit = Some cap → cap = 0%nat ∨ (seen + List.length page < cap)%nat)
            ∧ served status limit rest (skip + 100) (seen + List.length page)
                (pageAt status skip w).2 w'
        end
  end.

(** The orders of the pages that are processed: all of them, in the order of
    the pages, when the last page holds fewer than 100 orders; the first
    [limit] of them otherwise. *)
Definition processed (limit : option nat) (pages : list (list Order)) : list Order :=
  if (List.length (List.last pages []) <? 100)%nat then concat pages
  else match limit with
       | Some cap => firstn cap (concat pages)
       | None => concat pages
       end.

(** The write accessors of the client. *)
Inductive WriteOp : Type :=
| CreateStockAdjustment
| CreateStockTransfer
| CreateStockCount
| UpsertProduct
| UpsertVendor
| UpsertPurchaseOrder
| ReceivePurchaseOrder
| UnreceivePurchaseOrder.

Definition perform `{Env} (op : WriteOp) : Json → M Value :=
  match op with
  | CreateStockAdjustment => Client.createStockAdjustment
  | CreateStockTransfer => Client.createStockTransfer
  | CreateStockCount => Client.createStockCount
  | UpsertProduct => Client.upsertProduct
  | UpsertVendor => Client.upsertVendor
  | UpsertPurchaseOrder => Client.upsertPurchaseOrder
  | ReceivePurchaseOrder => Client.receivePurchaseOrder
  | UnreceivePurchaseOrder => Client.unreceivePurchaseOrder
  end.

(** The remote operation a write accessor forwards to. *)
Definition toolOf (op : WriteOp) : string :=
  match op with
  | CreateStockAdjustment => "upsert_stock_adjustment"
  | CreateStockTransfer => "upsert_stock_transfer"
  | CreateStockCount => "upsert_stock_count"
  | UpsertProduct => "upsert_product"
  | UpsertVendor => "upsert_vendor"
  | UpsertPurchaseOrder => "upsert_purchase_order"
  | ReceivePurchaseOrder => "receive_purchase_order"
  | UnreceivePurchaseOrder => "unreceive_purchase_order"
  end.

Definition purchaseAndStock : list RegExp :=
  [Anchored "purchase_orders"; Anchored "purchase_order:"; Anchored "stock"].

(** The patterns a write accessor documents under [@invalidates]. *)
Definition purges (op : WriteOp) (data : Json) : list RegExp :=
  match op with
  | CreateStockAdjustment | CreateStockTransfer | CreateStockCount =>
      [Anchored "stock"]
  | UpsertProduct =>
      [Anchored "products"; Anchored "product:"; Anchored "products_search";
       Anchored "product_bom"; Anchored "bom"]
  | UpsertVendor => [Anchored "vendors"]
  | UpsertPurchaseOrder => [Anchored "purchase_orders"; Anchored "purchase_order:"]
  | ReceivePurchaseOrder => purchaseAndStock
  | UnreceivePurchaseOrder =>
      if Js.truthy (Js.prop "dryRun" data) then [] else purchaseAndStock
  end.

(** The cache after the patterns have been purged one after the other. *)
Definition purged (res : list RegExp) (c : PluginCache) : PluginCache :=
  fold_left (λ c re, (Cache.invalidatePattern re c).2) res c.

(** The part of the process a call of the gateway leaves as it was: the
    cache, the client's flag and the clock. *)
Definition sameCaching `{Env} (w w' : World) : Prop :=
  cache w' = cache w ∧ cacheDisabled w' = cacheDisabled w ∧ now w' = now w.

(** A computation that leaves the two caching switches, the client's
    [cacheDisabled] and the cache's own, as it found them. *)
Definition keepsSwitches `{Env} {A} (m : M A) : Prop :=
  ∀ w, cacheDisabled (m w).2 = cacheDisabled w
       ∧ enabled (cache (m w).2) = enabled (cache w).

(** The message the remote supplies with a result: the text of the first
    text item of its content. *)
Definition suppliedMessage (result : ToolResult) : option string :=
  match List.find (λ c, String.eqb (type c) "text") (content result) with
  | Some c => text c
  | None => None
  end.

(** The three read-modify-write commands, by the accessor that fetches the
    fresh value and by the whole handler. *)
Inductive Flow : Type :=
| UpdateProduct (id : string) (name sku description : option string) (cost price : Json)
| AddPoItem (purchaseOrderId productId : string) (quantity : Z) (unitCost : Json)
| UpdatePurchaseOrder (id : string)
    (remarks orderDate expectedDate carrier currency : option string).

Definition handler `{Env} (f : Flow) : M Value :=
  match f with
  | UpdateProduct id name sku description cost price =>
      Cli.update_product id name sku description cost price
  | AddPoItem purchaseOrderId productId quantity unitCost =>
      Cli.add_po_item purchaseOrderId productId quantity unitCost
  | UpdatePurchaseOrder id remarks orderDate expectedDate carrier currency =>
      Cli.update_purchase_order id remarks orderDate expectedDate carrier currency
  end.

Definition freshFetch `{Env} (f : Flow) : M Value :=
  match f with
  | UpdateProduct id _ _ _ _ _ => Client.getProduct id None
  | AddPoItem purchaseOrderId _ _ _ => Client.getPurchaseOrder purchaseOrderId (Some ["lines"])
  | UpdatePurchaseOrder id _ _ _ _ _ => Client.getPurchaseOrder id (Some ["lines"])
  end.

(** ** Sample processes *)

Module Sample.

(** A remote service that answers from a table and logs every call. *)
Definition scripted (respond : string → Json → ToolResult)
    (parse : string → option Value) : Env :=
  {| Remote := list (string * Json);
     INFLOW_API_KEY := "key";
     INFLOW_COMPANY_ID := "company";
     spawn := λ log, (Return tt, log);
     invoke := λ name args log, (Return (respond name args), (log ++ [(name, args)])%list);
     JSON_parse := parse;
     poLineToItem := Return;
     createCacheKey := λ operation params,
       operation ++ ":" ++
       String.concat ","
         (map (λ kv : string * Json,
                 match kv.2 with JStr s => kv.1 ++ "=" ++ s | _ => kv.1 end)
              params) |}.

Definition emptyCache : PluginCache :=
  {| enabled := true; entries := ∅; hits := 0; misses := 0 |}.

Definition start (E : Env) (r : @Remote E) : @World E :=
  {| connected := false; cacheDisabled := false; cache := emptyCache;
     now := 0; remote := r |}.

Definition textResult (flag : bool) (t : string) : ToolResult :=
  {| isError := flag; content := [{| type := "text"; text := Some t |}] |}.

Definition lineOf (product : string) (sns : list string) : Line :=
  {| productId := JStr product;
     quantity := Some {| serialNumbers := Some (map Some sns) |} |}.

Definition orderOf (id date : string) (pack pick raw : option (list Line)) : Order :=
  {| isNull := false;
     salesOrderId := JStr id; orderNumber := JStr ("SO-" ++ id);
     orderDate := JStr date; inventoryStatus := JStr "Fulfilled";
     custom4 := JNull; packLines := pack; pickLines := pick; lines := raw |}.

(** Three fulfilled orders, each with one serial on a pack line. *)
Definition threeOrders : list Order :=
  [orderOf "1" "2024-03-01" (Some [lineOf "p1" ["sn-a"]]) None None;
   orderOf "2" "2024-02-01" (Some [lineOf "p2" ["sn-b"]]) None None;
   orderOf "3" "2024-01-01" (Some [lineOf "p3" ["sn-c"]]) None None].

(** A service holding [threeOrders], which fit in one page. *)
Definition smallShop : Env :=
  scripted (λ _ _, textResult false "orders")
           (λ _, Some (VPage (PageArray threeOrders))).

(** A service holding the given orders, which fit in one page. *)
Definition shopOf (orders : list Order) : Env :=
  scripted (λ _ _, textResult false "orders")
           (λ _, Some (VPage (PageData orders))).

(** A service whose every operation reports an error. *)
Definition failing : Env :=
  scripted (λ _ _, textResult true "remote failure") (λ _, None).

(** A service whose answers are not JSON. *)
Definition garbled : Env :=
  scripted (λ _ _, textResult false "not json") (λ _, None).

Definition pallet : Value :=
  VJson (JObj [("name", JStr "Pallet"); ("timestamp", JStr "t0")]).

(** A service that answers every operation with the same JSON object. *)
Definition steady : Env :=
  scripted (λ _ _, textResult false "{}") (λ _, Some pallet).

(** A producer that asks the service, and one that must not run. *)
Definition fetchA : @M steady Value := @Client.callTool steady "get_product" (JObj []).

Definition fetchB : @M steady Value := @throw steady Value "fetchB was invoked".

(** The process after a first [getOrFetch("p1", fetchA, {ttl: 300})]. *)
Definition afterFirst : @World steady :=
  (@getOrFetch steady "p1" fetchA 300 false (start steady [])).2.

(** An order on which one serial is written in two ways. *)
Definition mixedCase : Order :=
  orderOf "7" "2024-05-05"
    (Some [lineOf "p1" [" abc123 "]])
    (Some [lineOf "p2" ["ABC123"; " abc123 "]])
    None.

(** Two orders carrying the same serial, the later-dated one first. *)
Definition twoCopies : list Order :=
  [orderOf "late" "2024-12-31" None (Some [lineOf "p1" ["abc123"]]) None;
   orderOf "early" "2023-01-01" (Some [lineOf "p2" ["ABC123 "]]) None None].

Definition datedShop : Env := shopOf twoCopies.

(** A service that answers every operation with the order [mixedCase]. *)
Definition oneOrder : Env :=
  scripted (λ _ _, textResult false "order") (λ _, Some (VOrder mixedCase)).

Definition decimal (n : nat) : string := NilEmpty.string_of_uint (Nat.to_uint n).

(** [count] orders numbered from [first], each with a serial of its own on a
    pack line. *)
Definition numbered (first count : nat) : list Order :=
  map (λ n, orderOf (decimal n) "2024-06-01"
              (Some [lineOf ("p" ++ decimal n) ["sn-" ++ decimal n]]) None None)
      (seq first count).

(** A service that holds pages of orders and answers the request at
    [skip: 100 * i] with the [i]-th of them. *)
Definition pagedShop (pages : list (list Order)) : Env :=
  scripted
    (λ _ args, textResult false
                 match Js.prop "skip" args with
                 | JNum skip => decimal (Z.to_nat skip / 100)
                 | _ => "0"
                 end)
    (λ t, (λ numberedPage : nat * list Order, VPage (PageData numberedPage.2))
          <$> List.find (λ numberedPage : nat * list Order,
                           String.eqb (decimal numberedPage.1) t)
                (combine (seq 0 (List.length pages)) pages)).

(** A full page, and after it a later-dated order that carries, in another
    spelling, the serial of order 5 of the full page. *)
Definition repeated : list (list Order) :=
  [numbered 0 100;
   [orderOf "late" "2030-01-01" (Some [lineOf "q" [" SN-5 "]]) None None]].

(** Two full pages and a short one. *)
Definition threePages : list (list Order) :=
  [numbered 0 100; numbered 100 100; numbered 200 7].

End Sample.

(** ** Vocabulary of the further statements *)

(** A well-formed element of the answer of [list_all_serials]. *)
Record ListedSerial : Type := {
  ls_serial : string;
  ls_productId : Json;
  ls_productName : Json;
  ls_locationId : Json;
  ls_quantityOnHand : Json;
  ls_sublocation : Json;
  ls_inStock : Json }.

Definition listedJson (p : ListedSerial) : Json :=
  JObj [("serial", JStr (ls_serial p));
        ("productId", ls_productId p);
        ("productName", ls_productName p);
        ("locationId", ls_locationId p);
        ("quantityOnHand", ls_quantityOnHand p);
        ("sublocation", ls_sublocation p);
        ("inStock", ls_inStock p)].

(** A well-formed answer of [list_all_serials]. *)
Definition listingJson (l : list ListedSerial) : Value :=
  VJson (JObj [("serials", JArr (map listedJson l))]).

(** The own properties of the index entry of a listed serial. *)
Definition listedFields (p : ListedSerial) : list (string * Json) :=
  [("serial", JStr (Client.normalize (ls_serial p)));
   ("productId", ls_productId p);
   ("productName", ls_productName p);
   ("locationId", ls_locationId p);
   ("quantityOnHand", ls_quantityOnHand p);
   ("sublocation", ls_sublocation p);
   ("inStock", ls_inStock p)].

(** The last listed serial that normalizes to [key]. *)
Definition lastListed (key : string) (l : list ListedSerial) : option ListedSerial :=
  List.find (λ p, String.eqb (Client.normalize (ls_serial p)) key) (rev l).

(** A well-formed line of a purchase order; [pl_serialNumbers] is [None]
    when the line has no [quantity]. *)
Record PurchaseLine : Type := {
  pl_productId : Json;
  pl_lineId : Json;
  pl_serialNumbers : option (list Json) }.

Definition purchaseLineJson (l : PurchaseLine) : Json :=
  JObj ([("productId", pl_productId l); ("purchaseOrderLineId", pl_lineId l)] ++
        match pl_serialNumbers l with
        | Some sns => [("quantity", JObj [("serialNumbers", JArr sns)])]
        | None => []
        end)%list.

(** A well-formed purchase order; [lines] is [None] when the document has
    no [lines]. *)
Definition purchaseOrderJson (id number date status : Json)
    (lines : option (list PurchaseLine)) : Value :=
  VJson (JObj ([("purchaseOrderId", id); ("orderNumber", number);
                ("orderDate", date); ("inventoryStatus", status)] ++
               match lines with
               | Some ls => [("lines", JArr (map purchaseLineJson ls))]
               | None => []
               end)%list).

(** What one line contributes to [getPurchaseOrderSerials]. *)
Definition pushedOf (l : PurchaseLine) : list ClientMore.PurchaseSerial :=
  map (λ s, {| ClientMore.pos_serial := s;
               ClientMore.pos_productId := pl_productId l;
               ClientMore.lineId := pl_lineId l |})
      (default [] (pl_serialNumbers l)).

(** Whether one of the patterns matches [key]. *)
Definition purgedBy (res : list RegExp) (key : string) : bool :=
  existsb (λ re, test re key) res.

(** Keys no write accessor touches: the serial caches and the reference
    lists, by the prefix the accessors give them. *)
Definition keptPrefixes : list string :=
  ["serial_index"; "product_serials"; "all_serials"; "categories"; "location";
   "adjustment_reasons"; "sales_order"; "customers"].

(** The remote call behind the fetch of a read-modify-write command. *)
Definition freshCall `{Env} (f : Flow) : M Value :=
  match f with
  | UpdateProduct id _ _ _ _ _ =>
      Client.callTool "get_product" (JObj [("productId", JStr id)])
  | AddPoItem purchaseOrderId _ _ _ =>
      Client.callTool "get_purchase_order"
        (JObj [("purchaseOrderId", JStr purchaseOrderId);
               ("include", Client.strings ["lines"])])
  | UpdatePurchaseOrder id _ _ _ _ _ =>
      Client.callTool "get_purchase_order"
        (JObj [("purchaseOrderId", JStr id); ("include", Client.strings ["lines"])])
  end.


Module SampleMore.

(** A process whose environment lacks the API key. *)
Definition noKey : Env :=
  {| Remote := list (string * Json);
     INFLOW_API_KEY := "";
     INFLOW_COMPANY_ID := "company";
     spawn := λ log, (Return tt, log);
     invoke := λ name args log,
       (Return (Sample.textResult false "{}"), (log ++ [(name, args)])%list);
     JSON_parse := λ _, Some Sample.pallet;
     poLineToItem := Return;
     createCacheKey := λ operation _, operation |}.

(** A service that answers with an empty content array. *)
Definition silent : Env :=
  Sample.scripted (λ _ _, {| isError := false; content := [] |}) (λ _, None).

Definition listed (s product : string) : ListedSerial :=
  {| ls_serial := s; ls_productId := JStr product; ls_productName := JNull;
     ls_locationId := JNull; ls_quantityOnHand := JNum 1;
     ls_sublocation := JNull; ls_inStock := JBool true |}.

(** The process of [Sample.datedShop] after a first search has built and
    cached the order-based index. *)
Definition indexed : @World Sample.datedShop :=
  (@Client.searchSerial Sample.datedShop 5 "abc123"
     (Sample.start Sample.datedShop [])).2.

(** One serial listed twice, under two spellings and two products. *)
Definition twiceListed : list ListedSerial := [listed " sn1 " "p1"; listed "SN1" "p2"].

Definition serialShop : Env :=
  Sample.scripted (λ _ _, Sample.textResult false "serials")
                  (λ _, Some (listingJson twiceListed)).

(** A listing whose second element has no [serial]. *)
Definition brokenListing : list Json :=
  [listedJson (listed "a" "p1"); JObj [("productId", JStr "p2")]].

Definition brokenSerialShop : Env :=
  Sample.scripted (λ _ _, Sample.textResult false "serials")
                  (λ _, Some (VJson (JObj [("serials", JArr brokenListing)]))).

(** A purchase order with one line, a serial repeated on it, and a
    [null] among the serials. *)
Definition purchaseLines : list PurchaseLine :=
  [{| pl_productId := JStr "p1"; pl_lineId := JStr "l1";
      pl_serialNumbers := Some [JStr "a"; JStr "a"; JNull] |};
   {| pl_productId := JStr "p2"; pl_lineId := JStr "l2";
      pl_serialNumbers := None |}].

Definition purchaseShop : Env :=
  Sample.scripted (λ _ _, Sample.textResult false "po")
    (λ _, Some (purchaseOrderJson (JStr "po1") (JStr "PO-1") (JStr "2024-01-01")
                  (JStr "Open") (Some purchaseLines))).

(** The process of [Sample.steady] once the stock levels of product [p1]
    and the product [p1] itself have been read, and so cached. *)
Definition warm : @World Sample.steady :=
  (@Client.getProduct Sample.steady "p1" None
     (@Client.getStockLevels Sample.steady (Some "p1")
        (Sample.start Sample.steady [])).2).2.

(** A service whose one page holds an order and a [null]. *)
Definition holed : Env :=
  Sample.pagedShop
    [[Sample.orderOf "1" "2024-06-01" (Some [Sample.lineOf "p1" ["sn-1"]]) None None;
      Client.nullOrder]].

(** The same page delivered as an opaque JSON document. *)
Definition holedJson : Env :=
  Sample.scripted (λ _ _, Sample.textResult false "page")
    (λ _, Some (VJson (JObj [("data", JArr [JObj [("salesOrderId", JStr "1")]; JNull])]))).

(** A service that answers [JSON null] to every operation. *)
Definition nulls : Env :=
  Sample.scripted (λ _ _, Sample.textResult false "null") (λ _, Some (VJson JNull)).

End SampleMore.

(** An equation between closed terms, settled by evaluating both sides on
    the virtual machine. *)
Ltac by_evaluation :=
  lazymatch goal with
  | |- @eq ?A ?a ?b => exact (@eq_refl A a <: @eq A a b)
  end.

(** * Properties *)

(** ** Strings *)

Section StringFacts.
Import JsString.

Lemma width_cases (a : ascii) :
  width a = 1%nat ∨ width a = 2%nat ∨ width a = 3%nat ∨ width a = 4%nat.
Proof.
  unfold width. destruct (_ <? 192)%N; [tauto|].
  destruct (_ <? 224)%N; [tauto|]. destruct (_ <? 240)%N; tauto.
Qed.

Lemma string_length_ind (P : string → Prop) :
  (∀ s, (∀ r, (String.length r < String.length s)%nat → P r) → P s) → ∀ s, P s.
Proof.
  intros step s. remember (String.length s) as n eqn:Hn.
  revert s Hn. induction n as [n IH] using lt_wf_ind. intros s ->.
  apply step. intros r Hr. exact (IH _ Hr r eq_refl).
Qed.

Lemma codePoints_complete (t s : string) :
  complete t = true → codePoints (t ++ s) = t :: codePoints s.
Proof.
  destruct t as [|a t]; [discriminate|]. unfold complete. intros Hlen.
  apply Nat.eqb_eq in Hlen.
  destruct (width_cases a) as [Hw|[Hw|[Hw|Hw]]]; rewrite Hw in Hlen;
    destruct t as [|b [|c [|d [|e t]]]]; try discriminate Hlen;
    simpl; rewrite Hw; reflexivity.
Qed.

Lemma codePoints_clipped (t : string) : clipped t → codePoints t = [t].
Proof.
  destruct t as [|a t]; [intros []|]. unfold clipped.
  destruct (width_cases a) as [Hw|[Hw|[Hw|Hw]]]; rewrite Hw;
    destruct t as [|b [|c [|d [|e t]]]]; simpl; rewrite ?Hw; try reflexivity; lia.
Qed.

(** A string opens with a complete code point, or is clipped short. *)
Lemma codePoints_cases (s : string) :
  s = EmptyString
  ∨ clipped s
  ∨ ∃ t r, s = t ++ r ∧ complete t = true
           ∧ (String.length r < String.length s)%nat.
Proof.
  destruct s as [|a s]; [now left|]. right.
  destruct (width_cases a) as [Hw|[Hw|[Hw|Hw]]].
  - right. exists (String a EmptyString), s. simpl. rewrite Hw. auto.
  - destruct s as [|b s]; [left; simpl; rewrite Hw; simpl; lia|].
    right. exists (String a (String b EmptyString)), s. simpl. rewrite Hw.
    split; [reflexivity|]. split; [reflexivity|lia].
  - destruct s as [|b [|c s]]; [left; simpl; rewrite Hw; simpl; lia..|].
    right. exists (String a (String b (String c EmptyString))), s. simpl. rewrite Hw.
    split; [reflexivity|]. split; [reflexivity|lia].
  - destruct s as [|b [|c [|d s]]]; [left; simpl; rewrite Hw; simpl; lia..|].
    right. exists (String a (String b (String c (String d EmptyString)))), s.
    simpl. rewrite Hw. split; [reflexivity|]. split; [reflexivity|lia].
Qed.

Lemma append_empty (s : string) : s ++ EmptyString = s.
Proof.
  induction s as [|a s IH]; [reflexivity|].
  change (String a (s ++ EmptyString) = String a s). now f_equal.
Qed.

Lemma append_assoc (s t u : string) : (s ++ t) ++ u = s ++ (t ++ u).
Proof.
  induction s as [|a s IH]; [reflexivity|].
  change (String a ((s ++ t) ++ u) = String a (s ++ (t ++ u))). now f_equal.
Qed.

Lemma join_codePoints (s : string) : join (codePoints s) = s.
Proof.
  induction s as [s IH] using string_length_ind.
  destruct (codePoints_cases s) as [->|[Hclipped|(t & r & -> & Ht & Hr)]].
  - reflexivity.
  - rewrite (codePoints_clipped _ Hclipped). simpl. apply append_empty.
  - rewrite (codePoints_complete _ _ Ht). simpl. now rewrite (IH _ Hr).
Qed.

Lemma codePoints_tokens (s : string) : tokens (codePoints s).
Proof.
  induction s as [s IH] using string_length_ind.
  destruct (codePoints_cases s) as [->|[Hclipped|(t & r & -> & Ht & Hr)]].
  - constructor.
  - rewrite (codePoints_clipped _ Hclipped). now constructor.
  - rewrite (codePoints_complete _ _ Ht). constructor; [exact Ht|exact (IH _ Hr)].
Qed.

Lemma codePoints_join (l : list string) : tokens l → codePoints (join l) = l.
Proof.
  induction 1 as [|t Hclipped|t l Ht Hl IH]; simpl.
  - reflexivity.
  - rewrite append_empty. now apply codePoints_clipped.
  - now rewrite (codePoints_complete _ _ Ht), IH.
Qed.

Lemma codePoints_append (l : list string) (s : string) :
  forallb complete l = true → codePoints (join l ++ s) = (l ++ codePoints s)%list.
Proof.
  induction l as [|t l IH]; simpl; [reflexivity|].
  intros [Ht Hl]%andb_prop. rewrite append_assoc.
  now rewrite (codePoints_complete _ _ Ht), (IH Hl).
Qed.

Lemma join_app (l k : list string) : join (l ++ k) = join l ++ join k.
Proof.
  induction l as [|t l IH]; simpl; [reflexivity|]. now rewrite IH, append_assoc.
Qed.

Lemma upperChar_idempotent (c : ascii) : upperChar (upperChar c) = upperChar c.
Proof. destruct c as [[] [] [] [] [] [] [] []]; reflexivity. Qed.

Lemma upperChar_width (c : ascii) : width (upperChar c) = width c.
Proof. destruct c as [[] [] [] [] [] [] [] []]; reflexivity. Qed.

Lemma isWhiteSpace_upperChar (c : ascii) :
  isWhiteSpace (String (upperChar c) EmptyString) = isWhiteSpace (String c EmptyString).
Proof. destruct c as [[] [] [] [] [] [] [] []]; reflexivity. Qed.

Lemma isWhiteSpace_changed (c : ascii) :
  isWhiteSpace (String c EmptyString) = true → upperChar c = c.
Proof. destruct c as [[] [] [] [] [] [] [] []]; (discriminate || reflexivity). Qed.

Lemma upperCase_checked : forallb upperChecked upperCase = true.
Proof. vm_compute. reflexivity. Qed.

Lemma mapped_In (n : N) (table : list (N * list N)) (v : list N) :
  mapped n table = Some v → In (n, v) table.
Proof.
  induction table as [|[k u] table IH]; simpl; [discriminate|].
  destruct (N.eqb_spec k n) as [->|]; [intros [= ->]; now left|right; auto].
Qed.

Lemma mapped_checked (n : N) (v : list N) :
  mapped n upperCase = Some v → upperChecked (n, v) = true.
Proof.
  intros Hin%mapped_In. pose proof upperCase_checked as Hall.
  rewrite forallb_forall in Hall. exact (Hall _ Hin).
Qed.

(** What [upper] makes of one code point: code points that [upper] leaves
    alone, white space exactly when the code point was. *)
Lemma upper_spec (t : string) :
  complete t = true ∨ clipped t →
  let us := codePoints (upper t) in
  join us = upper t
  ∧ (forallb complete us = true ∨ (clipped t ∧ us = [t]))
  ∧ Forall (λ u, upper u = u) us
  ∧ us ≠ []
  ∧ (if isWhiteSpace t then us = [t]
     else Forall (λ u, isWhiteSpace u = false) us).
Proof.
  intros Ht us. split; [apply join_codePoints|].
  assert (Hsame : upper t = t →
            (forallb complete us = true ∨ (clipped t ∧ us = [t]))
            ∧ Forall (λ u, upper u = u) us ∧ us ≠ []
            ∧ (if isWhiteSpace t then us = [t]
               else Forall (λ u, isWhiteSpace u = false) us)).
  { intros Heq. unfold us. rewrite Heq.
    assert (Hone : codePoints t = [t]).
    { destruct Ht as [Ht|Ht]; [|now apply codePoints_clipped].
      rewrite <- (append_empty t) at 1. now rewrite codePoints_complete. }
    rewrite Hone. split; [|split; [|split]].
    - destruct Ht as [Ht|Ht]; [left; simpl; now rewrite Ht|now right].
    - now constructor.
    - discriminate.
    - destruct (isWhiteSpace t) eqn:Hws; [reflexivity|now constructor]. }
  destruct t as [|a [|b t]].
  - destruct Ht as [Ht|[]]. discriminate.
  - assert (Hus : us = [String (upperChar a) EmptyString]).
    { unfold us. simpl. rewrite upperChar_width.
      destruct (width_cases a) as [Hw|[Hw|[Hw|Hw]]]; now rewrite Hw. }
    rewrite Hus. split; [|split; [|split]].
    + destruct Ht as [Ht|Ht].
      * left. simpl in *. now rewrite upperChar_width, Ht.
      * right. split; [exact Ht|]. simpl in Ht.
        destruct a as [[] [] [] [] [] [] [] []]; vm_compute in Ht; try lia; reflexivity.
    + constructor; [|constructor]. simpl. now rewrite upperChar_idempotent.
    + discriminate.
    + rewrite <- isWhiteSpace_upperChar.
      destruct (isWhiteSpace (String (upperChar a) EmptyString)) eqn:Hws.
      * rewrite isWhiteSpace_upperChar in Hws. now rewrite (isWhiteSpace_changed _ Hws).
      * now constructor.
  - set (t0 := String a (String b t)) in *.
    assert (Hup : upper t0 = if wellFormed t0 then
                    match mapped (codePoint t0) upperCase with
                    | Some replacement => join (map utf8 replacement)
                    | None => t0
                    end else t0) by reflexivity.
    assert (Hws : isWhiteSpace t0
                  = wellFormed t0 && existsb (N.eqb (codePoint t0)) whiteSpace)
      by reflexivity.
    destruct (wellFormed t0) eqn:Hwf; [|now apply Hsame].
    destruct (mapped (codePoint t0) upperCase) as [v|] eqn:Hmap; [|now apply Hsame].
    apply mapped_checked in Hmap. unfold upperChecked in Hmap. simpl in Hmap.
    apply andb_prop in Hmap as [Hmap Hkey]. apply andb_prop in Hmap as [Hne Hall].
    unfold us. rewrite Hup. rewrite Hws. simpl.
    apply negb_true_iff in Hkey. rewrite Hkey.
    rewrite forallb_forall in Hall.
    split; [|split; [|split]].
    + left. apply forallb_forall. intros u Hu. specialize (Hall u Hu).
      now apply andb_prop in Hall as [[Hc _]%andb_prop _].
    + apply Forall_forall. intros u Hu%list_elem_of_In. specialize (Hall u Hu).
      apply andb_prop in Hall as [[_ Hf]%andb_prop _]. now apply String.eqb_eq.
    + destruct (join (map utf8 v)) as [|c r]; [discriminate|].
      simpl. destruct (width c) as [|[|[|[|[|]]]]]; try discriminate;
        destruct r as [|? [|? [|? ?]]]; discriminate.
    + apply Forall_forall. intros u Hu%list_elem_of_In. specialize (Hall u Hu).
      apply andb_prop in Hall as [_ Hn]. now apply negb_true_iff.
Qed.


Lemma complete_not_clipped (t : string) : complete t = true → clipped t → False.
Proof.
  destruct t as [|a t]; [discriminate|]. unfold complete, clipped.
  intros Heq%Nat.eqb_eq. lia.
Qed.

Lemma tokens_each (l : list string) :
  tokens l → Forall (λ t, complete t = true ∨ clipped t) l.
Proof. induction 1; constructor; auto. Qed.

Lemma codePoints_upper (l : list string) :
  tokens l → codePoints (join (map upper l)) = spread l.
Proof.
  induction 1 as [|t Hclipped|t l Ht Hl IH]; simpl.
  - reflexivity.
  - now rewrite append_empty, app_nil_r.
  - destruct (upper_spec t (or_introl Ht)) as (Hjoin & [Hall|[Hclipped _]] & _);
      [|now destruct (complete_not_clipped t)].
    rewrite <- Hjoin at 1. now rewrite (codePoints_append _ _ Hall), IH.
Qed.

Lemma join_spread (l : list string) : join (spread l) = join (map upper l).
Proof.
  induction l as [|t l IH]; simpl; [reflexivity|].
  now rewrite join_app, join_codePoints, IH.
Qed.

Lemma upper_spread (l : list string) :
  Forall (λ t, complete t = true ∨ clipped t) l → map upper (spread l) = spread l.
Proof.
  induction 1 as [|t l Ht Hl IH]; simpl; [reflexivity|].
  rewrite map_app, IH. f_equal.
  destruct (upper_spec t Ht) as (_ & _ & Hfixed & _).
  induction Hfixed as [|u us Hu Hus IHus]; simpl; [reflexivity|]. now rewrite Hu, IHus.
Qed.

Lemma toUpperCase_idempotent (s : string) :
  toUpperCase (toUpperCase s) = toUpperCase s.
Proof.
  unfold toUpperCase. rewrite (codePoints_upper _ (codePoints_tokens s)).
  rewrite (upper_spread _ (tokens_each _ (codePoints_tokens s))).
  apply join_spread.
Qed.

Lemma tokens_trimStart (l : list string) : tokens l → tokens (trimStart l).
Proof.
  induction 1 as [|t Hclipped|t l Ht Hl IH]; simpl.
  - constructor.
  - destruct (isWhiteSpace t); now constructor.
  - destruct (isWhiteSpace t); [exact IH|now constructor].
Qed.

Lemma tokens_trimEnd (l : list string) : tokens l → tokens (trimEnd l).
Proof.
  induction 1 as [|t Hclipped|t l Ht Hl IH]; simpl.
  - constructor.
  - destruct (isWhiteSpace t); now constructor.
  - destruct (trimEnd l) as [|k kept].
    + destruct (isWhiteSpace t); constructor; [exact Ht|constructor].
    + now constructor.
Qed.

Lemma trimStart_idempotent (l : list string) : trimStart (trimStart l) = trimStart l.
Proof.
  induction l as [|t l IH]; simpl; [reflexivity|].
  destruct (isWhiteSpace t) eqn:Ht; [exact IH|]. simpl. now rewrite Ht.
Qed.

Lemma trimEnd_cons (t : string) (l : list string) :
  trimEnd (t :: l) = match trimEnd l with
                     | [] => if isWhiteSpace t then [] else [t]
                     | kept => t :: kept
                     end.
Proof. reflexivity. Qed.

Lemma trimEnd_idempotent (l : list string) : trimEnd (trimEnd l) = trimEnd l.
Proof.
  induction l as [|t l IH]; [reflexivity|]. rewrite trimEnd_cons.
  destruct (trimEnd l) as [|k kept] eqn:Hl.
  - destruct (isWhiteSpace t) eqn:Ht; simpl; [reflexivity|now rewrite Ht].
  - rewrite trimEnd_cons. now rewrite IH.
Qed.

Lemma trimStart_trimEnd (l : list string) : trimStart (trimEnd l) = trimEnd (trimStart l).
Proof.
  induction l as [|t l IH]; [reflexivity|]. rewrite trimEnd_cons.
  cbn [trimStart]. destruct (isWhiteSpace t) eqn:Ht.
  - rewrite <- IH. destruct (trimEnd l); simpl; [reflexivity|now rewrite Ht].
  - rewrite trimEnd_cons. destruct (trimEnd l); simpl; now rewrite Ht.
Qed.

Lemma trimmed_idempotent (l : list string) :
  trimEnd (trimStart (trimEnd (trimStart l))) = trimEnd (trimStart l).
Proof. now rewrite trimStart_trimEnd, trimStart_idempotent, trimEnd_idempotent. Qed.

Lemma trimStart_bare (l k : list string) :
  l ≠ [] → Forall (λ u, isWhiteSpace u = false) l → trimStart (l ++ k) = (l ++ k)%list.
Proof.
  intros Hne Hl. destruct Hl as [|u us Hu _]; [congruence|]. simpl. now rewrite Hu.
Qed.

Lemma trimEnd_app (l k : list string) :
  trimEnd (l ++ k) = match trimEnd k with
                     | [] => trimEnd l
                     | kept => (l ++ kept)%list
                     end.
Proof.
  induction l as [|t l IH]; [simpl; now destruct (trimEnd k)|].
  change ((t :: l) ++ k)%list with (t :: (l ++ k))%list. rewrite !trimEnd_cons, IH.
  destruct (trimEnd k) as [|u kept]; [reflexivity|].
  now destruct l.
Qed.

Lemma trimEnd_bare (l : list string) :
  Forall (λ u, isWhiteSpace u = false) l → trimEnd l = l.
Proof.
  induction 1 as [|u us Hu Hus IH]; [reflexivity|]. rewrite trimEnd_cons, IH, Hu.
  now destruct us.
Qed.

Lemma trimStart_spread (l : list string) :
  Forall (λ t, complete t = true ∨ clipped t) l →
  trimStart (spread l) = spread (trimStart l).
Proof.
  induction 1 as [|t l Ht Hl IH]; simpl; [reflexivity|].
  destruct (upper_spec t Ht) as (_ & _ & _ & Hne & Hws).
  destruct (isWhiteSpace t) eqn:Hwt.
  - rewrite Hws. simpl. now rewrite Hwt.
  - now apply trimStart_bare.
Qed.

Lemma trimEnd_spread (l : list string) :
  Forall (λ t, complete t = true ∨ clipped t) l →
  trimEnd (spread l) = spread (trimEnd l).
Proof.
  induction 1 as [|t l Ht Hl IH]; [reflexivity|].
  change (spread (t :: l)) with (codePoints (upper t) ++ spread l)%list.
  rewrite trimEnd_app, IH, trimEnd_cons.
  destruct (upper_spec t Ht) as (_ & _ & _ & Hne & Hws).
  destruct (trimEnd l) as [|k kept] eqn:Hkept.
  - simpl. destruct (isWhiteSpace t) eqn:Hwt.
    + rewrite Hws. simpl. now rewrite Hwt.
    + simpl. rewrite app_nil_r. now apply trimEnd_bare.
  - change (spread (t :: k :: kept))
      with (codePoints (upper t) ++ spread (k :: kept))%list.
    assert (Hk : complete k = true ∨ clipped k).
    { assert (Hin : In k (trimEnd l)) by (rewrite Hkept; now left).
      clear -Hin Hl. revert k Hin. induction Hl as [|u us Hu Hus IH]; [intros ? []|].
      intros k. rewrite trimEnd_cons. destruct (trimEnd us) as [|? ?].
      - destruct (isWhiteSpace u); [intros []|]. intros [<-|[]]. exact Hu.
      - intros [<-|Hin]; [exact Hu|now apply IH]. }
    destruct (upper_spec k Hk) as (_ & _ & _ & Hnek & _).
    change (spread (k :: kept)) with (codePoints (upper k) ++ spread kept)%list.
    destruct (codePoints (upper k)); [congruence|reflexivity].
Qed.

Lemma normalize_idempotent (s : string) :
  Client.normalize (Client.normalize s) = Client.normalize s.
Proof.
  unfold Client.normalize, trim.
  set (ks := trimEnd (trimStart (codePoints s))).
  assert (Hks : tokens ks)
    by apply tokens_trimEnd, tokens_trimStart, codePoints_tokens.
  pose proof (tokens_each _ Hks) as Heach.
  assert (Hfirst : toUpperCase (join ks) = join (map upper ks)).
  { unfold toUpperCase. now rewrite (codePoints_join _ Hks). }
  rewrite Hfirst, (codePoints_upper _ Hks).
  assert (Hstart : Forall (λ t, complete t = true ∨ clipped t) (trimStart ks)).
  { clear -Heach. induction Heach as [|t l Ht Hl IH]; simpl; [constructor|].
    destruct (isWhiteSpace t); [exact IH|now constructor]. }
  rewrite (trimStart_spread _ Heach), (trimEnd_spread _ Hstart).
  unfold ks at 1. rewrite trimmed_idempotent. fold ks.
  unfold toUpperCase. rewrite join_spread, (codePoints_upper _ Hks).
  rewrite (upper_spread _ Heach). apply join_spread.
Qed.

End StringFacts.

(** White space beyond the ASCII range (a no-break space, a line separator,
    a byte order mark) is trimmed, and upper-casing can lengthen a string. *)
Example trim_beyond_ascii :
  JsString.trim (JsString.utf8 160 ++ " a b" ++ JsString.utf8 8232 ++ JsString.utf8 65279)
  = "a b".
Proof. vm_compute. reflexivity. Qed.

Example toUpperCase_beyond_ascii :
  JsString.toUpperCase "straße é" = "STRASSE É"
  ∧ Client.normalize (JsString.utf8 160 ++ "ǆ-1 ") = "Ǆ-1".
Proof. vm_compute. split; reflexivity. Qed.

(** ** Scanning orders is folding over occurrences *)

Section Occurrences.

Lemma fold_left_flat_map {A B C} (f : A → C → A) (g : B → list C) (l : list B) (a : A) :
  fold_left f (flat_map g l) a = fold_left (λ a x, fold_left f (g x) a) l a.
Proof.
  revert a. induction l as [|x l IH]; intros a; simpl; [reflexivity|].
  now rewrite fold_left_app, IH.
Qed.

Lemma fold_serialNumbers {A} (f : A → Occurrence → A) (g : A → string → A)
    (mk : string → Occurrence) (sns : list (option string)) (a : A) :
  (∀ a s, g a s = f a (mk s)) →
  fold_left (λ a serial, match Client.truthySerial serial with
                         | Some s => g a s
                         | None => a
                         end) sns a
  = fold_left f (map mk (omap Client.truthySerial sns)) a.
Proof.
  intros Hg. revert a. induction sns as [|serial sns IH]; intros a; simpl; [reflexivity|].
  rewrite IH. destruct (Client.truthySerial serial); simpl; [now rewrite Hg|reflexivity].
Qed.

Lemma extractFromLines_occurrences lines source order serialIndex :
  Client.extractFromLines lines order serialIndex
  = fold_left addOccurrence (sourceOccurrences order source lines) serialIndex.
Proof.
  unfold Client.extractFromLines, sourceOccurrences.
  rewrite fold_left_flat_map. revert serialIndex.
  induction (default [] lines) as [|line rest IH]; intros serialIndex; simpl;
    [reflexivity|].
  rewrite IH. f_equal. unfold lineOccurrences.
  destruct (Client.serialNumbersOf line) as [sns|]; [|reflexivity].
  now apply fold_serialNumbers.
Qed.

Lemma indexOrder_occurrences serialIndex order :
  Client.indexOrder serialIndex order
  = fold_left addOccurrence (orderOccurrences order) serialIndex.
Proof.
  unfold Client.indexOrder, orderOccurrences. rewrite !fold_left_app.
  rewrite (extractFromLines_occurrences (packLines order) "pack").
  rewrite (extractFromLines_occurrences (pickLines order) "pick").
  now rewrite (extractFromLines_occurrences (lines order) "order").
Qed.

Lemma indexOrders_occurrences allOrders :
  Client.indexOrders allOrders = fold_left addOccurrence (occurrences allOrders) ∅.
Proof.
  unfold Client.indexOrders, occurrences. rewrite fold_left_flat_map.
  generalize (∅ : gmap string SerialRecord).
  induction allOrders as [|order rest IH]; intros serialIndex; simpl; [reflexivity|].
  now rewrite IH, indexOrder_occurrences.
Qed.

(** An entry, once written, survives every later occurrence; an absent one
    is written by the first occurrence that normalizes to its key. *)
Lemma lookup_fold_addOccurrence occs (serialIndex : gmap string SerialRecord) key :
  fold_left addOccurrence occs serialIndex !! key
  = match serialIndex !! key with
    | Some r => Some r
    | None => recordOf <$> firstNormalized key occs
    end.
Proof.
  revert serialIndex. induction occs as [|o occs IH]; intros serialIndex; simpl.
  - now destruct (serialIndex !! key).
  - rewrite IH. unfold addOccurrence at 1, Client.addIfAbsent.
    destruct (String.eqb_spec (Client.normalize (occ_serial o)) key) as [Heq|Hne].
    + subst key.
      destruct (serialIndex !! Client.normalize (occ_serial o)) eqn:Hk;
        [now rewrite Hk|].
      now rewrite lookup_insert_eq.
    + destruct (serialIndex !! Client.normalize (occ_serial o)); [reflexivity|].
      now rewrite lookup_insert_ne.
Qed.

Lemma firstNormalized_app key occs1 occs2 :
  firstNormalized key (occs1 ++ occs2)
  = match firstNormalized key occs1 with
    | Some o => Some o
    | None => firstNormalized key occs2
    end.
Proof.
  unfold firstNormalized. induction occs1 as [|o occs1 IH]; simpl; [reflexivity|].
  now destruct (String.eqb _ key).
Qed.

End Occurrences.

(** The index of a list of orders, key by key. *)
Lemma indexOrders_lookup (allOrders : list Order) (key : string) :
  Client.indexOrders allOrders !! key
  = recordOf <$> firstNormalized key (occurrences allOrders).
Proof.
  rewrite indexOrders_occurrences, lookup_fold_addOccurrence.
  now rewrite lookup_empty.
Qed.

Lemma indexOrders_app (earlier later : list Order) (key : string) :
  Client.indexOrders (earlier ++ later) !! key
  = match Client.indexOrders earlier !! key with
    | Some written => Some written
    | None => Client.indexOrders later !! key
    end.
Proof.
  rewrite !indexOrders_lookup. unfold occurrences.
  rewrite flat_map_app, firstNormalized_app.
  now destruct (firstNormalized key (flat_map orderOccurrences earlier)).
Qed.

Lemma indexOrders_key_normalized (allOrders : list Order) (key : string) (r : SerialRecord) :
  Client.indexOrders allOrders !! key = Some r →
  Client.normalize key = key ∧ serial r = key.
Proof.
  rewrite indexOrders_lookup. unfold firstNormalized.
  destruct (List.find _ _) as [o|] eqn:Hfind; simpl; [|discriminate].
  intros [= <-]. apply find_some in Hfind as [_ Heq].
  apply String.eqb_eq in Heq. subst key. split.
  - apply normalize_idempotent.
  - reflexivity.
Qed.

Lemma indexEach_objects (allOrders : list Order) (serialIndex : gmap string SerialRecord) :
  Forall (λ order, isNull order = false) allOrders →
  Client.indexEach allOrders serialIndex
  = Return (fold_left Client.indexOrder allOrders serialIndex).
Proof.
  intros Hobjects. revert serialIndex.
  induction Hobjects as [|order rest Horder _ IH]; intros serialIndex; simpl;
    [reflexivity|].
  now rewrite Horder, IH.
Qed.

Lemma indexEach_returned (allOrders : list Order)
    (serialIndex index : gmap string SerialRecord) :
  Client.indexEach allOrders serialIndex = Return index →
  index = fold_left Client.indexOrder allOrders serialIndex.
Proof.
  revert serialIndex. induction allOrders as [|order rest IH]; intros serialIndex; simpl.
  - now intros [= <-].
  - destruct (isNull order); [discriminate|]. apply IH.
Qed.

Lemma indexEach_throws (allOrders : list Order) (serialIndex : gmap string SerialRecord) :
  Exists (λ order, isNull order = true) allOrders →
  Client.indexEach allOrders serialIndex
  = Throw "Cannot read properties of null (reading 'packLines')".
Proof.
  intros Hnull. revert serialIndex.
  induction allOrders as [|order rest IH]; intros serialIndex; [inversion Hnull|].
  simpl. destruct (isNull order) eqn:Horder; [reflexivity|].
  apply IH. inversion Hnull as [? ? Hhead|? ? Htail]; [congruence|exact Htail].
Qed.

Section Build.
Context `{Env}.

(** [buildSerialIndex] indexes exactly the orders its loop has collected. *)
Lemma buildSerialIndex_collected fuel status limit (w w' : World) serialIndex :
  Client.buildSerialIndex fuel status limit w = (Return serialIndex, w') →
  ∃ allOrders,
    Client.fetchOrders fuel (Client.statusOr status) limit 0%nat [] w
      = (Return allOrders, w')
    ∧ serialIndex = Client.indexOrders allOrders.
Proof.
  unfold Client.buildSerialIndex, bind, lift.
  destruct (Client.fetchOrders _ _ _ _ _ w) as [[allOrders|message|] w1];
    [|discriminate|discriminate].
  destruct (Client.indexEach allOrders ∅) as [index|message|] eqn:Heach;
    intros [= <- <-]. exists allOrders. split; [reflexivity|].
  now apply indexEach_returned.
Qed.

Lemma buildSerialIndex_returns fuel status limit (w w' : World) allOrders :
  Client.fetchOrders fuel (Client.statusOr status) limit 0%nat [] w
    = (Return allOrders, w') →
  Forall (λ order, isNull order = false) allOrders →
  Client.buildSerialIndex fuel status limit w
    = (Return (Client.indexOrders allOrders), w').
Proof.
  intros Hfetch Hobjects. unfold Client.buildSerialIndex, bind, lift.
  now rewrite Hfetch, (indexEach_objects _ _ Hobjects).
Qed.

End Build.

Lemma truncate_exact (n : nat) (allOrders : list Order) :
  Client.capReached (Some n) allOrders = true →
  List.length (Client.truncate (Some n) allOrders) = n.
Proof.
  unfold Client.capReached, Client.truncate. destruct n as [|n]; [discriminate|].
  intros Hcap. apply Nat.leb_le in Hcap. rewrite length_firstn. lia.
Qed.

Section Pagination.
Context `{Env}.

Lemma fetchOrders_step fuel status maxOrders skip allOrders (w : World) :
  Client.fetchOrders (S fuel) status maxOrders skip allOrders w
  = match requestPage status skip w with
    | (Return orderList, w1) =>
        if (List.length orderList <? Client.pageSize)%nat then
          (Return (allOrders ++ orderList)%list, w1)
        else if Client.capReached maxOrders (allOrders ++ orderList) then
          (Return (Client.truncate maxOrders (allOrders ++ orderList)), w1)
        else
          Client.fetchOrders fuel status maxOrders (skip + Client.pageSize)%nat
            (allOrders ++ orderList)%list w1
    | (Throw message, w1) => (Throw message, w1)
    | (Diverge, w1) => (Diverge, w1)
    end.
Proof.
  simpl. unfold requestPage, bind, lift, ret.
  destruct (Client.callTool _ _ w) as [[result|message|] w1]; [|reflexivity|reflexivity].
  destruct (Client.orderListOf result) as [orderList|message|];
    [|reflexivity|reflexivity].
  destruct (List.length orderList <? Client.pageSize)%nat; [reflexivity|].
  now destruct (Client.capReached maxOrders (allOrders ++ orderList)).
Qed.

(** How the loop of [buildSerialIndex] ends when it returns: the pages were
    requested at [skip], [skip + 100], ... in turn, and it left either on a
    last page shorter than 100, with everything collected and the cap not
    consulted, or on a full page with the cap reached, with exactly the cap. *)
Lemma fetchOrders_exit fuel status maxOrders skip allOrders (w w' : World) collected :
  Client.fetchOrders fuel status maxOrders skip allOrders w = (Return collected, w') →
  ∃ pages,
    paged status skip w pages w'
    ∧ ((List.length (List.last pages []) < Client.pageSize)%nat
       ∧ collected = (allOrders ++ concat pages)%list
       ∨ (Client.pageSize ≤ List.length (List.last pages []))%nat
         ∧ ∃ cap, maxOrders = Some cap
                  ∧ collected = firstn cap (allOrders ++ concat pages)
                  ∧ List.length collected = cap).
Proof.
  revert skip allOrders w. induction fuel as [|fuel IH]; intros skip allOrders w;
    [discriminate|].
  rewrite fetchOrders_step.
  destruct (requestPage status skip w) as [[orderList|message|] w1] eqn:Hpage;
    [|discriminate|discriminate].
  destruct (Nat.ltb_spec (List.length orderList) Client.pageSize) as [Hshort|Hfull].
  - intros [= <- <-]. exists [orderList]. split; [now constructor|].
    left. simpl. now rewrite app_nil_r.
  - destruct (Client.capReached maxOrders (allOrders ++ orderList)) eqn:Hcap.
    + intros [= <- <-]. exists [orderList]. split; [now constructor|].
      right. simpl. split; [exact Hfull|].
      destruct maxOrders as [cap|]; [|discriminate]. exists cap.
      rewrite app_nil_r. split; [reflexivity|]. split; [reflexivity|].
      now apply truncate_exact.
    + intros Hrest. apply IH in Hrest as (pages & Hpaged & Hexit).
      exists (orderList :: pages).
      split; [exact (paged_next status _ _ _ _ _ _ Hpage Hfull Hpaged)|].
      assert (Hlast : List.last (orderList :: pages) [] = List.last pages []).
      { inversion Hpaged; reflexivity. }
      rewrite Hlast. simpl. now rewrite <- app_assoc in Hexit.
Qed.

End Pagination.

(** ** The documents and the scans *)

Section Documents.

Lemma shown_truthy (line : Line) :
  shown line = match Client.serialNumbersOf line with
               | Some serialNumbers => omap Client.truthySerial serialNumbers
               | None => []
               end.
Proof.
  unfold shown, Client.serialNumbersOf.
  destruct (quantity line) as [[[elements|]]|]; [|reflexivity|reflexivity].
  induction elements as [|[[|c rest]|] elements IH]; simpl; [reflexivity|..];
    now rewrite ?IH.
Qed.

Lemma standing_occurrences order source lines :
  standing order source lines = sourceOccurrences order source lines.
Proof.
  unfold standing, sourceOccurrences. destruct lines as [ls|]; [|reflexivity]. simpl.
  induction ls as [|line ls IH]; simpl; [reflexivity|]. rewrite IH. f_equal.
  unfold lineOccurrences. rewrite shown_truthy.
  now destruct (Client.serialNumbersOf line).
Qed.

Lemma standingOn_occurrences order : standingOn order = orderOccurrences order.
Proof.
  unfold standingOn, orderOccurrences. now rewrite !standing_occurrences.
Qed.

Lemma standingOnAll_occurrences orders : standingOnAll orders = occurrences orders.
Proof.
  unfold standingOnAll, occurrences.
  induction orders as [|order orders IH]; simpl; [reflexivity|].
  now rewrite IH, standingOn_occurrences.
Qed.

Lemma recordOf_entryAt key o :
  Client.normalize (occ_serial o) = key → recordOf o = entryAt key o.
Proof. now intros <-. Qed.

(** The index of a list of orders, key by key, in terms of the documents. *)
Lemma indexOrders_firstWriter (allOrders : list Order) (key : string) :
  Client.indexOrders allOrders !! key = firstWriter key allOrders.
Proof.
  rewrite indexOrders_lookup. unfold firstWriter, firstNormalized.
  rewrite standingOnAll_occurrences. unfold Client.normalize.
  destruct (List.find _ _) as [o|] eqn:Hfind; simpl; [|reflexivity].
  f_equal. apply recordOf_entryAt. apply find_some in Hfind as [_ Heq].
  now apply String.eqb_eq in Heq.
Qed.

Lemma shown_In (line : Line) (s : string) :
  In s (shown line)
  ↔ s ≠ EmptyString
    ∧ ∃ q elements, quantity line = Some q ∧ serialNumbers q = Some elements
                    ∧ In (Some s) elements.
Proof.
  unfold shown. destruct (quantity line) as [[[elements|]]|].
  - rewrite in_flat_map. split.
    + intros ([[|c rest]|] & Hin & Hs); simpl in Hs; try destruct Hs as [<-|[]];
        try destruct Hs.
      split; [discriminate|]. now exists {| serialNumbers := Some elements |}, elements.
    + intros (Hne & q & elements' & [= <-] & [= <-] & Hin). exists (Some s).
      split; [exact Hin|]. destruct s; [congruence|now left].
  - split; [intros []|]. now intros (_ & q & elements & [= <-] & [=] & _).
  - split; [intros []|]. now intros (_ & q & elements & [=] & _).
Qed.

Lemma standing_In order source lines o :
  In o (standing order source lines)
  ↔ ∃ ls line, lines = Some ls ∧ In line ls ∧ In (occ_serial o) (shown line)
               ∧ o = {| occ_serial := occ_serial o; occ_order := order;
                        occ_line := line; occ_source := source |}.
Proof.
  unfold standing. destruct lines as [ls|].
  - rewrite in_flat_map. split.
    + intros (line & Hline & Hin). apply in_map_iff in Hin as (s & <- & Hs).
      now exists ls, line.
    + intros (ls' & line & [= <-] & Hline & Hs & Ho). exists line.
      split; [exact Hline|]. apply in_map_iff. exists (occ_serial o).
      split; [now symmetry|exact Hs].
  - split; [intros []|]. now intros (ls & line & [=] & _).
Qed.

Lemma standingOn_order order o : In o (standingOn order) → occ_order o = order.
Proof.
  unfold standingOn. rewrite !in_app_iff, !standing_In.
  intros [H|[H|H]]; destruct H as (ls & line & _ & _ & _ & ->); reflexivity.
Qed.

Lemma carries_standing order s :
  carries order s ↔ ∃ o, In o (standingOn order) ∧ occ_serial o = s.
Proof.
  unfold carries, standingOn. split.
  - intros (Hne & ls & line & q & elements & Hls & Hline & Hq & Helements & Hin).
    assert (Hshown : In s (shown line)).
    { apply shown_In. split; [exact Hne|]. now exists q, elements. }
    destruct Hls as [Hls|[Hls|Hls]];
      [exists {| occ_serial := s; occ_order := order; occ_line := line;
                 occ_source := "pack" |}
      |exists {| occ_serial := s; occ_order := order; occ_line := line;
                 occ_source := "pick" |}
      |exists {| occ_serial := s; occ_order := order; occ_line := line;
                 occ_source := "order" |}];
      (split; [|reflexivity]); rewrite !in_app_iff, !standing_In;
      [left|right; left|right; right]; now exists ls, line.
  - intros (o & Hin & <-). rewrite !in_app_iff, !standing_In in Hin.
    assert (Hsome : ∃ ls line,
              (packLines order = Some ls ∨ pickLines order = Some ls
               ∨ lines order = Some ls)
              ∧ In line ls ∧ In (occ_serial o) (shown line)).
    { destruct Hin as [H|[H|H]]; destruct H as (ls & line & Hls & Hline & Hs & _);
        exists ls, line; auto. }
    destruct Hsome as (ls & line & Hls & Hline & Hs).
    apply shown_In in Hs as (Hne & q & elements & Hq & Helements & Hin').
    split; [exact Hne|]. now exists ls, line, q, elements.
Qed.

Lemma find_skip {A} (p : A → bool) (l1 l2 : list A) :
  (∀ x, In x l1 → p x = false) → List.find p (l1 ++ l2) = List.find p l2.
Proof.
  induction l1 as [|x l1 IH]; intros Hnone; simpl; [reflexivity|].
  rewrite (Hnone x (or_introl eq_refl)). apply IH. intros y Hy. apply Hnone. now right.
Qed.

Lemma find_here {A} (p : A → bool) (l1 l2 : list A) (x : A) :
  In x l1 → p x = true → ∃ y, List.find p (l1 ++ l2) = Some y ∧ In y l1 ∧ p y = true.
Proof.
  induction l1 as [|z l1 IH]; intros Hin Hp; [destruct Hin|]. simpl.
  destruct (p z) eqn:Hz; [exists z; auto|].
  destruct Hin as [->|Hin]; [congruence|].
  destruct (IH Hin Hp) as (y & Hfind & Hy & Hpy). exists y. auto.
Qed.

(** The entry of a key belongs to the first order that carries a serial
    with that trimmed upper-cased form, whatever the orders after it hold. *)
Lemma firstWriter_first_order key before first after s :
  (∀ order t, In order before → carries order t →
              JsString.toUpperCase (JsString.trim t) ≠ key) →
  carries first s →
  JsString.toUpperCase (JsString.trim s) = key →
  ∃ r, firstWriter key (before ++ first :: after) = Some r
       ∧ serial r = key
       ∧ sr_salesOrderId r = salesOrderId first
       ∧ sr_orderNumber r = orderNumber first
       ∧ sr_orderDate r = orderDate first.
Proof.
  intros Hnone Hfirst Hkey. unfold firstWriter, standingOnAll.
  rewrite flat_map_app. cbn [flat_map].
  rewrite find_skip.
  - apply carries_standing in Hfirst as (o & Hin & Hs).
    destruct (find_here
                (λ o, String.eqb (JsString.toUpperCase (JsString.trim (occ_serial o))) key)
                (standingOn first) (flat_map standingOn after) o Hin)
      as (y & -> & Hy & _).
    { rewrite Hs, Hkey. apply String.eqb_refl. }
    exists (entryAt key y). simpl. rewrite (standingOn_order _ _ Hy). auto.
  - intros o Hin. apply in_flat_map in Hin as (order & Horder & Hin).
    apply String.eqb_neq. apply (Hnone order (occ_serial o) Horder).
    apply carries_standing. now exists o.
Qed.

End Documents.

(** ** C1: first writer wins in the order-based index *)

Section Served.
Context `{Env}.

Lemma pageAt_requestPage status skip (w : World) page :
  (pageAt status skip w).1 = Return page →
  requestPage status skip w = (Return page, (pageAt status skip w).2).
Proof.
  unfold pageAt, requestPage, bind, lift.
  change (JObj [("status", JStr status);
                ("include", Client.strings ["lines"; "pickLines"; "packLines"]);
                ("count", JNum (Z.of_nat Client.pageSize));
                ("skip", JNum (Z.of_nat skip))])
    with (listRequest status skip).
  destruct (Client.callTool _ _ w) as [[[j|c|[data|orders]|o|index]|message|] w1];
    simpl; try discriminate; now intros [= ->].
Qed.

(** The loop of [buildSerialIndex] on the pages the service serves. *)
Lemma served_fetchOrders fuel status limit pages skip allOrders (w w' : World) :
  served status limit pages skip (List.length allOrders) w w' →
  (List.length pages ≤ fuel)%nat →
  Client.fetchOrders fuel status limit skip allOrders w
  = (Return (if (List.length (List.last pages []) <? 100)%nat
             then (allOrders ++ concat pages)%list
             else match limit with
                  | Some cap => firstn cap (allOrders ++ concat pages)
                  | None => (allOrders ++ concat pages)%list
                  end), w').
Proof.
  revert fuel skip allOrders w.
  induction pages as [|page rest IH]; intros fuel skip allOrders w; [intros []|].
  intros [Hpage Hrest] Hfuel.
  destruct fuel as [|fuel]; [simpl in Hfuel; lia|].
  rewrite fetchOrders_step, (pageAt_requestPage _ _ _ _ Hpage).
  change Client.pageSize with 100%nat.
  destruct rest as [|next rest].
  - destruct Hrest as [<- Hexit]. cbn [List.last concat]. rewrite app_nil_r.
    destruct (Nat.ltb_spec (List.length page) 100) as [Hshort|Hfull]; [reflexivity|].
    destruct Hexit as [Hshort|(cap & -> & Hpositive & Hcap)]; [lia|].
    destruct cap as [|cap]; [lia|]. unfold Client.capReached, Client.truncate.
    rewrite length_app. destruct (Nat.leb_spec (S cap) (List.length allOrders + List.length page));
      [reflexivity|lia].
  - destruct Hrest as (Hfull & Hcap & Hserved).
    destruct (Nat.ltb_spec (List.length page) 100) as [Hshort|_]; [lia|].
    assert (Hbelow : Client.capReached limit (allOrders ++ page) = false).
    { unfold Client.capReached. destruct limit as [[|cap]|]; [reflexivity| |reflexivity].
      rewrite length_app. destruct (Hcap (S cap) eq_refl) as [Hzero|Hless]; [lia|].
      apply Nat.leb_gt. lia. }
    rewrite Hbelow.
    rewrite <- length_app in Hserved.
    rewrite (IH fuel (skip + 100)%nat (allOrders ++ page)%list _ Hserved);
      [|simpl in Hfuel; simpl; lia].
    change (List.last (page :: next :: rest) []) with (List.last (next :: rest) []).
    change (concat (page :: next :: rest)) with (page ++ concat (next :: rest))%list.
    now rewrite <- !app_assoc.
Qed.

Lemma served_processed fuel status limit pages (w w' : World) :
  served status limit pages 0 0 w w' →
  (List.length pages ≤ fuel)%nat →
  Client.fetchOrders fuel status limit 0 [] w = (Return (processed limit pages), w').
Proof. exact (served_fetchOrders fuel status limit pages 0 [] w w'). Qed.

End Served.

(** C1. Let the service answer the requests of [buildSerialIndex], made at
    skip 0, 100, 200, ... in turn, with [pages], and let the orders processed,
    the orders of the pages in the order of the pages (cut at the limit when
    the last page is full), all be objects. Then [buildSerialIndex] returns an
    index in which the entry under a key is made from the first serial, in
    reading order (orders as served; on an order, pack lines, then pick lines,
    then order lines), whose trimmed upper-cased form is the key. So when
    several processed orders carry a serial with the same trimmed upper-cased
    form, the entry names the first of them, whatever the later ones hold and
    whatever the dates: no date is consulted. *)
Theorem buildSerialIndex_first_writer_wins `{Env} fuel status limit
    (w w' : World) (pages : list (list Order)) (key : string) :
  served (Client.statusOr status) limit pages 0 0 w w' →
  (List.length pages ≤ fuel)%nat →
  Forall (λ order, isNull order = false) (processed limit pages) →
  ∃ serialIndex : gmap string SerialRecord,
    Client.buildSerialIndex fuel status limit w = (Return serialIndex, w')
    ∧ serialIndex !! key = firstWriter key (processed limit pages)
    ∧ ∀ (before : list Order) (first : Order) (after : list Order) (s : string),
        processed limit pages = (before ++ first :: after)%list →
        (∀ order t, In order before → carries order t →
                    JsString.toUpperCase (JsString.trim t) ≠ key) →
        carries first s →
        JsString.toUpperCase (JsString.trim s) = key →
        ∃ r, serialIndex !! key = Some r
             ∧ serial r = key
             ∧ sr_salesOrderId r = salesOrderId first
             ∧ sr_orderNumber r = orderNumber first
             ∧ sr_orderDate r = orderDate first.
Proof.
  intros Hserved Hfuel Hobjects.
  exists (Client.indexOrders (processed limit pages)). split; [|split].
  - apply buildSerialIndex_returns; [|exact Hobjects].
    now apply served_processed.
  - apply indexOrders_firstWriter.
  - intros before first after s Hsplit Hnone Hfirst Hkey.
    rewrite indexOrders_firstWriter, Hsplit.
    now apply (firstWriter_first_order key before first after s).
Qed.

(** The serial of order 5 of the first page stands again, in another
    spelling, on the later-dated order of the second page. *)
Lemma buildSerialIndex_first_writer_wins_witness :
  let shop := Sample.pagedShop Sample.repeated in
  let w := Sample.start shop [] in
  ∃ serialIndex : gmap string SerialRecord,
    @Client.buildSerialIndex shop 5 None None w
      = (Return serialIndex, (@Client.buildSerialIndex shop 5 None None w).2)
    ∧ serialIndex !! "SN-5" = firstWriter "SN-5" (processed None Sample.repeated)
    ∧ ∀ (before : list Order) (first : Order) (after : list Order) (s : string),
        processed None Sample.repeated = (before ++ first :: after)%list →
        (∀ order t, In order before → carries order t →
                    JsString.toUpperCase (JsString.trim t) ≠ "SN-5") →
        carries first s →
        JsString.toUpperCase (JsString.trim s) = "SN-5" →
        ∃ r, serialIndex !! "SN-5" = Some r
             ∧ serial r = "SN-5"
             ∧ sr_salesOrderId r = salesOrderId first
             ∧ sr_orderNumber r = orderNumber first
             ∧ sr_orderDate r = orderDate first.
Proof.
  intros shop w.
  apply (@buildSerialIndex_first_writer_wins shop 5 None None w).
  - split; [vm_compute; reflexivity|]. split; [vm_compute; lia|].
    split; [intros cap; discriminate|].
    split; [vm_compute; reflexivity|]. split; [vm_compute; reflexivity|].
    left. vm_compute. lia.
  - vm_compute. lia.
  - apply (bool_decide_unpack
             (Forall (λ order, isNull order = false) (processed None Sample.repeated))).
    vm_compute. reflexivity.
Defined.

Example first_page_keeps_serial :
  let shop := Sample.pagedShop Sample.repeated in
  match (@Client.buildSerialIndex shop 5 None None (Sample.start shop [])).1 with
  | Return serialIndex => serialIndex !! "SN-5"
  | _ => None
  end
  = Some {| serial := "SN-5"; sr_salesOrderId := JStr "5";
            sr_orderNumber := JStr "SO-5"; sr_orderDate := JStr "2024-06-01";
            sr_productId := JStr "p5"; shopifyOrderUrl := JNull |}
  ∧ firstWriter "SN-5" (processed None Sample.repeated)
    = Some {| serial := "SN-5"; sr_salesOrderId := JStr "5";
              sr_orderNumber := JStr "SO-5"; sr_orderDate := JStr "2024-06-01";
              sr_productId := JStr "p5"; shopifyOrderUrl := JNull |}.
Proof. intros shop. split; by_evaluation. Qed.

Example later_dated_order_keeps_serial :
  sr_orderDate <$> (Client.indexOrders Sample.twoCopies !! "ABC123")
  = Some (JStr "2024-12-31").
Proof. reflexivity. Qed.

(** ** C5: lookups are invariant under normalization *)

Lemma lookupSerial_normalized (serialIndex : gmap string SerialRecord) (s s' : string) :
  Client.normalize s = Client.normalize s' →
  Client.lookupSerial serialIndex s = Client.lookupSerial serialIndex s'.
Proof. intros Heq. unfold Client.lookupSerial. now rewrite Heq. Qed.

(** C5. Every key of an index returned by [buildSerialIndex] equals its own
    trimmed upper-cased form (and is the [serial] field of its entry), and
    from one and the same state of the process [searchSerial] gives the same
    result, and leaves the same state, for any two queries with the same
    trimmed upper-cased form. *)
Theorem serial_lookup_normalization_invariant `{Env} :
  (∀ fuel status limit (w w' : World) serialIndex key r,
     Client.buildSerialIndex fuel status limit w = (Return serialIndex, w') →
     serialIndex !! key = Some r →
     JsString.toUpperCase (JsString.trim key) = key ∧ serial r = key)
  ∧ (∀ fuel (s s' : string) (w : World),
       JsString.toUpperCase (JsString.trim s) = JsString.toUpperCase (JsString.trim s') →
       Client.searchSerial fuel s w = Client.searchSerial fuel s' w).
Proof.
  split.
  - intros fuel status limit w w' serialIndex key r Hbuild Hkey.
    apply buildSerialIndex_collected in Hbuild as (allOrders & _ & ->).
    exact (indexOrders_key_normalized _ _ _ Hkey).
  - intros fuel s s' w Heq. unfold Client.searchSerial, bind, ret.
    destruct (Client.readCacheDisabled w) as [[bypassCache|message|] w1];
      [|reflexivity|reflexivity].
    destruct (getOrFetch _ _ _ _ w1) as [[cached|message|] w2];
      [|reflexivity|reflexivity].
    now rewrite (lookupSerial_normalized (Client.asIndex cached) s s' Heq).
Qed.

Lemma serial_lookup_normalization_invariant_witness :
  (JsString.toUpperCase (JsString.trim "ABC123") = "ABC123"
   ∧ serial (Client.newRecord "ABC123" (Sample.orderOf "late" "2024-12-31" None None None)
               (Sample.lineOf "p1" [])) = "ABC123")
  ∧ @Client.searchSerial Sample.datedShop 5 " abc123 " (Sample.start Sample.datedShop [])
    = @Client.searchSerial Sample.datedShop 5 "ABC123" (Sample.start Sample.datedShop []).
Proof.
  destruct (@serial_lookup_normalization_invariant Sample.datedShop) as [Hkeys Hsearch].
  split.
  - apply (Hkeys 5%nat None None (Sample.start Sample.datedShop [])
             (@Client.buildSerialIndex Sample.datedShop 5 None None
                (Sample.start Sample.datedShop [])).2
             (Client.indexOrders Sample.twoCopies)); reflexivity.
  - apply Hsearch. reflexivity.
Defined.

Example searchSerial_finds_either_spelling :
  (@Client.searchSerial Sample.datedShop 5 " abc123 " (Sample.start Sample.datedShop [])).1
  = Return (Client.Found (Client.newRecord "ABC123"
                     (Sample.orderOf "late" "2024-12-31" None None None)
                     (Sample.lineOf "p1" ["abc123"]))).
Proof. reflexivity. Qed.

(** ** C10: serials of one order are keyed by the raw string *)

Section OrderSerials.

Lemma extractSerials_occurrences lines source order serialMap :
  Client.extractSerials lines source serialMap
  = fold_left recordOccurrence (sourceOccurrences order source lines) serialMap.
Proof.
  unfold Client.extractSerials, sourceOccurrences.
  rewrite fold_left_flat_map. revert serialMap.
  induction (default [] lines) as [|line rest IH]; intros serialMap; simpl;
    [reflexivity|].
  rewrite IH. f_equal. unfold lineOccurrences.
  destruct (Client.serialNumbersOf line) as [sns|]; [|reflexivity].
  now apply fold_serialNumbers.
Qed.

Lemma serialsOfOrder_occurrences order :
  Client.serials (Client.serialsOfOrder order)
  = fold_left recordOccurrence (orderOccurrences order) [].
Proof.
  unfold Client.serialsOfOrder, orderOccurrences. simpl. rewrite !fold_left_app.
  rewrite (extractSerials_occurrences (packLines order) "pack" order).
  rewrite (extractSerials_occurrences (pickLines order) "pick" order).
  now rewrite (extractSerials_occurrences (lines order) "order" order).
Qed.

Lemma entryOf_record raw serial line source serialMap :
  entryOf raw (Client.record serial line source serialMap)
  = if String.eqb serial raw then
      Some match entryOf serial serialMap with
           | Some existing => pushed [source] existing
           | None => {| Client.os_serial := serial;
                        Client.os_productId := productId line;
                        Client.sources := [source] |}
           end
    else entryOf raw serialMap.
Proof.
  unfold entryOf. induction serialMap as [|e rest IH]; simpl.
  - now destruct (String.eqb serial raw).
  - destruct (String.eqb_spec (Client.os_serial e) serial) as [He|He]; simpl.
    + destruct (String.eqb_spec serial raw) as [Hr|Hr].
      * subst. now rewrite String.eqb_refl.
      * destruct (String.eqb_spec (Client.os_serial e) raw); [congruence|reflexivity].
    + destruct (String.eqb_spec (Client.os_serial e) raw) as [Hr|Hr].
      * destruct (String.eqb_spec serial raw); [congruence|reflexivity].
      * exact IH.
Qed.

Lemma entryOf_fold raw occs serialMap :
  entryOf raw (fold_left recordOccurrence occs serialMap)
  = match entryOf raw serialMap with
    | Some existing => Some (pushed (map occ_source (allRaw raw occs)) existing)
    | None => summary raw occs
    end.
Proof.
  revert serialMap. induction occs as [|o occs IH]; intros serialMap; simpl.
  - destruct (entryOf raw serialMap) as [[]|]; unfold pushed; simpl;
      [now rewrite app_nil_r|reflexivity].
  - rewrite IH. unfold recordOccurrence at 1. rewrite entryOf_record.
    unfold summary, firstRaw, allRaw. simpl.
    destruct (String.eqb_spec (occ_serial o) raw) as [Hr|Hr].
    + subst raw.
      destruct (entryOf (occ_serial o) serialMap) as [existing|];
        unfold pushed; simpl; [now rewrite <- app_assoc|reflexivity].
    + reflexivity.
Qed.

Lemma keys_record serial line source serialMap :
  map Client.os_serial (Client.record serial line source serialMap)
  = if known (map Client.os_serial serialMap) serial
    then map Client.os_serial serialMap
    else (map Client.os_serial serialMap ++ [serial])%list.
Proof.
  unfold known. induction serialMap as [|e rest IH]; simpl; [reflexivity|].
  rewrite (String.eqb_sym serial).
  destruct (String.eqb (Client.os_serial e) serial); simpl; [reflexivity|].
  rewrite IH. now destruct (existsb _ _).
Qed.

Lemma filter_filter_and {A} (p q : A → bool) (l : list A) :
  List.filter p (List.filter q l) = List.filter (λ x, q x && p x) l.
Proof.
  induction l as [|x l IH]; simpl; [reflexivity|].
  destruct (q x); simpl; [|exact IH]. destruct (p x); now rewrite IH.
Qed.

Lemma filter_all {A} (p : A → bool) (l : list A) :
  (∀ x, p x = true) → List.filter p l = l.
Proof.
  intros Hp. induction l as [|x l IH]; simpl; [reflexivity|]. now rewrite Hp, IH.
Qed.

Lemma keys_fold occs serialMap :
  map Client.os_serial (fold_left recordOccurrence occs serialMap)
  = (map Client.os_serial serialMap ++
     List.filter (λ s, negb (known (map Client.os_serial serialMap) s))
       (firstSeen (map occ_serial occs)))%list.
Proof.
  revert serialMap. induction occs as [|o occs IH]; intros serialMap; simpl.
  - now rewrite app_nil_r.
  - rewrite IH. unfold recordOccurrence at 1 2. rewrite keys_record.
    destruct (known (map Client.os_serial serialMap) (occ_serial o)) eqn:Hknown; simpl.
    + f_equal. rewrite filter_filter_and. apply List.filter_ext. intros s.
      destruct (String.eqb_spec s (occ_serial o)) as [->|]; simpl;
        [now rewrite Hknown|reflexivity].
    + rewrite <- app_assoc. simpl. do 2 f_equal.
      rewrite filter_filter_and. apply List.filter_ext. intros s.
      unfold known. rewrite existsb_app. simpl. rewrite orb_false_r.
      destruct (String.eqb s (occ_serial o)); simpl;
        [now rewrite orb_true_r|now rewrite orb_false_r].
Qed.

Lemma firstRaw_present raw occs :
  In raw (map occ_serial occs) → ∃ o, firstRaw raw occs = Some o.
Proof.
  unfold firstRaw. induction occs as [|o occs IH]; simpl; [intros []|].
  intros [Ho|Hin].
  - subst raw. rewrite String.eqb_refl. now exists o.
  - destruct (String.eqb (occ_serial o) raw); [now exists o|now apply IH].
Qed.

End OrderSerials.

Lemma serialsOfOrder_keyed_by_raw_string (order : Order) :
  let occs := orderOccurrences order in
  let found := Client.serials (Client.serialsOfOrder order) in
  map Client.os_serial found = firstSeen (map occ_serial occs)
  ∧ (∀ raw, entryOf raw found = summary raw occs)
  ∧ (∀ s t, s ≠ t → In s (map occ_serial occs) → In t (map occ_serial occs) →
       ∃ r1 r2, entryOf s found = Some r1 ∧ entryOf t found = Some r2
                ∧ Client.os_serial r1 = s ∧ Client.os_serial r2 = t ∧ r1 ≠ r2).
Proof.
  intros occs found.
  assert (Hentry : ∀ raw, entryOf raw found = summary raw occs).
  { intros raw. unfold found. rewrite serialsOfOrder_occurrences.
    now rewrite entryOf_fold. }
  split; [|split; [exact Hentry|]].
  - unfold found. rewrite serialsOfOrder_occurrences, keys_fold. simpl.
    now apply filter_all.
  - intros s t Hne Hs Ht.
    apply firstRaw_present in Hs as [o1 Ho1]. apply firstRaw_present in Ht as [o2 Ho2].
    pose proof (Hentry s) as H1. pose proof (Hentry t) as H2.
    unfold summary in H1, H2. fold occs in Ho1, Ho2. rewrite Ho1 in H1. rewrite Ho2 in H2.
    simpl in H1, H2. eexists _, _.
    split; [exact H1|]. split; [exact H2|].
    split; [reflexivity|]. split; [reflexivity|].
    intros Heq. apply Hne. now injection Heq.
Qed.

(** C10. When [getSalesOrder] has delivered an order, the array
    [getSalesOrderSerials] returns holds one record per distinct serial
    string standing on the order, as the document spells it, in order of
    first appearance, with no trimming and no change of case: the record of
    a string carries the product of the first line it stands on (pack lines
    before pick lines before order lines) and, as [sources], the source of
    every place where that very string stands, in order, the first source
    first. Every string the order carries has its record, and two strings
    that differ, be it only in case or surrounding white space, have two
    distinct records. *)
Theorem getSalesOrderSerials_keyed_by_raw_string `{Env} (orderId : string)
    (w w' : World) (order : Order) :
  Client.getSalesOrder orderId (Some ["lines"; "pickLines"; "packLines"]) w
    = (Return (VOrder order), w') →
  isNull order = false →
  ∃ result : Client.SalesOrderSerials,
    Client.getSalesOrderSerials orderId w = (Return result, w')
    ∧ Client.serialCount result = List.length (Client.serials result)
    ∧ map Client.os_serial (Client.serials result)
      = firstSeen (map occ_serial (standingOn order))
    ∧ (∀ raw, entryOf raw (Client.serials result) = summary raw (standingOn order))
    ∧ (∀ s, carries order s →
         ∃ r, entryOf s (Client.serials result) = Some r ∧ Client.os_serial r = s)
    ∧ (∀ s t, s ≠ t → carries order s → carries order t →
         ∃ r1 r2, entryOf s (Client.serials result) = Some r1
                  ∧ entryOf t (Client.serials result) = Some r2
                  ∧ Client.os_serial r1 = s ∧ Client.os_serial r2 = t ∧ r1 ≠ r2).
Proof.
  intros Hfetch Hobject. exists (Client.serialsOfOrder order).
  split; [|split; [reflexivity|]].
  - unfold Client.getSalesOrderSerials, bind, ret, lift, Client.asOrder.
    now rewrite Hfetch, Hobject.
  - destruct (serialsOfOrder_keyed_by_raw_string order) as (Hkeys & Hsummary & Hdistinct).
    rewrite standingOn_occurrences.
    assert (Hcarried : ∀ s, carries order s →
              In s (map occ_serial (orderOccurrences order))).
    { intros s (o & Hin & <-)%carries_standing. rewrite <- standingOn_occurrences.
      now apply in_map. }
    split; [exact Hkeys|]. split; [exact Hsummary|]. split.
    + intros s Hs%Hcarried. rewrite Hsummary. unfold summary.
      apply firstRaw_present in Hs as [o ->]. now eexists.
    + intros s t Hne Hs%Hcarried Ht%Hcarried. now apply Hdistinct.
Qed.

Lemma getSalesOrderSerials_keyed_by_raw_string_witness :
  ∃ result : Client.SalesOrderSerials,
    @Client.getSalesOrderSerials Sample.oneOrder "7" (Sample.start Sample.oneOrder [])
      = (Return result,
         (@Client.getSalesOrder Sample.oneOrder "7"
            (Some ["lines"; "pickLines"; "packLines"])
            (Sample.start Sample.oneOrder [])).2)
    ∧ Client.serialCount result = List.length (Client.serials result)
    ∧ map Client.os_serial (Client.serials result)
      = firstSeen (map occ_serial (standingOn Sample.mixedCase))
    ∧ (∀ raw, entryOf raw (Client.serials result)
              = summary raw (standingOn Sample.mixedCase))
    ∧ (∀ s, carries Sample.mixedCase s →
         ∃ r, entryOf s (Client.serials result) = Some r ∧ Client.os_serial r = s)
    ∧ (∀ s t, s ≠ t → carries Sample.mixedCase s → carries Sample.mixedCase t →
         ∃ r1 r2, entryOf s (Client.serials result) = Some r1
                  ∧ entryOf t (Client.serials result) = Some r2
                  ∧ Client.os_serial r1 = s ∧ Client.os_serial r2 = t ∧ r1 ≠ r2).
Proof.
  apply (@getSalesOrderSerials_keyed_by_raw_string Sample.oneOrder "7"
           (Sample.start Sample.oneOrder [])); reflexivity.
Defined.

Example mixedCase_standing :
  map occ_serial (standingOn Sample.mixedCase) = [" abc123 "; "ABC123"; " abc123 "]
  ∧ carries Sample.mixedCase " abc123 " ∧ carries Sample.mixedCase "ABC123".
Proof.
  split; [reflexivity|]. split; apply carries_standing; eexists.
  - split; [simpl; left; reflexivity|reflexivity].
  - split; [simpl; right; left; reflexivity|reflexivity].
Qed.

Example mixedCase_serials :
  Client.serials (Client.serialsOfOrder Sample.mixedCase)
  = [{| Client.os_serial := " abc123 "; Client.os_productId := JStr "p1";
        Client.sources := ["pack"; "pick"] |};
     {| Client.os_serial := "ABC123"; Client.os_productId := JStr "p2";
        Client.sources := ["pick"] |}].
Proof. reflexivity. Qed.

(** ** C2: pagination and the record cap *)


(** C2. With [limit: 2] and a service that answers the first request
    ([count: 100], [skip: 0]) with its three fulfilled orders, the loop of
    [buildSerialIndex] leaves on the short page before it looks at the cap:
    one request is made, all three orders are collected and all three
    contribute an entry to the index. *)
Theorem buildSerialIndex_short_page_ignores_cap :
  let w := Sample.start Sample.smallShop [] in
  (@Client.fetchOrders Sample.smallShop 5 "Fulfilled" (Some 2%nat) 0 [] w).1
    = Return Sample.threeOrders
  ∧ List.length (remote (@Client.buildSerialIndex Sample.smallShop 5 None (Some 2%nat) w).2)
    = 1%nat
  ∧ ∃ serialIndex : gmap string SerialRecord,
      (@Client.buildSerialIndex Sample.smallShop 5 None (Some 2%nat) w).1
        = Return serialIndex
      ∧ size serialIndex = 3%nat
      ∧ sr_salesOrderId <$> (serialIndex !! "SN-C") = Some (JStr "3").
Proof.
  intros w. split; [reflexivity|]. split; [reflexivity|].
  exists (Client.indexOrders Sample.threeOrders).
  split; [reflexivity|]. split; [|reflexivity]. now vm_compute.
Qed.

(** ** The gateway leaves the cache and the flags alone *)

Section Frame.
Context `{Env}.

Lemma connect_sameCaching (w : World) : sameCaching w (Client.connect w).2.
Proof.
  unfold Client.connect, sameCaching.
  destruct (connected w); [easy|].
  destruct (JsString.truthy INFLOW_API_KEY); [|easy].
  destruct (JsString.truthy INFLOW_COMPANY_ID); [|easy].
  simpl. now destruct (spawn (remote w)) as [[[]|message|] r].
Qed.

Lemma callTool_sameCaching name args (w : World) :
  sameCaching w (Client.callTool name args w).2.
Proof.
  unfold Client.callTool, bind, lift, Client.transport.
  pose proof (connect_sameCaching w) as Hc.
  destruct (Client.connect w) as [[[]|message|] w1]; simpl in *; [|exact Hc|exact Hc].
  destruct (invoke name args (remote w1)) as [[result|message|] r]; simpl; exact Hc.
Qed.

End Frame.

(** ** C3: purge on success only *)

(** C3. Every write accessor forwards to its remote operation first. When
    that call returns, the accessor returns its result and the cache is the
    cache as it was with the accessor's patterns purged one after the other;
    when it throws, the accessor throws the same error in the same state,
    and the cache, entries and counters alike, is the cache as it was before
    the call. *)
Theorem write_purges_on_success_only `{Env} (op : WriteOp) (data : Json) (w : World) :
  match Client.callTool (toolOf op) data w with
  | (Return result, w1) =>
      perform op data w
      = (Return result, setCache (purged (purges op data) (cache w)) w1)
  | (Throw message, w1) =>
      perform op data w = (Throw message, w1) ∧ cache w1 = cache w
  | (Diverge, w1) =>
      perform op data w = (Diverge, w1) ∧ cache w1 = cache w
  end.
Proof.
  pose proof (callTool_sameCaching (toolOf op) data w) as (Hcache & _ & _).
  destruct op; simpl in *;
    unfold Client.createStockAdjustment, Client.createStockTransfer,
      Client.createStockCount, Client.upsertProduct, Client.upsertVendor,
      Client.upsertPurchaseOrder, Client.receivePurchaseOrder,
      Client.unreceivePurchaseOrder, bind;
    destruct (Client.callTool _ data w) as [[result|message|] w1]; simpl in *;
    try (split; [reflexivity|exact Hcache]);
    rewrite <- Hcache;
    try reflexivity.
  destruct (Js.truthy (Js.prop "dryRun" data)); [now destruct w1|reflexivity].
Qed.

(** ** C9: a dry run purges nothing *)

(** C9. With a truthy [dryRun], [unreceivePurchaseOrder] is the remote call
    and nothing else, so the cache after it is the cache before it. With
    [dryRun] absent or false and a call that returns, the cache after it is
    the cache before it with [purchase_orders], [purchase_order:] and [stock]
    purged in this order; a call that throws purges nothing. *)
Theorem unreceivePurchaseOrder_dryRun_keeps_cache `{Env} (data : Json) (w : World) :
  if Js.truthy (Js.prop "dryRun" data) then
    Client.unreceivePurchaseOrder data w = Client.callTool "unreceive_purchase_order" data w
    ∧ cache (Client.unreceivePurchaseOrder data w).2 = cache w
  else
    match Client.callTool "unreceive_purchase_order" data w with
    | (Return result, w1) =>
        Client.unreceivePurchaseOrder data w
        = (Return result,
           setCache
             (Cache.invalidatePattern (Anchored "stock")
                (Cache.invalidatePattern (Anchored "purchase_order:")
                   (Cache.invalidatePattern (Anchored "purchase_orders") (cache w)).2).2).2
             w1)
    | failed =>
        Client.unreceivePurchaseOrder data w = failed
        ∧ cache (Client.unreceivePurchaseOrder data w).2 = cache w
    end.
Proof.
  pose proof (callTool_sameCaching "unreceive_purchase_order" data w) as (Hcache & _ & _).
  unfold Client.unreceivePurchaseOrder, bind.
  destruct (Js.truthy (Js.prop "dryRun" data));
    destruct (Client.callTool _ data w) as [[result|message|] w1]; simpl in *;
    try (split; [reflexivity|exact Hcache]).
  now rewrite <- Hcache.
Qed.

(** ** C7: [getStockLevels] fails fast *)

(** C7. Without a [productId] (absent, or the empty string),
    [getStockLevels] throws its validation error and the whole process state,
    cache entries, counters and remote service included, is as it was; with
    a non-empty [productId] it is the cached fetch of [get_inventory_summary]
    under the key of [stock] and that [productId], with the five-minute TTL
    and the client's bypass flag. *)
Theorem getStockLevels_fails_fast `{Env} (w : World) :
  let message := "productId is required for get_inventory_summary. " ++
                 "Use list-products first to get product IDs." in
  Client.getStockLevels None w = (Throw message, w)
  ∧ Client.getStockLevels (Some "") w = (Throw message, w)
  ∧ ∀ (c : ascii) (rest : string),
      let productId := String c rest in
      Client.getStockLevels (Some productId) w
      = getOrFetch (createCacheKey "stock" [("productId", JStr productId)])
          (Client.callTool "get_inventory_summary" (JObj [("productId", JStr productId)]))
          TTL.FIVE_MINUTES (cacheDisabled w) w.
Proof. intros message. split; [reflexivity|]. split; reflexivity. Qed.

Example getStockLevels_without_id_calls_nothing :
  let w := Sample.start Sample.steady [] in
  remote (@Client.getStockLevels Sample.steady None w).2 = []
  ∧ Cache.getStats (cache (@Client.getStockLevels Sample.steady None w).2) = (0, 0, 0)%nat
  ∧ remote (@Client.getStockLevels Sample.steady (Some "p1") w).2
    = [("get_inventory_summary", JObj [("productId", JStr "p1")])]
  ∧ Cache.getStats (cache (@Client.getStockLevels Sample.steady (Some "p1") w).2)
    = (0, 1, 1)%nat.
Proof. intros w. repeat split; now vm_compute. Qed.

(** ** C4: a stored value is served until its TTL has elapsed *)

Section Expiry.
Context `{Env}.

Lemma fresh_put (instant stored ttl : Z) key v (c : PluginCache) :
  Cache.fresh instant key (Cache.put stored ttl key v c)
  = if instant <? stored + ttl then Some v else None.
Proof.
  unfold Cache.fresh, Cache.put, Cache.withEntries. simpl.
  now rewrite lookup_insert_eq.
Qed.

(** What a first call that misses leaves behind. *)
Lemma getOrFetch_stores key producer ttl (w w1 : World) v :
  enabled (cache w) = true →
  Cache.fresh (now w) key (cache w) = None →
  getOrFetch key producer ttl false w = (Return v, w1) →
  ∃ w', producer (setCache (Cache.miss key (cache w)) w) = (Return v, w')
        ∧ w1 = setCache (Cache.put (now w') ttl key v (cache w')) w'.
Proof.
  intros Hon Hnone. unfold getOrFetch. rewrite Hon, Hnone. simpl.
  destruct (producer _) as [[v'|message|] w'] eqn:Hrun; intros [= <- <-].
  now exists w'.
Qed.

End Expiry.

(** C4. Caching enabled, no bypass, [ttl > 0]: when a call of
    [getOrFetch(key, producer, {ttl})] has missed and stored the value [v] its
    producer returned, a second call under the same key returns [v] and
    counts a hit without running its own producer, at once and as long as
    fewer than [ttl] seconds have passed; once [ttl] seconds have passed the
    second call counts a miss, evicts the entry and runs its own producer. *)
Theorem getOrFetch_serves_stored_value_until_ttl `{Env} (key : string)
    (producer : M Value) (ttl : Z) (w w1 : World) (v : Value) :
  0 < ttl →
  enabled (cache w) = true →
  Cache.fresh (now w) key (cache w) = None →
  getOrFetch key producer ttl false w = (Return v, w1) →
  enabled (cache w1) = true →
  ∀ (producer2 : M Value) (ttl2 : Z),
    getOrFetch key producer2 ttl2 false w1
    = (Return v, setCache (Cache.countHit (cache w1)) w1)
    ∧ (∀ dt, 0 ≤ dt < ttl →
         getOrFetch key producer2 ttl2 false (elapse dt w1)
         = (Return v, setCache (Cache.countHit (cache w1)) (elapse dt w1)))
    ∧ (∀ dt, ttl ≤ dt →
         getOrFetch key producer2 ttl2 false (elapse dt w1)
         = match producer2 (setCache (Cache.miss key (cache w1)) (elapse dt w1)) with
           | (Return v2, w2) =>
               (Return v2, setCache (Cache.put (now w2) ttl2 key v2 (cache w2)) w2)
           | failed => failed
           end).
Proof.
  intros Hpos Hon Hnone Hfirst Hon1 producer2 ttl2.
  destruct (getOrFetch_stores _ _ _ _ _ _ Hon Hnone Hfirst) as (w' & _ & ->).
  assert (Hat : ∀ dt,
    Cache.fresh (now w' + dt) key (Cache.put (now w') ttl key v (cache w'))
    = if dt <? ttl then Some v else None).
  { intros dt. rewrite fresh_put.
    destruct (Z.ltb_spec dt ttl), (Z.ltb_spec (now w' + dt) (now w' + ttl));
      (reflexivity || lia). }
  simpl in Hon1. split; [|split].
  - unfold getOrFetch. simpl. rewrite Hon1. simpl.
    specialize (Hat 0). rewrite Z.add_0_r in Hat. rewrite Hat.
    destruct (Z.ltb_spec 0 ttl); [reflexivity|lia].
  - intros dt [Hlo Hhi]. unfold getOrFetch. simpl. rewrite Hon1. simpl.
    rewrite Hat. destruct (Z.ltb_spec dt ttl); [reflexivity|lia].
  - intros dt Hdt. unfold getOrFetch. simpl. rewrite Hon1. simpl.
    rewrite Hat. destruct (Z.ltb_spec dt ttl); [lia|reflexivity].
Qed.

Lemma getOrFetch_serves_stored_value_until_ttl_witness :
  @getOrFetch Sample.steady "p1" Sample.fetchB 60 false Sample.afterFirst
  = (Return Sample.pallet,
     setCache (Cache.countHit (cache Sample.afterFirst)) Sample.afterFirst)
  ∧ @getOrFetch Sample.steady "p1" Sample.fetchB 60 false (elapse 299 Sample.afterFirst)
    = (Return Sample.pallet,
       setCache (Cache.countHit (cache Sample.afterFirst)) (elapse 299 Sample.afterFirst))
  ∧ @getOrFetch Sample.steady "p1" Sample.fetchB 60 false (elapse 300 Sample.afterFirst)
    = match Sample.fetchB (setCache (Cache.miss "p1" (cache Sample.afterFirst))
                             (elapse 300 Sample.afterFirst)) with
      | (Return v2, w2) =>
          (Return v2, setCache (Cache.put (now w2) 60 "p1" v2 (cache w2)) w2)
      | failed => failed
      end.
Proof.
  destruct (@getOrFetch_serves_stored_value_until_ttl Sample.steady "p1"
              Sample.fetchA 300 (Sample.start Sample.steady []) Sample.afterFirst
              Sample.pallet eq_refl eq_refl eq_refl eq_refl eq_refl Sample.fetchB 60)
    as (Hnow & Hbefore & Hafter).
  split; [exact Hnow|]. split; [apply Hbefore; lia|apply Hafter; lia].
Defined.

(** The scenario of the spec: a miss, then a hit that ignores the second
    producer. *)
Example first_miss_then_hit :
  let second := @getOrFetch Sample.steady "p1" Sample.fetchB 300 false Sample.afterFirst in
  Cache.getStats (cache Sample.afterFirst) = (0, 1, 1)%nat
  ∧ second.1 = Return Sample.pallet
  ∧ Cache.getStats (cache second.2) = (1, 1, 1)%nat
  ∧ (@getOrFetch Sample.steady "p1" Sample.fetchB 300 false
       (elapse 300 Sample.afterFirst)).1
    = Throw "fetchB was invoked".
Proof. repeat split; now vm_compute. Qed.

(** ** C6: re-enabling the cache in the read-modify-write commands *)

Section Switches.
Context `{Env}.

Lemma keeps_ret {A} (a : A) : keepsSwitches (ret a).
Proof. now intros w. Qed.

Lemma keeps_lift {A} (o : Outcome A) : keepsSwitches (lift o).
Proof. now intros w. Qed.

Lemma keeps_bind {A B} (m : M A) (k : A → M B) :
  keepsSwitches m → (∀ a, keepsSwitches (k a)) → keepsSwitches (bind m k).
Proof.
  intros Hm Hk w. unfold bind. specialize (Hm w).
  destruct (m w) as [[a|message|] w1]; simpl in *; [|exact Hm|exact Hm].
  destruct (Hk a w1) as [H1 H2]. destruct Hm as [H3 H4]. split; congruence.
Qed.

Lemma keeps_callTool name args : keepsSwitches (Client.callTool name args).
Proof.
  intros w. destruct (callTool_sameCaching name args w) as (Hc & Hd & _).
  now rewrite Hc, Hd.
Qed.

Lemma keeps_invalidatePattern re : keepsSwitches (Client.invalidatePattern re).
Proof. now intros w. Qed.

Lemma keeps_readCacheDisabled : keepsSwitches Client.readCacheDisabled.
Proof. now intros w. Qed.

Lemma keeps_getOrFetch key producer ttl bypassCache :
  keepsSwitches producer → keepsSwitches (getOrFetch key producer ttl bypassCache).
Proof.
  intros Hp w. unfold getOrFetch.
  destruct (enabled (cache w) && negb bypassCache); [|apply Hp].
  destruct (Cache.fresh (now w) key (cache w)); [easy|].
  specialize (Hp (setCache (Cache.miss key (cache w)) w)).
  now destruct (producer _) as [[v|message|] w1].
Qed.

Lemma keeps_getProduct productId include :
  keepsSwitches (Client.getProduct productId include).
Proof.
  apply keeps_bind; [apply keeps_readCacheDisabled|].
  intros bypassCache. apply keeps_getOrFetch, keeps_callTool.
Qed.

Lemma keeps_getPurchaseOrder orderId include :
  keepsSwitches (Client.getPurchaseOrder orderId include).
Proof.
  apply keeps_bind; [apply keeps_readCacheDisabled|].
  intros bypassCache. apply keeps_getOrFetch, keeps_callTool.
Qed.

Lemma keeps_upsertProduct data : keepsSwitches (Client.upsertProduct data).
Proof.
  unfold Client.upsertProduct.
  repeat (apply keeps_bind; [first [apply keeps_callTool|apply keeps_invalidatePattern]|intros ?]).
  apply keeps_ret.
Qed.

Lemma keeps_upsertPurchaseOrder data : keepsSwitches (Client.upsertPurchaseOrder data).
Proof.
  unfold Client.upsertPurchaseOrder.
  repeat (apply keeps_bind; [first [apply keeps_callTool|apply keeps_invalidatePattern]|intros ?]).
  apply keeps_ret.
Qed.

(** The shape the three handlers share: disable, fetch, enable, then the
    rest. *)
Lemma disable_fetch_enable (fetch : M Value) (rest : Value → M Value) (w : World) :
  keepsSwitches fetch → (∀ current, keepsSwitches (rest current)) →
  let flow := (Client.disableCache ;;; let* current := fetch in
               Client.enableCache ;;; rest current) in
  match fetch (Client.disableCache w).2 with
  | (Return current, w1) =>
      cacheDisabled (flow w).2 = false ∧ enabled (cache (flow w).2) = true
  | (failed, w1) =>
      flow w = (failed, w1) ∧ cacheDisabled w1 = true ∧ enabled (cache w1) = false
  end.
Proof.
  intros Hfetch Hrest flow.
  assert (Hrun : flow w
                 = match fetch (Client.disableCache w).2 with
                   | (Return current, w1) => rest current (Client.enableCache w1).2
                   | failed => failed
                   end).
  { unfold flow, bind. simpl. now destruct (fetch _) as [[current|message|] w1]. }
  specialize (Hfetch (Client.disableCache w).2). simpl in Hfetch.
  destruct (fetch _) as [[current|message|] w1]; simpl in *; try easy.
  rewrite Hrun. apply Hrest.
Qed.

End Switches.

(** C6 as stated fails: when the remote reports an error on [get_product],
    [update-product] throws and the client's flag is still set. *)
Lemma update_product_leaves_cache_disabled :
  let after := @handler Sample.failing
                 (UpdateProduct "p" None None None JNull JNull)
                 (Sample.start Sample.failing []) in
  after.1 = Throw "remote failure" ∧ cacheDisabled after.2 ≠ false.
Proof. now vm_compute. Qed.

(** C6, amended. In each of [update-product], [add-po-item] and
    [update-purchase-order], caching is switched off, the fresh value is
    fetched, and caching is switched on again before anything else is done:
    when the fetch returns, the client's flag is false and the cache enabled
    after the command, whether the rest of it returns or throws; when the
    fetch throws, the command throws the same error at once, and the flag is
    still set and the cache still disabled. *)
Theorem flows_reenable_cache_after_fetch `{Env} (f : Flow) (w : World) :
  match freshFetch f (Client.disableCache w).2 with
  | (Return current, w1) =>
      cacheDisabled (handler f w).2 = false
      ∧ enabled (cache (handler f w).2) = true
  | (failed, w1) =>
      handler f w = (failed, w1)
      ∧ cacheDisabled w1 = true ∧ enabled (cache w1) = false
  end.
Proof.
  destruct f; simpl;
    unfold Cli.update_product, Cli.add_po_item, Cli.update_purchase_order.
  - apply disable_fetch_enable; [apply keeps_getProduct|].
    intros current.
    repeat (apply keeps_bind; [apply keeps_lift|intros ?]).
    apply keeps_upsertProduct.
  - apply disable_fetch_enable; [apply keeps_getPurchaseOrder|].
    intros current.
    repeat (apply keeps_bind; [apply keeps_lift|intros ?]).
    apply keeps_upsertPurchaseOrder.
  - apply disable_fetch_enable; [apply keeps_getPurchaseOrder|].
    intros current.
    repeat (apply keeps_bind; [apply keeps_lift|intros ?]).
    apply keeps_upsertPurchaseOrder.
Qed.

(** ** C8: what [callTool] makes of a result *)

Section Gateway.
Context `{Env}.

(** Once connected and answered, [callTool] is [readResult] of the answer. *)
Lemma callTool_answered name args (w w0 : World) (result : ToolResult) (r : Remote) :
  Client.connect w = (Return tt, w0) →
  invoke name args (remote w0) = (Return result, r) →
  Client.callTool name args w = (Client.readResult result, setRemote r w0).
Proof.
  intros Hconnect Hinvoke.
  unfold Client.callTool, bind, Client.transport, lift.
  now rewrite Hconnect, Hinvoke.
Qed.

Lemma readResult_throws_iff_flagged (result : ToolResult) :
  (∃ message, Client.readResult result = Throw message) ↔ isError result = true.
Proof.
  unfold Client.readResult. destruct (isError result); split; intros Hx.
  - reflexivity.
  - eauto.
  - destruct Hx as [message Hx].
    destruct (Client.truthyText _); [destruct (JSON_parse _)|]; discriminate.
  - discriminate.
Qed.

End Gateway.

(** C8 as stated fails: a result flagged as an error whose content has no
    text item supplies no message, and the error thrown carries the client's
    own [Tool call failed]. *)
Lemma callTool_error_without_remote_message :
  let result := {| isError := true; content := [] |} in
  isError result = true
  ∧ suppliedMessage result = None
  ∧ @Client.readResult Sample.steady result = Throw "Tool call failed"
  ∧ ¬ ∃ message, suppliedMessage result = Some message
                 ∧ @Client.readResult Sample.steady result = Throw message.
Proof.
  simpl. repeat split. intros [message [Hsupplied _]]. discriminate.
Qed.

(** C8, amended. Once the connection stands and the transport has answered,
    [callTool] throws exactly when the answer is flagged as an error; the
    error carries the text of the first text item of the content when that
    text is not empty, and [Tool call failed] otherwise. For an answer that
    is not flagged and whose first text item has a non-empty text, [callTool]
    returns the text parsed as JSON when parsing succeeds and the raw text
    when it fails: this path never throws. *)
Theorem callTool_reads_result `{Env} name args (w w0 : World)
    (result : ToolResult) (r : Remote) :
  Client.connect w = (Return tt, w0) →
  invoke name args (remote w0) = (Return result, r) →
  (Client.callTool name args w).2 = setRemote r w0
  ∧ ((∃ message, (Client.callTool name args w).1 = Throw message)
     ↔ isError result = true)
  ∧ (isError result = true →
     (Client.callTool name args w).1
     = Throw match suppliedMessage result with
             | Some (String c rest) => String c rest
             | _ => "Tool call failed"
             end)
  ∧ (isError result = false →
     ∀ (c : ascii) (rest : string),
       suppliedMessage result = Some (String c rest) →
       (Client.callTool name args w).1
       = Return match JSON_parse (String c rest) with
                | Some parsed => parsed
                | None => VJson (JStr (String c rest))
                end).
Proof.
  intros Hconnect Hinvoke.
  rewrite (callTool_answered _ _ _ _ _ _ Hconnect Hinvoke). simpl.
  split; [reflexivity|]. split; [apply readResult_throws_iff_flagged|].
  unfold Client.readResult, suppliedMessage, Client.truthyText, Client.findText.
  split.
  - intros ->. destruct (List.find _ _) as [item|]; [|reflexivity].
    now destruct (text item) as [[|c rest]|].
  - intros -> c rest Htext.
    destruct (List.find _ _) as [item|]; [|discriminate].
    rewrite Htext. simpl. now destruct (JSON_parse _).
Qed.

Lemma callTool_reads_result_witness :
  (@Client.callTool Sample.garbled "get_product" (JObj [])
     (Sample.start Sample.garbled [])).2
  = @setRemote Sample.garbled [("get_product", JObj [])]
      (setConnected true (Sample.start Sample.garbled []))
  ∧ ((∃ message,
        (@Client.callTool Sample.garbled "get_product" (JObj [])
           (Sample.start Sample.garbled [])).1 = Throw message)
     ↔ false = true)
  ∧ (false = true →
     (@Client.callTool Sample.garbled "get_product" (JObj [])
        (Sample.start Sample.garbled [])).1
     = Throw "not json")
  ∧ (false = false →
     ∀ (c : ascii) (rest : string),
       Some "not json" = Some (String c rest) →
       (@Client.callTool Sample.garbled "get_product" (JObj [])
          (Sample.start Sample.garbled [])).1
       = Return match @JSON_parse Sample.garbled (String c rest) with
                | Some parsed => parsed
                | None => VJson (JStr (String c rest))
                end).
Proof.
  apply (@callTool_reads_result Sample.garbled "get_product" (JObj [])
           (Sample.start Sample.garbled [])
           (setConnected true (Sample.start Sample.garbled []))
           (Sample.textResult false "not json")
           ([("get_product", JObj [])] : @Remote Sample.garbled)).
  - reflexivity.
  - reflexivity.
Defined.

Example callTool_falls_back_to_raw_text :
  (@Client.callTool Sample.garbled "get_product" (JObj [])
     (Sample.start Sample.garbled [])).1
  = Return (VJson (JStr "not json")).
Proof. reflexivity. Qed.

Example callTool_passes_remote_message :
  (@Client.callTool Sample.failing "get_product" (JObj [])
     (Sample.start Sample.failing [])).1
  = Throw "remote failure".
Proof. reflexivity. Qed.

(** * Further properties *)

(** ** Connection *)

(** X1. Without the API key or the company id in the environment, a call of
    the gateway on a client that is not connected throws the message naming
    the missing variable (the key first) and leaves the whole process state
    as it was: the transport is neither started nor invoked. *)
Theorem callTool_without_credentials `{Env} name args (w : World) :
  connected w = false →
  JsString.truthy INFLOW_API_KEY && JsString.truthy INFLOW_COMPANY_ID = false →
  Client.callTool name args w
  = (Throw ((if JsString.truthy INFLOW_API_KEY
             then "INFLOW_COMPANY_ID" else "INFLOW_API_KEY")
            ++ " environment variable is not set. "
            ++ "Please export it in your shell or add it to ~/.bashrc"), w).
Proof.
  intros Hoff Hmissing. unfold Client.callTool, bind, Client.connect.
  rewrite Hoff. destruct (JsString.truthy INFLOW_API_KEY); simpl in *; [|reflexivity].
  now rewrite Hmissing.
Qed.

Lemma callTool_without_credentials_witness :
  @Client.callTool SampleMore.noKey "get_product" (JObj [])
    (Sample.start SampleMore.noKey [])
  = (Throw ("INFLOW_API_KEY environment variable is not set. "
            ++ "Please export it in your shell or add it to ~/.bashrc"),
     Sample.start SampleMore.noKey []).
Proof.
  apply (@callTool_without_credentials SampleMore.noKey "get_product" (JObj [])
           (Sample.start SampleMore.noKey [])); reflexivity.
Defined.

Section Connected.
Context `{Env}.

Lemma connect_returns (w w0 : World) :
  Client.connect w = (Return tt, w0) → connected w0 = true.
Proof.
  unfold Client.connect. destruct (connected w) eqn:Hon; [now intros [= <-]|].
  destruct (JsString.truthy INFLOW_API_KEY); [|discriminate].
  destruct (JsString.truthy INFLOW_COMPANY_ID); [|discriminate]. simpl.
  destruct (spawn (remote w)) as [[[]|message|] r]; [|discriminate|discriminate].
  now intros [= <-].
Qed.

Lemma connect_when_connected (w : World) :
  connected w = true → Client.connect w = (Return tt, w).
Proof. intros Hon. unfold Client.connect. now rewrite Hon. Qed.

End Connected.

(** X2. The client connects once: after a call of the gateway that got an
    answer from the transport, whether a value or an error result, the client
    is connected, and from then on [connect] returns at once without touching
    the state, so that no later call starts the transport again. *)
Theorem callTool_connects_once `{Env} name args (w w' : World)
    (outcome : Outcome Value) (w0 : World) (answer : Outcome ToolResult) (r : Remote) :
  Client.connect w = (Return tt, w0) →
  invoke name args (remote w0) = (answer, r) →
  Client.callTool name args w = (outcome, w') →
  connected w' = true ∧ Client.connect w' = (Return tt, w').
Proof.
  intros Hconnect Hinvoke Hcall.
  assert (Hon : connected w' = true).
  { apply connect_returns in Hconnect as Hon0.
    unfold Client.callTool, bind, Client.transport, lift in Hcall.
    rewrite Hconnect, Hinvoke in Hcall.
    destruct answer; injection Hcall as _ <-; exact Hon0. }
  split; [exact Hon|now apply connect_when_connected].
Qed.

Lemma callTool_connects_once_witness :
  connected (@Client.callTool Sample.failing "get_product" (JObj [])
               (Sample.start Sample.failing [])).2 = true
  ∧ @Client.connect Sample.failing
      (@Client.callTool Sample.failing "get_product" (JObj [])
         (Sample.start Sample.failing [])).2
    = (Return tt,
       (@Client.callTool Sample.failing "get_product" (JObj [])
          (Sample.start Sample.failing [])).2).
Proof.
  apply (@callTool_connects_once Sample.failing "get_product" (JObj [])
           (Sample.start Sample.failing []) _
           (Throw "remote failure")
           (setConnected true (Sample.start Sample.failing []))
           (Return (Sample.textResult true "remote failure"))
           ([("get_product", JObj [])] : @Remote Sample.failing));
    reflexivity.
Defined.

(** X3. An answer that is not flagged as an error and has no text item, or
    whose first text item is empty or without text, is returned as its
    content array, unparsed. *)
Theorem callTool_returns_content_without_text `{Env} name args (w w0 : World)
    (result : ToolResult) (r : Remote) :
  Client.connect w = (Return tt, w0) →
  invoke name args (remote w0) = (Return result, r) →
  isError result = false →
  suppliedMessage result = None ∨ suppliedMessage result = Some "" →
  Client.callTool name args w = (Return (VContent (content result)), setRemote r w0).
Proof.
  intros Hconnect Hinvoke Hok Hnone.
  rewrite (callTool_answered _ _ _ _ _ _ Hconnect Hinvoke). f_equal.
  unfold Client.readResult, suppliedMessage, Client.truthyText, Client.findText in *.
  rewrite Hok. destruct (List.find _ _) as [item|]; [|reflexivity].
  now destruct Hnone as [-> | ->].
Qed.

Lemma callTool_returns_content_without_text_witness :
  @Client.callTool SampleMore.silent "list_products" (JObj [])
    (Sample.start SampleMore.silent [])
  = (Return (VContent []),
     @setRemote SampleMore.silent [("list_products", JObj [])]
       (setConnected true (Sample.start SampleMore.silent []))).
Proof.
  apply (@callTool_returns_content_without_text SampleMore.silent "list_products"
           (JObj []) (Sample.start SampleMore.silent [])
           (setConnected true (Sample.start SampleMore.silent []))
           {| isError := false; content := [] |}
           ([("list_products", JObj [])] : @Remote SampleMore.silent)).
  - reflexivity.
  - reflexivity.
  - reflexivity.
  - left. reflexivity.
Defined.

(** ** What the write accessors purge *)

Section Purges.
Context `{Env}.

Lemma invalidatePattern_lookup re (c : PluginCache) key :
  entries (Cache.invalidatePattern re c).2 !! key
  = if test re key then None else entries c !! key.
Proof.
  unfold Cache.invalidatePattern. simpl. rewrite map_lookup_filter.
  destruct (entries c !! key) as [e|]; simpl; [|now destruct (test re key)].
  now destruct (test re key).
Qed.

Lemma purged_lookup res (c : PluginCache) key :
  entries (purged res c) !! key
  = if purgedBy res key then None else entries c !! key.
Proof.
  unfold purged, purgedBy. revert c.
  induction res as [|re res IH]; intros c; [reflexivity|].
  cbn [fold_left existsb]. rewrite IH, invalidatePattern_lookup.
  destruct (test re key); simpl; [now destruct (existsb _ res)|reflexivity].
Qed.

Lemma purged_counters res (c : PluginCache) :
  hits (purged res c) = hits c ∧ misses (purged res c) = misses c
  ∧ enabled (purged res c) = enabled c.
Proof.
  unfold purged. revert c. induction res as [|re res IH]; intros c; [easy|].
  cbn [fold_left].
  destruct (IH (Cache.invalidatePattern re c).2) as (-> & -> & ->). easy.
Qed.

Lemma perform_returns op data (w w1 : World) result :
  perform op data w = (Return result, w1) →
  cache w1 = purged (purges op data) (cache w).
Proof.
  pose proof (callTool_sameCaching (toolOf op) data w) as (Hcache & _ & _).
  destruct op; simpl in *;
    unfold Client.createStockAdjustment, Client.createStockTransfer,
      Client.createStockCount, Client.upsertProduct, Client.upsertVendor,
      Client.upsertPurchaseOrder, Client.receivePurchaseOrder,
      Client.unreceivePurchaseOrder, bind;
    destruct (Client.callTool _ data w) as [[result'|message|] w0]; simpl in *;
    try discriminate;
    try (intros [= _ <-]; simpl; now rewrite Hcache).
  destruct (Js.truthy (Js.prop "dryRun" data)); simpl;
    intros [= _ <-]; simpl; now rewrite Hcache.
Qed.

Lemma prefix_comparable (p q key : string) :
  String.prefix p key = true → String.prefix q key = true →
  String.prefix p q || String.prefix q p = true.
Proof.
  revert q key. induction p as [|a p IH]; intros q key; [now destruct q|].
  destruct q as [|b q]; [intros _ _; simpl; reflexivity|].
  destruct key as [|c key]; [discriminate|]. simpl.
  destruct (Ascii.ascii_dec a c) as [->|]; [|discriminate].
  destruct (Ascii.ascii_dec b c) as [->|]; [|discriminate].
  destruct (Ascii.ascii_dec c c); [|congruence]. apply IH.
Qed.

End Purges.

(** X4. When a write accessor returns, the cache holds exactly the entries
    it held before whose key none of the accessor's patterns matches, each
    unchanged; the hit and miss counters and the switch are as before. *)
Theorem write_purges_exactly_its_patterns `{Env} (op : WriteOp) (data : Json)
    (w w1 : World) (result : Value) (key : string) :
  perform op data w = (Return result, w1) →
  entries (cache w1) !! key
  = (if purgedBy (purges op data) key then None else entries (cache w) !! key)
  ∧ hits (cache w1) = hits (cache w)
  ∧ misses (cache w1) = misses (cache w)
  ∧ enabled (cache w1) = enabled (cache w).
Proof.
  intros Hrun. rewrite (perform_returns _ _ _ _ _ Hrun).
  split; [apply purged_lookup|apply purged_counters].
Qed.

(** A stock adjustment on a cache that holds a stock entry and a product
    entry: the first is gone, the second is kept as it was. *)
Lemma write_purges_exactly_its_patterns_witness :
  let after := (@perform Sample.steady CreateStockAdjustment (JObj [])
                  SampleMore.warm).2 in
  (entries (cache SampleMore.warm) !! "stock:productId=p1"
   = Some {| value := Sample.pallet; expiresAt := 300 |}
   ∧ entries (cache after) !! "stock:productId=p1" = None)
  ∧ (entries (cache SampleMore.warm) !! "product:id=p1,include"
     = Some {| value := Sample.pallet; expiresAt := 900 |}
     ∧ entries (cache after) !! "product:id=p1,include"
       = Some {| value := Sample.pallet; expiresAt := 900 |})
  ∧ hits (cache after) = 0%nat
  ∧ misses (cache after) = 2%nat
  ∧ enabled (cache after) = true.
Proof.
  intros after.
  destruct (@write_purges_exactly_its_patterns Sample.steady CreateStockAdjustment
              (JObj []) SampleMore.warm after Sample.pallet "stock:productId=p1"
              eq_refl) as (Hstock & Hhits & Hmisses & Hon).
  destruct (@write_purges_exactly_its_patterns Sample.steady CreateStockAdjustment
              (JObj []) SampleMore.warm after Sample.pallet "product:id=p1,include"
              eq_refl) as (Hproduct & _).
  split; [split; [reflexivity|exact Hstock]|].
  split; [split; [reflexivity|exact Hproduct]|].
  split; [exact Hhits|]. split; [exact Hmisses|exact Hon].
Defined.

(** X5. No write accessor invalidates a serial cache or a reference list: an
    entry whose key begins with [serial_index], [product_serials],
    [all_serials], [categories], [location], [adjustment_reasons],
    [sales_order] or [customers] is the same after any write that returns as
    before it, stock adjustments and receipts included. *)
Theorem writes_keep_serial_and_reference_entries `{Env} (op : WriteOp) (data : Json)
    (w w1 : World) (result : Value) (key : string) :
  perform op data w = (Return result, w1) →
  existsb (λ p, JsString.startsWith p key) keptPrefixes = true →
  entries (cache w1) !! key = entries (cache w) !! key.
Proof.
  intros Hrun Hkept. rewrite (perform_returns _ _ _ _ _ Hrun), purged_lookup.
  assert (Hnone : ∀ q, In (Anchored q) (purges op data) →
                       JsString.startsWith q key = false).
  { intros q Hq. destruct (JsString.startsWith q key) eqn:Hqk; [|reflexivity].
    apply existsb_exists in Hkept as (p & Hp & Hpk).
    pose proof (prefix_comparable p q key Hpk Hqk) as Hcmp.
    assert (Hops : In (Anchored q)
                     [Anchored "stock"; Anchored "products"; Anchored "product:";
                      Anchored "products_search"; Anchored "product_bom";
                      Anchored "bom"; Anchored "vendors";
                      Anchored "purchase_orders"; Anchored "purchase_order:"]).
    { destruct op; simpl in Hq;
        try destruct (Js.truthy (Js.prop "dryRun" data));
        simpl in *; intuition. }
    simpl in Hp, Hops.
    repeat (destruct Hp as [<-|Hp]);
      try (repeat (destruct Hops as [[= <-]|Hops]); try discriminate Hcmp;
           now destruct Hops).
    destruct Hp. }
  destruct (purgedBy (purges op data) key) eqn:Hpurged; [|reflexivity].
  unfold purgedBy in Hpurged. apply existsb_exists in Hpurged as ([q] & Hq & Hqk).
  unfold test in Hqk. now rewrite (Hnone q Hq) in Hqk.
Qed.

Lemma writes_keep_serial_and_reference_entries_witness :
  entries (cache (@perform Sample.datedShop ReceivePurchaseOrder (JObj [])
                    SampleMore.indexed).2) !! "serial_index"
  = entries (cache SampleMore.indexed) !! "serial_index".
Proof.
  apply (@writes_keep_serial_and_reference_entries Sample.datedShop
           ReceivePurchaseOrder (JObj []) SampleMore.indexed _
           (VPage (PageData Sample.twoCopies)));
    reflexivity.
Defined.

(** ** Reads after writes, and reads with the cache off *)

(** X6. Read-your-writes for stock levels: provided the key builder starts
    the key of a [stock] lookup with [stock], after a write accessor that
    purges [/^stock/] has returned, the next [getStockLevels] of any product
    is a miss: it counts the miss, asks the service and stores the answer
    anew. *)
Theorem stock_read_after_write_refetches `{Env} (op : WriteOp) (data : Json)
    (w w1 : World) (result : Value) (c : ascii) (rest : string) :
  let productId := String c rest in
  let key := createCacheKey "stock" [("productId", JStr productId)] in
  perform op data w = (Return result, w1) →
  purgedBy (purges op data) key = true →
  enabled (cache w1) = true →
  cacheDisabled w1 = false →
  entries (cache w1) !! key = None
  ∧ Client.getStockLevels (Some productId) w1
    = match Client.callTool "get_inventory_summary"
              (JObj [("productId", JStr productId)])
              (setCache (Cache.miss key (cache w1)) w1) with
      | (Return v, w2) =>
          (Return v, setCache (Cache.put (now w2) TTL.FIVE_MINUTES key v (cache w2)) w2)
      | failed => failed
      end.
Proof.
  intros productId key Hrun Hpurged Hon Hflag.
  assert (Hgone : entries (cache w1) !! key = None).
  { rewrite (perform_returns _ _ _ _ _ Hrun), purged_lookup. now rewrite Hpurged. }
  split; [exact Hgone|].
  unfold Client.getStockLevels, productId. simpl.
  unfold bind, Client.readCacheDisabled, getOrFetch. rewrite Hflag, Hon. simpl.
  unfold Cache.fresh. fold productId. fold key. now rewrite Hgone.
Qed.

(** The stock levels of [p1] are cached, then a stock adjustment is made:
    the entry is gone and the next read asks the service. *)
Lemma stock_read_after_write_refetches_witness :
  let key := @createCacheKey Sample.steady "stock" [("productId", JStr "p1")] in
  let w1 := (@perform Sample.steady CreateStockAdjustment (JObj [])
               SampleMore.warm).2 in
  entries (cache SampleMore.warm) !! key
  = Some {| value := Sample.pallet; expiresAt := 300 |}
  ∧ entries (cache w1) !! key = None
  ∧ @Client.getStockLevels Sample.steady (Some "p1") w1
    = match @Client.callTool Sample.steady "get_inventory_summary"
              (JObj [("productId", JStr "p1")])
              (setCache (Cache.miss key (cache w1)) w1) with
      | (Return v, w2) =>
          (Return v, setCache (Cache.put (now w2) TTL.FIVE_MINUTES key v (cache w2)) w2)
      | failed => failed
      end
  ∧ List.length (remote (@Client.getStockLevels Sample.steady (Some "p1") w1).2)
    = S (List.length (remote w1)).
Proof.
  intros key w1.
  destruct (@stock_read_after_write_refetches Sample.steady CreateStockAdjustment
              (JObj []) SampleMore.warm w1 Sample.pallet "p"%char "1"
              eq_refl eq_refl eq_refl eq_refl) as [Hgone Hread].
  split; [reflexivity|]. split; [exact Hgone|]. split; [exact Hread|reflexivity].
Defined.

(** X7. The fetch of each read-modify-write command goes to the service
    whatever the cache holds: with caching switched off by the command, the
    accessor is the remote call itself, and the cache it leaves has the
    entries and counters it had, switched off. *)
Theorem flows_fetch_from_the_service `{Env} (f : Flow) (w : World) :
  freshFetch f (Client.disableCache w).2 = freshCall f (Client.disableCache w).2
  ∧ cache (freshFetch f (Client.disableCache w).2).2 = Cache.disable (cache w).
Proof.
  assert (Hsame : freshFetch f (Client.disableCache w).2
                  = freshCall f (Client.disableCache w).2)
    by (destruct f; reflexivity).
  split; [exact Hsame|]. rewrite Hsame.
  destruct f; simpl;
    match goal with
    | |- cache (Client.callTool ?n ?a ?w0).2 = _ =>
        destruct (callTool_sameCaching n a w0) as (-> & _ & _)
    end; reflexivity.
Qed.

(** ** The index builder and the cache *)

Section BuilderFrame.
Context `{Env}.

Lemma requestPage_sameCaching status skip (w : World) :
  sameCaching w (requestPage status skip w).2.
Proof.
  unfold requestPage, bind, lift.
  pose proof (callTool_sameCaching "list_sales_orders"
    (JObj [("status", JStr status);
           ("include", Client.strings ["lines"; "pickLines"; "packLines"]);
           ("count", JNum (Z.of_nat Client.pageSize));
           ("skip", JNum (Z.of_nat skip))]) w) as Hc.
  now destruct (Client.callTool _ _ w) as [[result|message|] w1].
Qed.

Lemma fetchOrders_sameCaching fuel status maxOrders skip allOrders (w : World) :
  sameCaching w (Client.fetchOrders fuel status maxOrders skip allOrders w).2.
Proof.
  revert skip allOrders w. induction fuel as [|fuel IH]; intros skip allOrders w;
    [easy|].
  rewrite fetchOrders_step.
  pose proof (requestPage_sameCaching status skip w) as Hc.
  destruct (requestPage status skip w) as [[orderList|message|] w1]; simpl in Hc;
    [|exact Hc|exact Hc].
  destruct (List.length orderList <? Client.pageSize)%nat; [exact Hc|].
  destruct (Client.capReached maxOrders (allOrders ++ orderList)); [exact Hc|].
  destruct (IH (skip + Client.pageSize)%nat (allOrders ++ orderList)%list w1)
    as (H1 & H2 & H3).
  destruct Hc as (H4 & H5 & H6). repeat split; congruence.
Qed.

Lemma buildSerialIndex_sameCaching fuel status limit (w : World) :
  sameCaching w (Client.buildSerialIndex fuel status limit w).2.
Proof.
  unfold Client.buildSerialIndex, bind, ret.
  pose proof (fetchOrders_sameCaching fuel (Client.statusOr status) limit 0 [] w) as Hc.
  now destruct (Client.fetchOrders _ _ _ _ _ w) as [[allOrders|message|] w1].
Qed.

End BuilderFrame.

(** X8. [buildSerialIndex], and with it the command [build-serial-index],
    never reads or writes the cache: whatever the outcome, the cache, its
    entries and counters, is the one it started with. The index it returns is
    not stored under [serial_index]. *)
Theorem buildSerialIndex_stores_nothing `{Env} fuel status limit (w : World) :
  cache (Client.buildSerialIndex fuel status limit w).2 = cache w
  ∧ cache (CliMore.build_serial_index fuel limit w).2 = cache w.
Proof.
  split; [apply buildSerialIndex_sameCaching|].
  unfold CliMore.build_serial_index, bind, ret.
  pose proof (buildSerialIndex_sameCaching fuel None limit w) as (Hc & _ & _).
  now destruct (Client.buildSerialIndex _ _ _ w) as [[index|message|] w1].
Qed.

(** ** Searching the order-based index *)

(** X9. A search in the index of a list of orders finds exactly the serials
    the orders carry: a found record is the entry of the first serial standing
    on them, in reading order, whose trimmed upper-cased form is that of the
    query, and a search that finds nothing reports the normalized query, while
    no order carries a serial with that trimmed upper-cased form. *)
Theorem lookupSerial_finds_exactly_the_occurring (allOrders : list Order)
    (query : string) :
  match Client.lookupSerial (Client.indexOrders allOrders) query with
  | Client.Found r =>
      serial r = JsString.toUpperCase (JsString.trim query)
      ∧ firstWriter (JsString.toUpperCase (JsString.trim query)) allOrders = Some r
      ∧ ∃ order s, In order allOrders ∧ carries order s
                   ∧ JsString.toUpperCase (JsString.trim s)
                     = JsString.toUpperCase (JsString.trim query)
                   ∧ sr_salesOrderId r = salesOrderId order
  | Client.NotFound s _ =>
      s = JsString.toUpperCase (JsString.trim query)
      ∧ ∀ order t, In order allOrders → carries order t →
                   JsString.toUpperCase (JsString.trim t)
                   ≠ JsString.toUpperCase (JsString.trim query)
  end.
Proof.
  unfold Client.lookupSerial. rewrite indexOrders_firstWriter.
  unfold Client.normalize, firstWriter, standingOnAll.
  destruct (List.find _ _) as [o|] eqn:Hfind; simpl.
  - apply find_some in Hfind as [Hin Heq]. apply String.eqb_eq in Heq.
    split; [reflexivity|]. split; [reflexivity|].
    apply in_flat_map in Hin as (order & Horder & Hin).
    exists order, (occ_serial o). split; [exact Horder|].
    split; [apply carries_standing; now exists o|]. split; [exact Heq|].
    now rewrite (standingOn_order _ _ Hin).
  - split; [reflexivity|]. intros order t Horder (o & Hin & <-)%carries_standing Heq.
    assert (Hall : In o (flat_map standingOn allOrders))
      by (apply in_flat_map; now exists order).
    pose proof (find_none _ _ Hfind o Hall) as Hno. simpl in Hno.
    rewrite Heq, String.eqb_refl in Hno. discriminate.
Qed.

Example twoCopies_search :
  Client.lookupSerial (Client.indexOrders Sample.twoCopies) " abc123"
  = Client.Found {| serial := "ABC123"; sr_salesOrderId := JStr "late";
                    sr_orderNumber := JStr "SO-late";
                    sr_orderDate := JStr "2024-12-31";
                    sr_productId := JStr "p1"; shopifyOrderUrl := JNull |}.
Proof. reflexivity. Qed.

(** ** The cap and the pages *)

Section Cap.
Context `{Env}.

Lemma fetchOrders_zero_cap fuel status skip allOrders (w : World) :
  Client.fetchOrders fuel status (Some 0%nat) skip allOrders w
  = Client.fetchOrders fuel status None skip allOrders w.
Proof.
  revert skip allOrders w. induction fuel as [|fuel IH]; intros skip allOrders w;
    [reflexivity|].
  rewrite !fetchOrders_step.
  destruct (requestPage status skip w) as [[orderList|message|] w1];
    [|reflexivity|reflexivity].
  destruct (List.length orderList <? Client.pageSize)%nat; [reflexivity|].
  simpl. apply IH.
Qed.

End Cap.

(** X10. A limit of zero is no limit: [buildSerialIndex] with [limit: 0]
    behaves, request for request, as without a limit. *)
Theorem buildSerialIndex_zero_limit_is_no_limit `{Env} fuel status (w : World) :
  Client.buildSerialIndex fuel status (Some 0%nat) w
  = Client.buildSerialIndex fuel status None w.
Proof.
  unfold Client.buildSerialIndex, bind. now rewrite fetchOrders_zero_cap.
Qed.

(** X11. When [buildSerialIndex] returns, it has requested the pages at
    skip 0, 100, 200, ... one after the other, each but the last holding at
    least 100 orders, and it has stopped in one of two ways: on a last page of
    fewer than 100 orders, indexing every order of every page, the limit not
    consulted; or on a page of at least 100 orders with the limit reached,
    indexing exactly the first [limit] orders. *)
Theorem buildSerialIndex_pages `{Env} fuel status limit (w w' : World)
    (serialIndex : gmap string SerialRecord) :
  Client.buildSerialIndex fuel status limit w = (Return serialIndex, w') →
  ∃ pages,
    paged (Client.statusOr status) 0 w pages w'
    ∧ ((List.length (List.last pages []) < Client.pageSize)%nat
       ∧ serialIndex = Client.indexOrders (concat pages)
       ∨ (Client.pageSize ≤ List.length (List.last pages []))%nat
         ∧ ∃ cap, limit = Some cap
                  ∧ serialIndex = Client.indexOrders (firstn cap (concat pages))
                  ∧ List.length (firstn cap (concat pages)) = cap).
Proof.
  intros Hbuild.
  apply buildSerialIndex_collected in Hbuild as (allOrders & Hfetch & ->).
  apply fetchOrders_exit in Hfetch as (pages & Hpaged & Hexit).
  exists pages. split; [exact Hpaged|]. simpl in Hexit.
  destruct Hexit as [[Hshort ->]|(Hfull & cap & -> & -> & Hlen)].
  - now left.
  - right. split; [exact Hfull|]. exists cap. now rewrite Hlen.
Qed.

(** A service with two pages of 100 orders and a third of 7: without a
    limit all three pages are requested and indexed; with [limit: 150] the
    build stops on the second page and indexes the first 150 orders. *)
Lemma buildSerialIndex_pages_witness :
  let shop := Sample.pagedShop Sample.threePages in
  let w := Sample.start shop [] in
  (∃ pages,
     @paged shop "Fulfilled" 0 w pages (@Client.buildSerialIndex shop 5 None None w).2
     ∧ ((List.length (List.last pages []) < Client.pageSize)%nat
        ∧ Client.indexOrders (Sample.numbered 0 207) = Client.indexOrders (concat pages)
        ∨ (Client.pageSize ≤ List.length (List.last pages []))%nat
          ∧ ∃ cap, None = Some cap
                   ∧ Client.indexOrders (Sample.numbered 0 207)
                     = Client.indexOrders (firstn cap (concat pages))
                   ∧ List.length (firstn cap (concat pages)) = cap))
  ∧ (∃ pages,
       @paged shop "Fulfilled" 0 w pages
         (@Client.buildSerialIndex shop 5 None (Some 150%nat) w).2
       ∧ ((List.length (List.last pages []) < Client.pageSize)%nat
          ∧ Client.indexOrders (Sample.numbered 0 150) = Client.indexOrders (concat pages)
          ∨ (Client.pageSize ≤ List.length (List.last pages []))%nat
            ∧ ∃ cap, Some 150%nat = Some cap
                     ∧ Client.indexOrders (Sample.numbered 0 150)
                       = Client.indexOrders (firstn cap (concat pages))
                     ∧ List.length (firstn cap (concat pages)) = cap)).
Proof.
  intros shop w. split.
  - apply (@buildSerialIndex_pages shop 5 None None w). by_evaluation.
  - apply (@buildSerialIndex_pages shop 5 None (Some 150%nat) w). by_evaluation.
Defined.

Example capped_build_stops_on_second_page :
  let shop := Sample.pagedShop Sample.threePages in
  let w := Sample.start shop [] in
  map (λ call : string * Json, Js.prop "skip" call.2)
      (remote (@Client.buildSerialIndex shop 5 None (Some 150%nat) w).2)
  = [JNum 0; JNum 100]
  ∧ (@Client.fetchOrders shop 5 "Fulfilled" (Some 150%nat) 0 [] w).1
    = Return (Sample.numbered 0 150)
  ∧ map (λ call : string * Json, Js.prop "skip" call.2)
        (remote (@Client.buildSerialIndex shop 5 None None w).2)
    = [JNum 0; JNum 100; JNum 200]
  ∧ (@Client.fetchOrders shop 5 "Fulfilled" None 0 [] w).1
    = Return (Sample.numbered 0 207).
Proof. intros shop w. repeat split; by_evaluation. Qed.

(** X25. A [null] among the orders processed makes [buildSerialIndex]
    throw: when the service has served its pages and one of the orders
    processed is [null], the build makes all its requests and then throws the
    TypeError of reading [packLines] of [null]; no index is returned. *)
Theorem buildSerialIndex_null_element_throws `{Env} fuel status limit
    (w w' : World) (pages : list (list Order)) :
  served (Client.statusOr status) limit pages 0 0 w w' →
  (List.length pages ≤ fuel)%nat →
  Exists (λ order, isNull order = true) (processed limit pages) →
  Client.buildSerialIndex fuel status limit w
  = (Throw "Cannot read properties of null (reading 'packLines')", w').
Proof.
  intros Hserved Hfuel Hnull. unfold Client.buildSerialIndex, bind, lift.
  rewrite (served_processed _ _ _ _ _ _ Hserved Hfuel).
  now rewrite (indexEach_throws _ _ Hnull).
Qed.

Lemma buildSerialIndex_null_element_throws_witness :
  let w := Sample.start SampleMore.holed [] in
  @Client.buildSerialIndex SampleMore.holed 5 None None w
  = (Throw "Cannot read properties of null (reading 'packLines')",
     (@Client.buildSerialIndex SampleMore.holed 5 None None w).2).
Proof.
  intros w.
  apply (@buildSerialIndex_null_element_throws SampleMore.holed 5 None None w _
           [[Sample.orderOf "1" "2024-06-01" (Some [Sample.lineOf "p1" ["sn-1"]])
               None None;
             Client.nullOrder]]).
  - split; [reflexivity|]. split; [reflexivity|]. left. simpl. lia.
  - simpl. lia.
  - right. left. reflexivity.
Defined.

Example opaque_page_with_null_throws :
  let w := Sample.start SampleMore.holedJson [] in
  (@Client.buildSerialIndex SampleMore.holedJson 5 None None w).1
  = Throw "Cannot read properties of null (reading 'packLines')"
  ∧ List.length (remote (@Client.buildSerialIndex SampleMore.holedJson 5 None None w).2)
    = 1%nat.
Proof. split; reflexivity. Qed.

(** ** The cached order-based index *)

Section CachedIndex.
Context `{Env}.

Lemma searchSerial_miss fuel serial (w : World) :
  enabled (cache w) = true →
  cacheDisabled w = false →
  Cache.fresh (now w) "serial_index" (cache w) = None →
  Client.searchSerial fuel serial w
  = match Client.buildSerialIndex fuel None None
            (setCache (Cache.miss "serial_index" (cache w)) w) with
    | (Return index, w') =>
        (Return (Client.lookupSerial index serial),
         setCache (Cache.put (now w') TTL.HOUR "serial_index" (VIndex index) (cache w')) w')
    | (Throw message, w') => (Throw message, w')
    | (Diverge, w') => (Diverge, w')
    end.
Proof.
  intros Hon Hflag Hnone.
  unfold Client.searchSerial, bind, Client.readCacheDisabled, getOrFetch, ret.
  rewrite Hflag, Hon. simpl. rewrite Hnone.
  now destruct (Client.buildSerialIndex _ _ _ _) as [[index|message|] w'].
Qed.

End CachedIndex.

(** X12. A failed build is not cached: with caching on and no unexpired
    index stored, when the build behind [searchSerial] throws, [searchSerial]
    throws the same error, the miss is counted, and no entry is left under
    [serial_index], so that the next search builds again. *)
Theorem searchSerial_failed_build_is_not_cached `{Env} fuel serial (w w' : World)
    (message : string) :
  enabled (cache w) = true →
  cacheDisabled w = false →
  Cache.fresh (now w) "serial_index" (cache w) = None →
  Client.buildSerialIndex fuel None None
    (setCache (Cache.miss "serial_index" (cache w)) w) = (Throw message, w') →
  Client.searchSerial fuel serial w = (Throw message, w')
  ∧ entries (cache w') !! "serial_index" = None
  ∧ misses (cache w') = S (misses (cache w))
  ∧ Cache.fresh (now w') "serial_index" (cache w') = None.
Proof.
  intros Hon Hflag Hnone Hbuild.
  rewrite (searchSerial_miss _ _ _ Hon Hflag Hnone), Hbuild.
  pose proof (buildSerialIndex_sameCaching fuel None None
                (setCache (Cache.miss "serial_index" (cache w)) w)) as (Hc & _ & _).
  rewrite Hbuild in Hc. simpl in Hc.
  assert (Hgone : entries (cache w') !! "serial_index" = None).
  { rewrite Hc. simpl. apply lookup_delete_eq. }
  split; [reflexivity|]. split; [exact Hgone|]. split; [now rewrite Hc|].
  unfold Cache.fresh. now rewrite Hgone.
Qed.

Lemma searchSerial_failed_build_is_not_cached_witness :
  let w := Sample.start Sample.failing [] in
  let w' := (@Client.buildSerialIndex Sample.failing 5 None None
               (setCache (Cache.miss "serial_index" (cache w)) w)).2 in
  @Client.searchSerial Sample.failing 5 "abc123" w = (Throw "remote failure", w')
  ∧ entries (cache w') !! "serial_index" = None
  ∧ misses (cache w') = S (misses (cache w))
  ∧ Cache.fresh (now w') "serial_index" (cache w') = None.
Proof.
  apply (@searchSerial_failed_build_is_not_cached Sample.failing 5 "abc123"
           (Sample.start Sample.failing [])); reflexivity.
Defined.

(** X13. The index is built once an hour: with caching on and no unexpired
    index stored, when a [searchSerial] has returned, every search within the
    next 3600 seconds, for any serial, is answered from the index that search
    built; it counts a hit and asks the service nothing (it needs no page
    budget at all), the service being left as it was. *)
Theorem searchSerial_reuses_the_index `{Env} fuel serial (w w1 : World)
    (found : Client.SearchResult) :
  enabled (cache w) = true →
  cacheDisabled w = false →
  Cache.fresh (now w) "serial_index" (cache w) = None →
  Client.searchSerial fuel serial w = (Return found, w1) →
  ∃ index : gmap string SerialRecord,
    found = Client.lookupSerial index serial
    ∧ ∀ (serial' : string) (dt : Z), 0 ≤ dt < 3600 →
        Client.searchSerial 0 serial' (elapse dt w1)
        = (Return (Client.lookupSerial index serial'),
           setCache (Cache.countHit (cache w1)) (elapse dt w1)).
Proof.
  intros Hon Hflag Hnone. rewrite (searchSerial_miss _ _ _ Hon Hflag Hnone).
  pose proof (buildSerialIndex_sameCaching fuel None None
                (setCache (Cache.miss "serial_index" (cache w)) w)) as (Hc & Hd & _).
  destruct (Client.buildSerialIndex _ _ _ _) as [[index|message|] w'];
    [|discriminate|discriminate].
  simpl in Hc, Hd. intros [= <- <-]. exists index. split; [reflexivity|].
  intros serial' dt [Hlo Hhi].
  unfold Client.searchSerial, bind, Client.readCacheDisabled, getOrFetch, ret. simpl.
  rewrite Hd, Hflag, Hc. simpl. rewrite Hon. simpl.
  pose proof (fresh_put (now w' + dt) (now w') TTL.HOUR "serial_index"
                (VIndex index) (cache w')) as Hfresh.
  rewrite Hc in Hfresh. simpl in Hfresh. unfold Cache.put in Hfresh. simpl in Hfresh.
  unfold Cache.fresh in *. simpl in *.
  rewrite lookup_insert_eq. simpl.
  destruct (Z.ltb_spec (now w' + dt) (now w' + TTL.HOUR)) as [_|Hge];
    [reflexivity|unfold TTL.HOUR in Hge; lia].
Qed.

Lemma searchSerial_reuses_the_index_witness :
  ∃ index : gmap string SerialRecord,
    Client.lookupSerial (Client.indexOrders Sample.twoCopies) "abc123"
    = Client.lookupSerial index "abc123"
    ∧ @Client.searchSerial Sample.datedShop 0 "zzz" (elapse 3599 SampleMore.indexed)
      = (Return (Client.lookupSerial index "zzz"),
         setCache (Cache.countHit (cache SampleMore.indexed))
           (elapse 3599 SampleMore.indexed)).
Proof.
  destruct (@searchSerial_reuses_the_index Sample.datedShop 5 "abc123"
              (Sample.start Sample.datedShop []) SampleMore.indexed
              (Client.lookupSerial (Client.indexOrders Sample.twoCopies) "abc123")
              eq_refl eq_refl eq_refl eq_refl) as (index & Hfound & Hlater).
  exists index. split; [exact Hfound|]. apply Hlater. lia.
Defined.

(** ** One order seen by both extractions *)

Section BothExtractions.

Lemma In_firstSeen (x : string) (l : list string) : In x (firstSeen l) ↔ In x l.
Proof.
  induction l as [|s l IH]; simpl; [reflexivity|].
  rewrite filter_In, IH. destruct (String.eqb_spec x s) as [->|Hne]; simpl.
  - intuition.
  - intuition congruence.
Qed.

Lemma firstNormalized_Some key occs :
  is_Some (firstNormalized key occs)
  ↔ ∃ o, In o occs ∧ Client.normalize (occ_serial o) = key.
Proof.
  unfold firstNormalized. split.
  - intros [o Hfind]. apply find_some in Hfind as [Hin Heq].
    apply String.eqb_eq in Heq. now exists o.
  - intros (o & Hin & Heq). destruct (List.find _ occs) as [o'|] eqn:Hfind; [eauto|].
    pose proof (find_none _ _ Hfind o Hin) as Hno. simpl in Hno.
    rewrite Heq, String.eqb_refl in Hno. discriminate.
Qed.




End BothExtractions.

(** X14. The two extractions agree on one order: the keys of the index
    built from an order alone are exactly the trimmed upper-cased forms of
    the serials [getSalesOrderSerials] lists for it. *)
Theorem index_keys_are_normalized_order_serials (order : Order) :
  dom (Client.indexOrders [order])
  = list_to_set (map (λ r, Client.normalize (Client.os_serial r))
                     (Client.serials (Client.serialsOfOrder order))).
Proof.
  apply set_eq. intros key.
  rewrite elem_of_dom, indexOrders_lookup, fmap_is_Some,
    firstNormalized_Some, elem_of_list_to_set.
  unfold occurrences. cbn [flat_map]. rewrite app_nil_r.
  destruct (serialsOfOrder_keyed_by_raw_string order) as (Hkeys & _ & _).
  rewrite <- (map_map Client.os_serial Client.normalize), Hkeys.
  rewrite list_elem_of_In, in_map_iff. split.
  - intros (o & Hin & Heq). exists (occ_serial o). split; [exact Heq|].
    apply In_firstSeen, in_map_iff. now exists o.
  - intros (raw & Heq & Hin). apply In_firstSeen, in_map_iff in Hin as (o & <- & Hin).
    now exists o.
Qed.



(** ** The product-based index *)

Section ProductIndex.

Lemma assoc_assign key k v fields :
  Js.assoc key (JsValue.assign k v fields)
  = if String.eqb k key then v else Js.assoc key fields.
Proof.
  induction fields as [|[k' old] rest IH]; simpl; [reflexivity|].
  destruct (String.eqb_spec k' k) as [->|Hk]; simpl.
  - now destruct (String.eqb k key).
  - rewrite IH. destruct (String.eqb_spec k' key) as [->|Hkey]; [|reflexivity].
    destruct (String.eqb_spec k key); [congruence|reflexivity].
Qed.

Lemma find_append {A} (f : A → bool) (l1 l2 : list A) :
  List.find f (l1 ++ l2)
  = match List.find f l1 with
    | Some x => Some x
    | None => List.find f l2
    end.
Proof.
  induction l1 as [|x l1 IH]; simpl; [reflexivity|]. now destruct (f x).
Qed.

(** The loop on a well-formed listing is a fold of assignments. *)
Lemma indexSerials_listed `{Env} (l : list ListedSerial) serialIndex :
  ClientMore.indexSerials (map listedJson l) serialIndex
  = Return (fold_left
              (λ acc p, JsValue.assign (Client.normalize (ls_serial p))
                          (JObj (listedFields p)) acc)
              l serialIndex).
Proof.
  revert serialIndex. induction l as [|p l IH]; intros serialIndex; [reflexivity|].
  cbn [map ClientMore.indexSerials fold_left]. simpl JsValue.andThen. apply IH.
Qed.

Lemma assoc_fold_listed key (l : list ListedSerial) serialIndex :
  Js.assoc key
    (fold_left
       (λ acc p, JsValue.assign (Client.normalize (ls_serial p))
                   (JObj (listedFields p)) acc)
       l serialIndex)
  = match lastListed key l with
    | Some p => JObj (listedFields p)
    | None => Js.assoc key serialIndex
    end.
Proof.
  unfold lastListed. revert serialIndex.
  induction l as [|p l IH]; intros serialIndex; [reflexivity|].
  cbn [fold_left rev]. rewrite IH, find_append.
  destruct (List.find _ (rev l)); [reflexivity|]. simpl. rewrite assoc_assign.
  now destruct (String.eqb (Client.normalize (ls_serial p)) key).
Qed.

Lemma productIndexOf_listed `{Env} (l : list ListedSerial) :
  ClientMore.productIndexOf (listingJson l)
  = Return (fold_left
              (λ acc p, JsValue.assign (Client.normalize (ls_serial p))
                          (JObj (listedFields p)) acc)
              l []).
Proof. unfold ClientMore.productIndexOf. simpl. apply indexSerials_listed. Qed.

Lemma indexSerials_malformed `{Env} (serials : list Json) serialIndex (bad : Json) :
  In bad serials → (∀ s, Js.prop "serial" bad ≠ JStr s) →
  ∃ message, ClientMore.indexSerials serials serialIndex = Throw message.
Proof.
  intros Hin Hbad. revert serialIndex.
  induction serials as [|x rest IH]; intros serialIndex; [destruct Hin|].
  cbn [ClientMore.indexSerials].
  destruct Hin as [->|Hin].
  - destruct bad; simpl; eauto;
      match goal with
      | |- context [Js.assoc "serial" ?f] =>
          specialize (Hbad); destruct (Js.assoc "serial" f) eqn:Hs; simpl; eauto;
          exfalso; eapply Hbad; simpl; exact Hs
      end.
  - destruct (JsValue.member "serial" x) as [raw|message|] eqn:Hm; simpl; eauto.
    + destruct (JsValue.trimUpper raw) as [k|message|] eqn:Ht; simpl; eauto.
      destruct raw; discriminate.
    + destruct x; discriminate.
Qed.

End ProductIndex.

(** X16. The product-based index is last-writer-wins: when the service
    answers [list_all_serials] with a well-formed listing,
    [buildSerialIndexFromProducts] returns an index whose property under a key
    is the entry of the last listed serial that normalizes to that key, where
    the order-based index keeps the first. *)
Theorem buildSerialIndexFromProducts_last_writer_wins `{Env} maxProducts
    (w w' : World) (l : list ListedSerial) :
  Client.callTool "list_all_serials"
    (JObj [("maxProducts", JNum (Z.of_nat (ClientMore.maxProductsOr maxProducts)))]) w
    = (Return (listingJson l), w') →
  ∃ serialIndex,
    ClientMore.buildSerialIndexFromProducts maxProducts w = (Return serialIndex, w')
    ∧ ∀ key, Js.assoc key serialIndex
             = match lastListed key l with
               | Some p => JObj (listedFields p)
               | None => JNull
               end.
Proof.
  intros Hcall. eexists. split.
  - unfold ClientMore.buildSerialIndexFromProducts, bind, lift.
    rewrite Hcall, productIndexOf_listed. reflexivity.
  - intros key. now rewrite assoc_fold_listed.
Qed.

Lemma buildSerialIndexFromProducts_last_writer_wins_witness :
  ∃ serialIndex,
    @ClientMore.buildSerialIndexFromProducts SampleMore.serialShop None
      (Sample.start SampleMore.serialShop [])
    = (Return serialIndex,
       (@Client.callTool SampleMore.serialShop "list_all_serials"
          (JObj [("maxProducts", JNum 100)])
          (Sample.start SampleMore.serialShop [])).2)
    ∧ ∀ key, Js.assoc key serialIndex
             = match lastListed key SampleMore.twiceListed with
               | Some p => JObj (listedFields p)
               | None => JNull
               end.
Proof.
  apply (@buildSerialIndexFromProducts_last_writer_wins SampleMore.serialShop None
           (Sample.start SampleMore.serialShop [])).
  reflexivity.
Defined.

(** X17. One malformed element fails the whole product-based build: when
    the [serials] array of the answer holds an element whose [serial] is not a
    string, [buildSerialIndexFromProducts] throws and returns no index, not
    even for the well-formed elements before it. *)
Theorem buildSerialIndexFromProducts_malformed_element `{Env} maxProducts
    (w w' : World) (serials : list Json) (rest : list (string * Json)) (bad : Json) :
  Client.callTool "list_all_serials"
    (JObj [("maxProducts", JNum (Z.of_nat (ClientMore.maxProductsOr maxProducts)))]) w
    = (Return (VJson (JObj (("serials", JArr serials) :: rest))), w') →
  In bad serials →
  (∀ s, Js.prop "serial" bad ≠ JStr s) →
  ∃ message,
    ClientMore.buildSerialIndexFromProducts maxProducts w = (Throw message, w').
Proof.
  intros Hcall Hin Hbad.
  destruct (indexSerials_malformed serials [] bad Hin Hbad) as [message Hthrow].
  exists message.
  unfold ClientMore.buildSerialIndexFromProducts, bind, lift. rewrite Hcall.
  unfold ClientMore.productIndexOf. simpl. now rewrite Hthrow.
Qed.

Lemma buildSerialIndexFromProducts_malformed_element_witness :
  ∃ message,
    @ClientMore.buildSerialIndexFromProducts SampleMore.brokenSerialShop None
      (Sample.start SampleMore.brokenSerialShop [])
    = (Throw message,
       (@Client.callTool SampleMore.brokenSerialShop "list_all_serials"
          (JObj [("maxProducts", JNum 100)])
          (Sample.start SampleMore.brokenSerialShop [])).2).
Proof.
  apply (@buildSerialIndexFromProducts_malformed_element SampleMore.brokenSerialShop
           None (Sample.start SampleMore.brokenSerialShop []) _
           SampleMore.brokenListing [] (JObj [("productId", JStr "p2")])).
  - reflexivity.
  - simpl. auto.
  - intros s. discriminate.
Defined.

(** X18. A search in the product-based index of a well-formed listing
    answers [found: true] with the fields of the last listed serial that
    normalizes like the query, and [found: false] with the normalized query
    when no listed serial does. *)
Theorem lookupProductSerial_on_listing `{Env} (l : list ListedSerial) :
  ∃ serialIndex,
    ClientMore.productIndexOf (listingJson l) = Return serialIndex
    ∧ ∀ query,
        ClientMore.lookupProductSerial serialIndex query
        = match lastListed (Client.normalize query) l with
          | Some p => JObj (("found", JBool true) :: listedFields p)
          | None =>
              JObj [("found", JBool false);
                    ("serial", JStr (Client.normalize query));
                    ("message",
                     JStr ("Serial number not found in product inventory. " ++
                           "May not exist or may be in a non-serialized product."))]
          end.
Proof.
  eexists. split; [apply productIndexOf_listed|].
  intros query. unfold ClientMore.lookupProductSerial.
  rewrite assoc_fold_listed.
  now destruct (lastListed (Client.normalize query) l).
Qed.

(** ** Serial numbers of a purchase order *)

Section PurchaseSerials.
Context `{Env}.

Lemma serialsOfLine_wellformed (l : PurchaseLine) :
  ClientMore.serialsOfLine (purchaseLineJson l) = Return (pushedOf l).
Proof.
  unfold ClientMore.serialsOfLine, purchaseLineJson, pushedOf.
  now destruct (pl_serialNumbers l) as [sns|].
Qed.

Lemma serialsOfLines_wellformed (ls : list PurchaseLine) serials :
  ClientMore.serialsOfLines (map purchaseLineJson ls) serials
  = Return (serials ++ flat_map pushedOf ls)%list.
Proof.
  revert serials. induction ls as [|l ls IH]; intros serials.
  - simpl. now rewrite app_nil_r.
  - cbn [map ClientMore.serialsOfLines flat_map].
    rewrite serialsOfLine_wellformed. simpl JsValue.andThen.
    now rewrite IH, <- app_assoc.
Qed.

Lemma purchaseSerialsOf_wellformed id number date status lines :
  ClientMore.purchaseSerialsOf (purchaseOrderJson id number date status lines)
  = Return {| ClientMore.purchaseOrderId := id;
              ClientMore.po_orderNumber := number;
              ClientMore.po_orderDate := date;
              ClientMore.po_status := status;
              ClientMore.po_serialCount :=
                List.length (flat_map pushedOf (default [] lines));
              ClientMore.po_serials := flat_map pushedOf (default [] lines) |}.
Proof.
  unfold ClientMore.purchaseSerialsOf, purchaseOrderJson.
  destruct lines as [ls|]; simpl; [|reflexivity].
  now rewrite serialsOfLines_wellformed.
Qed.

End PurchaseSerials.

(** X19. [getPurchaseOrderSerials] lists every element of every
    [serialNumbers] array of a well-formed purchase order, in document order,
    with the product and line it stands on: nothing is trimmed,
    deduplicated or skipped, so that a repeated serial is listed as often as
    it stands and a [null] or empty element is listed too, and [serialCount]
    is the total number of elements. A line without [quantity] and an order
    without [lines] contribute nothing. *)
Theorem getPurchaseOrderSerials_lists_every_element `{Env} (orderId : string)
    (w w' : World) (id number date status : Json)
    (lines : option (list PurchaseLine)) :
  Client.getPurchaseOrder orderId (Some ["lines"]) w
    = (Return (purchaseOrderJson id number date status lines), w') →
  ClientMore.getPurchaseOrderSerials orderId w
  = (Return {| ClientMore.purchaseOrderId := id;
               ClientMore.po_orderNumber := number;
               ClientMore.po_orderDate := date;
               ClientMore.po_status := status;
               ClientMore.po_serialCount :=
                 list_sum (map (λ l, List.length (default [] (pl_serialNumbers l)))
                               (default [] lines));
               ClientMore.po_serials := flat_map pushedOf (default [] lines) |},
     w').
Proof.
  intros Hfetch. unfold ClientMore.getPurchaseOrderSerials, bind, lift.
  rewrite Hfetch, purchaseSerialsOf_wellformed. do 3 f_equal.
  induction (default [] lines) as [|l ls IH]; simpl; [reflexivity|].
  rewrite length_app, IH. unfold pushedOf at 1. now rewrite length_map.
Qed.

Lemma getPurchaseOrderSerials_lists_every_element_witness :
  @ClientMore.getPurchaseOrderSerials SampleMore.purchaseShop "po1"
    (Sample.start SampleMore.purchaseShop [])
  = (Return {| ClientMore.purchaseOrderId := JStr "po1";
               ClientMore.po_orderNumber := JStr "PO-1";
               ClientMore.po_orderDate := JStr "2024-01-01";
               ClientMore.po_status := JStr "Open";
               ClientMore.po_serialCount :=
                 list_sum (map (λ l, List.length (default [] (pl_serialNumbers l)))
                               (default [] (Some SampleMore.purchaseLines)));
               ClientMore.po_serials :=
                 flat_map pushedOf (default [] (Some SampleMore.purchaseLines)) |},
     (@Client.getPurchaseOrder SampleMore.purchaseShop "po1" (Some ["lines"])
        (Sample.start SampleMore.purchaseShop [])).2).
Proof.
  apply (@getPurchaseOrderSerials_lists_every_element SampleMore.purchaseShop "po1"
           (Sample.start SampleMore.purchaseShop [])).
  reflexivity.
Defined.

(** ** Listing the order-based index *)

(** X20. Whatever the order in which the index enumerates its entries,
    provided every enumerated record is an entry of the index: [listSerials]
    reports as [totalInIndex] the size of the whole index, filter or not, and
    as [count] the number of records it lists; every listed record is an
    entry of the index, of the requested product when a non-empty [productId]
    is given; and with a limit of at least one, at most that many are
    listed. *)
Theorem listSerials_filters_and_limits
    (values : gmap string SerialRecord → list SerialRecord)
    (serialIndex : gmap string SerialRecord)
    (limit : option nat) (productId : option string) :
  (∀ v, In v (values serialIndex) → ∃ key, serialIndex !! key = Some v) →
  let listing := ClientMore.listingOf values serialIndex limit productId in
  ClientMore.totalInIndex listing = size serialIndex
  ∧ ClientMore.count listing = List.length (ClientMore.listed listing)
  ∧ (∀ v, In v (ClientMore.listed listing) →
       (∃ key, serialIndex !! key = Some v)
       ∧ ∀ c rest, productId = Some (String c rest) →
                   sr_productId v = JStr (String c rest))
  ∧ (∀ n, limit = Some (S n) → (ClientMore.count listing ≤ S n)%nat).
Proof.
  intros Hvalues listing. split; [reflexivity|]. split; [reflexivity|].
  set (filtered :=
    match productId with
    | Some id =>
        if JsString.truthy id
        then List.filter (λ v, JsValue.strictEqualString (sr_productId v) id)
               (values serialIndex)
        else values serialIndex
    | None => values serialIndex
    end).
  assert (Hfiltered : ∀ v, In v filtered →
            In v (values serialIndex)
            ∧ ∀ c rest, productId = Some (String c rest) →
                        sr_productId v = JStr (String c rest)).
  { intros v Hin. unfold filtered in Hin. destruct productId as [[|c rest]|]; simpl in Hin.
    - split; [exact Hin|discriminate].
    - apply filter_In in Hin as [Hin Heq]. split; [exact Hin|].
      intros c' rest' [= <- <-]. unfold JsValue.strictEqualString in Heq.
      destruct (sr_productId v); try discriminate.
      apply String.eqb_eq in Heq. now subst.
    - split; [exact Hin|discriminate]. }
  assert (Hlisted : ClientMore.listed listing
                    = match limit with
                      | Some (S n) =>
                          if (S n <? List.length filtered)%nat
                          then firstn (S n) filtered else filtered
                      | _ => filtered
                      end) by reflexivity.
  split.
  - intros v Hin. rewrite Hlisted in Hin.
    assert (Hin' : In v filtered).
    { destruct limit as [[|n]|]; try exact Hin.
      destruct (S n <? List.length filtered)%nat; [|exact Hin].
      apply list_elem_of_In. apply list_elem_of_In in Hin.
      now apply (subseteq_take (S n) filtered). }
    destruct (Hfiltered v Hin') as [Hv Hp]. split; [now apply Hvalues|exact Hp].
  - intros n ->. change (List.length (ClientMore.listed listing) ≤ S n)%nat.
    rewrite Hlisted.
    destruct (Nat.ltb_spec (S n) (List.length filtered)) as [Hlt|Hge]; [|exact Hge].
    rewrite length_firstn. lia.
Qed.

Lemma listSerials_filters_and_limits_witness :
  let values := λ m : gmap string SerialRecord, (map_to_list m).*2 in
  let serialIndex := Client.indexOrders Sample.threeOrders in
  let listing := ClientMore.listingOf values serialIndex (Some 1%nat) (Some "p2") in
  ClientMore.totalInIndex listing = size serialIndex
  ∧ ClientMore.count listing = List.length (ClientMore.listed listing)
  ∧ (∀ v, In v (ClientMore.listed listing) →
       (∃ key, serialIndex !! key = Some v)
       ∧ ∀ c rest, Some "p2" = Some (String c rest) →
                   sr_productId v = JStr (String c rest))
  ∧ (∀ n, Some 1%nat = Some (S n) → (ClientMore.count listing ≤ S n)%nat).
Proof.
  apply (listSerials_filters_and_limits
           (λ m : gmap string SerialRecord, (map_to_list m).*2)
           (Client.indexOrders Sample.threeOrders) (Some 1%nat) (Some "p2")).
  intros v Hin. apply list_elem_of_In, list_elem_of_fmap in Hin as ([key v'] & -> & Hin).
  exists key. now apply elem_of_map_to_list.
Defined.

(** ** Commands that validate before they call *)

(** X21. [unreceive-po-items] asks for exactly one mode: when none or more
    than one of [receiveLineIds], [items] and [unreceiveAll] is given, it
    throws the matching usage error and the process state is as it was;
    nothing is parsed and the service is not called, dry run or not. *)
Theorem unreceive_po_items_wants_one_mode `{Env} (parse : string → Outcome Json)
    (purchaseOrderId : string) (receiveLineIds items : option string)
    (unreceiveAll dryRun : option bool) (w : World) :
  CliMore.modes receiveLineIds items unreceiveAll ≠ 1%nat →
  CliMore.unreceive_po_items parse purchaseOrderId receiveLineIds items
    unreceiveAll dryRun w
  = (Throw (if (CliMore.modes receiveLineIds items unreceiveAll =? 0)%nat
            then "Provide --receiveLineIds, --items, or --unreceiveAll"
            else "Use only one of --receiveLineIds, --items, or --unreceiveAll"),
     w).
Proof.
  intros Hmodes. unfold CliMore.unreceive_po_items.
  destruct (CliMore.modes receiveLineIds items unreceiveAll) as [|[|n]];
    [reflexivity|congruence|reflexivity].
Qed.

Lemma unreceive_po_items_wants_one_mode_witness :
  @CliMore.unreceive_po_items Sample.steady (λ _, Return JNull) "po1" (Some "[1]") None
    (Some true) (Some true) (Sample.start Sample.steady [])
  = (Throw "Use only one of --receiveLineIds, --items, or --unreceiveAll",
     Sample.start Sample.steady []).
Proof.
  apply (@unreceive_po_items_wants_one_mode Sample.steady (λ _, Return JNull) "po1"
           (Some "[1]") None (Some true) (Some true)
           (Sample.start Sample.steady [])).
  discriminate.
Defined.

(** X22. [receive-po-items] asks for [receiveAll] or [items], not both and
    not neither: otherwise it throws the matching usage error with the
    process state as it was. With [items] alone, a string that [JSON.parse]
    rejects surfaces as that parse error, again before the service is
    called. *)
Theorem receive_po_items_validates `{Env} (parse : string → Outcome Json)
    (purchaseOrderId : string) (receiveAll : option bool) (items : option string)
    (allowOverReceive : option bool) (w : World) :
  (CliMore.set receiveAll = CliMore.given items →
   CliMore.receive_po_items parse purchaseOrderId receiveAll items allowOverReceive w
   = (Throw (if CliMore.set receiveAll
             then "Cannot use both --receiveAll and --items"
             else "Provide --receiveAll=true or --items=[...]"), w))
  ∧ (∀ c rest message,
       CliMore.set receiveAll = false →
       items = Some (String c rest) →
       parse (String c rest) = Throw message →
       CliMore.receive_po_items parse purchaseOrderId receiveAll items
         allowOverReceive w
       = (Throw message, w)).
Proof.
  unfold CliMore.receive_po_items. split.
  - intros Heq. rewrite Heq. now destruct (CliMore.given items).
  - intros c rest message Hset -> Hparse. rewrite Hset. simpl.
    unfold bind, lift. simpl. now rewrite Hparse.
Qed.

Lemma receive_po_items_validates_witness :
  @CliMore.receive_po_items Sample.steady (λ _, Throw "Unexpected token") "po1"
    (Some true) (Some "[]") None (Sample.start Sample.steady [])
  = (Throw "Cannot use both --receiveAll and --items", Sample.start Sample.steady [])
  ∧ @CliMore.receive_po_items Sample.steady (λ _, Throw "Unexpected token") "po1"
      None (Some "[") None (Sample.start Sample.steady [])
    = (Throw "Unexpected token", Sample.start Sample.steady []).
Proof.
  split.
  - apply (proj1 (@receive_po_items_validates Sample.steady
                      (λ _, Throw "Unexpected token")
                      "po1" (Some true) (Some "[]") None (Sample.start Sample.steady []))).
    reflexivity.
  - apply (proj2 (@receive_po_items_validates Sample.steady
                      (λ _, Throw "Unexpected token")
                      "po1" None (Some "[") None (Sample.start Sample.steady []))
             "["%char "" "Unexpected token");
      reflexivity.
Defined.

(** X23. [create-purchase-order] reports any failure to parse [items] by
    its own usage message and calls nothing: the process state is as it
    was. *)
Theorem create_purchase_order_rejects_bad_items `{Env}
    (parse : string → Outcome Json) (vendorId : string)
    (orderNumber orderDate expectedDate locationId : option string)
    (items : string) (currency remarks : option string) (w : World)
    (message : string) :
  parse items = Throw message →
  CliMore.create_purchase_order parse vendorId orderNumber orderDate expectedDate
    locationId items currency remarks w
  = (Throw CliMore.invalidItems, w).
Proof.
  intros Hparse. unfold CliMore.create_purchase_order. now rewrite Hparse.
Qed.

Lemma create_purchase_order_rejects_bad_items_witness :
  @CliMore.create_purchase_order Sample.steady (λ _, Throw "Unexpected token")
    "v1" None None None None "[" None None (Sample.start Sample.steady [])
  = (Throw CliMore.invalidItems, Sample.start Sample.steady []).
Proof.
  apply (@create_purchase_order_rejects_bad_items Sample.steady
           (λ _, Throw "Unexpected token") "v1" None None None None "[" None None
           (Sample.start Sample.steady []) "Unexpected token").
  reflexivity.
Defined.

(** X24. [update-vendor] never switches caching off: it fetches the vendor
    by the gateway itself. When the service answers with a falsy value
    ([null], [false], [0], the empty string), it throws [Vendor <id> not
    found] after that one call: no write is sent and the cache, its entries,
    counters and switches, is as it was. *)
Theorem update_vendor_not_found `{Env} (id : string)
    (name email phone website : option string) (w w' : World) (vendor : Json) :
  ClientMore.getVendor id w = (Return (VJson vendor), w') →
  Js.truthy vendor = false →
  CliMore.update_vendor id name email phone website w
  = (Throw ("Vendor " ++ id ++ " not found"), w')
  ∧ cache w' = cache w
  ∧ cacheDisabled w' = cacheDisabled w.
Proof.
  intros Hget Hfalsy. unfold CliMore.update_vendor, bind. rewrite Hget. simpl.
  rewrite Hfalsy. simpl. split; [reflexivity|].
  pose proof (callTool_sameCaching "get_vendor" (JObj [("vendorId", JStr id)]) w)
    as (Hc & Hd & _).
  unfold ClientMore.getVendor in Hget. rewrite Hget in Hc, Hd. easy.
Qed.

Lemma update_vendor_not_found_witness :
  @CliMore.update_vendor SampleMore.nulls "v9" None None None None
    (Sample.start SampleMore.nulls [])
  = (Throw "Vendor v9 not found",
     (@ClientMore.getVendor SampleMore.nulls "v9" (Sample.start SampleMore.nulls [])).2)
  ∧ cache (@ClientMore.getVendor SampleMore.nulls "v9"
             (Sample.start SampleMore.nulls [])).2
    = cache (Sample.start SampleMore.nulls [])
  ∧ cacheDisabled (@ClientMore.getVendor SampleMore.nulls "v9"
                     (Sample.start SampleMore.nulls [])).2
    = cacheDisabled (Sample.start SampleMore.nulls []).
Proof.
  apply (@update_vendor_not_found SampleMore.nulls "v9" None None None None
           (Sample.start SampleMore.nulls []) _ JNull); reflexivity.
Defined.
